(** * Spec-lock helpers of solserver: a shallow embedding of
    [scripts/spec_lock.py] and the properties its specification states.

    Python values are modelled as follows.
    - A [str] is a sequence of Unicode code points: [list N].
    - A JSON document (what [json.loads] returns) is the inductive [json];
      a [dict] is a list of key-value pairs in insertion order ([pydict]),
      the process environment a [gmap].
    - A raised exception is a value [py_exn] carried by [Raise]; effectful
      callables (the content loader, the file system, the two network
      strategies) are state-passing functions whose calls are logged. *)

From Stdlib Require Import ZArith NArith String Ascii Lia DecimalString.
From stdpp Require Import base option list gmap.

Set Warnings "-register-all".
Local Open Scope N_scope.

(** ** Text: Python [str] as a list of code points *)

Abbreviation str := (list N).

Module Text.

(** An ASCII literal of the source, read as code points. *)
Definition of_string (s : string) : str :=
  map N_of_ascii (list_ascii_of_string s).

Definition LF : N := 10.
Definition CR : N := 13.
Definition BACKSLASH : N := 92.

(** [str.isspace] on one character: the code points CPython's
    [_PyUnicode_IsWhitespace] accepts; [str.strip()] without an argument
    removes exactly these. *)
Definition is_space (c : N) : bool :=
  ((9 <=? c) && (c <=? 13)) || ((28 <=? c) && (c <=? 32))
  || (c =? 133) || (c =? 160) || (c =? 5760)
  || ((8192 <=? c) && (c <=? 8202))
  || (c =? 8232) || (c =? 8233) || (c =? 8239) || (c =? 8287)
  || (c =? 12288).

Fixpoint lstrip (s : str) : str :=
  match s with
  | c :: s' => if is_space c then lstrip s' else s
  | [] => []
  end.

(** [s.rstrip()]: drop the trailing run of whitespace. *)
Fixpoint rstrip (s : str) : str :=
  match s with
  | [] => []
  | c :: s' =>
      match rstrip s' with
      | [] => if is_space c then [] else [c]
      | r => c :: r
      end
  end.

Definition strip (s : str) : str := rstrip (lstrip s).

(** Truthiness of a [str]: non-empty. *)
Definition truthy (s : str) : bool :=
  match s with [] => false | _ => true end.

Section Generic.
Context {A : Type} `{EqDecision A}.

(** A literal pattern matches at the head of [s]
    ([s.startswith(p)], and what an escaped regex literal does). *)
Fixpoint starts_with (p s : list A) : bool :=
  match p, s with
  | [], _ => true
  | _ :: _, [] => false
  | a :: p', b :: s' => bool_decide (a = b) && starts_with p' s'
  end.

(** [replace_from k old new s]: [s.replace(old, new)] for a non-empty
    [old], resumed [k] characters before the next scanning position
    (the tail of an occurrence that was just replaced). *)
Fixpoint replace_from (skip : nat) (old new s : list A) : list A :=
  match s with
  | [] => []
  | c :: s' =>
      match skip with
      | S k => replace_from k old new s'
      | O =>
          if starts_with old s
          then new ++ replace_from (length old - 1) old new s'
          else c :: replace_from 0 old new s'
      end
  end.

(** [s.replace(old, new)]: every non-overlapping occurrence, scanning
    from the left; an empty [old] matches between all characters. *)
Definition replace (old new s : list A) : list A :=
  match old with
  | [] => new ++ flat_map (fun c => c :: new) s
  | _ => replace_from 0 old new s
  end.

(** [sep.join(items)]. *)
Fixpoint join (sep : list A) (items : list (list A)) : list A :=
  match items with
  | [] => []
  | [x] => x
  | x :: rest => x ++ sep ++ join sep rest
  end.

(** [needle in s]. *)
Fixpoint contains (needle s : list A) : bool :=
  starts_with needle s ||
  match s with
  | [] => false
  | _ :: s' => contains needle s'
  end.

(** Index of the first occurrence of [needle] in [s] ([s.find]). *)
Fixpoint find (needle s : list A) : option nat :=
  if starts_with needle s then Some 0%nat
  else match s with
       | [] => None
       | _ :: s' => S <$> find needle s'
       end.
End Generic.

End Text.
Import Text.

(** ** Line endings *)

(** [normalize_newlines]: [text.replace("\r\n", "\n").replace("\r", "\n")]. *)
Definition normalize_newlines (text : str) : str :=
  replace [CR] [LF] (replace [CR; LF] [LF] text).

(** The three supported line-ending conventions. *)
Inductive eol := EolLF | EolCR | EolCRLF.

Definition eol_text (e : eol) : str :=
  match e with
  | EolLF => [LF]
  | EolCR => [CR]
  | EolCRLF => [CR; LF]
  end.

(** [convert_eol e t] rewrites every line ending of [t] (a CR LF pair, a
    bare CR or a bare LF, read greedily from the left) in convention [e]
    and leaves every other character as it is. *)
Fixpoint convert_eol (e : eol) (t : str) : str :=
  match t with
  | [] => []
  | c :: t' =>
      if c =? CR then
        match t' with
        | d :: t'' =>
            if d =? LF then eol_text e ++ convert_eol e t''
            else eol_text e ++ convert_eol e t'
        | [] => eol_text e
        end
      else if c =? LF then eol_text e ++ convert_eol e t'
      else c :: convert_eol e t'
  end.

(** ** UTF-8 encoding: [text.encode("utf-8")] *)

(** A byte is an integer in [0, 256). *)
Abbreviation bytes := (list Z).

Module Utf8.

Definition is_surrogate (c : N) : bool := (55296 <=? c) && (c <=? 57343).

(** The bytes of one code point that is not a surrogate. *)
Definition encode_char (c : N) : bytes :=
  let z := Z.of_N c in
  if c <? 128 then [z]
  else if c <? 2048 then
    [Z.lor 192 (Z.shiftr z 6); Z.lor 128 (Z.land z 63)]
  else if c <? 65536 then
    [Z.lor 224 (Z.shiftr z 12);
     Z.lor 128 (Z.land (Z.shiftr z 6) 63);
     Z.lor 128 (Z.land z 63)]
  else
    [Z.lor 240 (Z.land (Z.shiftr z 18) 7);
     Z.lor 128 (Z.land (Z.shiftr z 12) 63);
     Z.lor 128 (Z.land (Z.shiftr z 6) 63);
     Z.lor 128 (Z.land z 63)].

(** What the strict error handler reports: the code point found and the
    run of surrogates [start, stop) it begins. *)
Record encode_error := EncodeError {
  bad_char : N;
  bad_start : nat;
  bad_stop : nat
}.

Fixpoint surrogate_run (s : str) : nat :=
  match s with
  | c :: s' => if is_surrogate c then S (surrogate_run s') else 0%nat
  | [] => 0%nat
  end.

(** [encode_from pos s]: encode [s], whose first character sits at index
    [pos] of the whole text; a lone surrogate raises. *)
Fixpoint encode_from (pos : nat) (s : str) : encode_error + bytes :=
  match s with
  | [] => inr []
  | c :: s' =>
      if is_surrogate c
      then inl (EncodeError c pos (pos + surrogate_run s))
      else match encode_from (S pos) s' with
           | inr bs => inr (encode_char c ++ bs)
           | inl e => inl e
           end
  end.

Definition encode (s : str) : encode_error + bytes := encode_from 0 s.

End Utf8.

(** ** SHA-256 ([hashlib.sha256(...).hexdigest()]) over 32-bit words *)

Module Sha256.
Local Open Scope Z_scope.

Definition wrap32 (x : Z) : Z := x mod 2 ^ 32.
Definition add32 (a b : Z) : Z := wrap32 (a + b).
Definition rotr (n x : Z) : Z :=
  wrap32 (Z.lor (Z.shiftr x n) (Z.shiftl x (32 - n))).
Definition not32 (x : Z) : Z := 2 ^ 32 - 1 - x.

Definition Ch (x y z : Z) : Z := Z.lxor (Z.land x y) (Z.land (not32 x) z).
Definition Maj (x y z : Z) : Z :=
  Z.lxor (Z.lxor (Z.land x y) (Z.land x z)) (Z.land y z).
Definition Sigma0 (x : Z) : Z :=
  Z.lxor (Z.lxor (rotr 2 x) (rotr 13 x)) (rotr 22 x).
Definition Sigma1 (x : Z) : Z :=
  Z.lxor (Z.lxor (rotr 6 x) (rotr 11 x)) (rotr 25 x).
Definition sigma0 (x : Z) : Z :=
  Z.lxor (Z.lxor (rotr 7 x) (rotr 18 x)) (Z.shiftr x 3).
Definition sigma1 (x : Z) : Z :=
  Z.lxor (Z.lxor (rotr 17 x) (rotr 19 x)) (Z.shiftr x 10).

(** [iroot e n bits r]: the largest number below [2 ^ bits], extending
    [r], whose [e]-th power is at most [n]. *)
Fixpoint iroot (e n : Z) (bits : nat) (r : Z) : Z :=
  match bits with
  | O => r
  | S b =>
      let r' := Z.lor r (Z.shiftl 1 (Z.of_nat b)) in
      iroot e n b (if r' ^ e <=? n then r' else r)
  end.

Definition is_prime (p : nat) : bool :=
  forallb (fun d => negb (Z.of_nat p mod Z.of_nat d =? 0)) (seq 2 (p - 2)).

Definition primes (count : nat) : list Z :=
  Z.of_nat <$> take count (List.filter is_prime (seq 2 310)).

(** The first 32 bits of the fractional part of the [e]-th root of [p]. *)
Definition root_fraction (e p : Z) : Z :=
  wrap32 (iroot e (p * 2 ^ (32 * e)) 36 0).

(** The round constants: cube roots of the first 64 primes. *)
Definition K : list Z := Eval vm_compute in root_fraction 3 <$> primes 64.

(** The initial hash value: square roots of the first 8 primes. *)
Definition H0 : list Z := Eval vm_compute in root_fraction 2 <$> primes 8.

(** Big-endian bytes of [x], [n] of them. *)
Fixpoint be_bytes (n : nat) (x : Z) : bytes :=
  match n with
  | O => []
  | S k => Z.land (Z.shiftr x (8 * Z.of_nat k)) 255 :: be_bytes k x
  end.

Definition be_word (bs : bytes) : Z :=
  fold_left (fun acc b => Z.lor (Z.shiftl acc 8) b) bs 0.

(** Padding: a 1 bit, zeros up to 56 mod 64 bytes, the bit length on 8 bytes. *)
Definition pad (msg : bytes) : bytes :=
  let len := Z.of_nat (length msg) in
  let zeros := Z.to_nat ((55 - len) mod 64) in
  msg ++ [128] ++ repeat 0 zeros ++ be_bytes 8 (8 * len).

Fixpoint chunks (fuel size : nat) (bs : bytes) : list bytes :=
  match fuel with
  | O => []
  | S k =>
      match bs with
      | [] => []
      | _ => take size bs :: chunks k size (drop size bs)
      end
  end.

Definition words_of_block (block : bytes) : list Z :=
  be_word <$> chunks 16 4 block.

(** The message schedule, grown from 16 to 64 words. *)
Fixpoint schedule (n : nat) (w : list Z) : list Z :=
  match n with
  | O => w
  | S k =>
      let t := length w in
      let at_ i := nth (t - i) w 0 in
      schedule k
        (w ++ [add32 (add32 (sigma1 (at_ 2%nat)) (at_ 7%nat))
                     (add32 (sigma0 (at_ 15%nat)) (at_ 16%nat))])
  end.

Record regs := Regs { ra : Z; rb : Z; rc : Z; rd : Z;
                      re : Z; rf : Z; rg : Z; rh : Z }.

Definition round (r : regs) (kw : Z * Z) : regs :=
  let '(k, w) := kw in
  let t1 := add32 (add32 (add32 (rh r) (Sigma1 (re r)))
                         (add32 (Ch (re r) (rf r) (rg r)) k)) w in
  let t2 := add32 (Sigma0 (ra r)) (Maj (ra r) (rb r) (rc r)) in
  Regs (add32 t1 t2) (ra r) (rb r) (rc r) (add32 (rd r) t1) (re r) (rf r) (rg r).

Definition regs_of (h : list Z) : regs :=
  Regs (nth 0 h 0) (nth 1 h 0) (nth 2 h 0) (nth 3 h 0)
       (nth 4 h 0) (nth 5 h 0) (nth 6 h 0) (nth 7 h 0).

Definition list_of (r : regs) : list Z :=
  [ra r; rb r; rc r; rd r; re r; rf r; rg r; rh r].

Definition compress (h : list Z) (block : bytes) : list Z :=
  let w := schedule 48 (words_of_block block) in
  let r := fold_left round (zip K w) (regs_of h) in
  zip_with add32 h (list_of r).

Definition digest (msg : bytes) : list Z :=
  let padded := pad msg in
  fold_left compress (chunks (length padded) 64 padded) H0.

Definition hex_digit (d : Z) : N :=
  if d <? 10 then Z.to_N (48 + d) else Z.to_N (87 + d).

Definition hex_byte (b : Z) : str :=
  [hex_digit (Z.shiftr b 4); hex_digit (Z.land b 15)].

(** Lower-case hexadecimal text of the 32 digest bytes. *)
Definition hexdigest (msg : bytes) : str :=
  flat_map hex_byte (flat_map (be_bytes 4) (digest msg)).

End Sha256.

(** ** Exceptions and effects *)

(** A raised exception: the name of its class and [str(exc)]. *)
Record py_exn := PyExn {
  exn_class : string;
  exn_str : str
}.

(** The classes of the standard library that derive from [BaseException]
    without deriving from [Exception].  The classes that a program defines
    derive from [Exception], as the language reference asks of them. *)
Definition base_only_classes : list string :=
  [ "BaseException"; "BaseExceptionGroup"; "GeneratorExit";
    "KeyboardInterrupt"; "SystemExit"; "CancelledError" ]%string.

(** [isinstance(exc, Exception)]: what [except Exception] catches. *)
Definition is_exception (e : py_exn) : bool :=
  negb (existsb (String.eqb (exn_class e)) base_only_classes).

Inductive result (A : Type) : Type :=
| Ok (a : A)
| Raise (e : py_exn).
Arguments Ok {A} a.
Arguments Raise {A} e.

Definition nat_text (n : nat) : str :=
  of_string (NilEmpty.string_of_uint (Nat.to_uint n)).

Definition int_text (z : Z) : str :=
  of_string (NilEmpty.string_of_int (Z.to_int z)).

Definition KeyError (key : string) : py_exn :=
  PyExn "KeyError" (of_string "'" ++ of_string key ++ of_string "'").

Definition TypeError_not_iterable (tyname : string) : py_exn :=
  PyExn "TypeError"
        (of_string "'" ++ of_string tyname ++ of_string "' object is not iterable").

Definition AttributeError (tyname attr : string) : py_exn :=
  PyExn "AttributeError"
        (of_string "'" ++ of_string tyname
           ++ of_string "' object has no attribute '" ++ of_string attr
           ++ of_string "'").

Definition ValueError (msg : str) : py_exn := PyExn "ValueError" msg.
Definition RuntimeError (msg : str) : py_exn := PyExn "RuntimeError" msg.
(** [SystemExit(message)]. *)
Definition SystemExit (msg : str) : py_exn := PyExn "SystemExit" msg.
Definition FileNotFoundError (msg : str) : py_exn := PyExn "FileNotFoundError" msg.

(** Four lower-case hexadecimal digits of a code point below 65536. *)
Definition hex4 (c : N) : str :=
  let z := Z.of_N c in
  Sha256.hex_byte (Z.shiftr z 8) ++ Sha256.hex_byte (Z.land z 255).

(** [str(exc)] of the [UnicodeEncodeError] the strict UTF-8 encoder raises. *)
Definition UnicodeEncodeError (e : Utf8.encode_error) : py_exn :=
  let start := Utf8.bad_start e in
  let stop := Utf8.bad_stop e in
  PyExn "UnicodeEncodeError"
    (if (stop =? S start)%nat
     then of_string "'utf-8' codec can't encode character '\u"
            ++ hex4 (Utf8.bad_char e) ++ of_string "' in position "
            ++ nat_text start ++ of_string ": surrogates not allowed"
     else of_string "'utf-8' codec can't encode characters in position "
            ++ nat_text start ++ of_string "-" ++ nat_text (stop - 1)
            ++ of_string ": surrogates not allowed").

(** [sha256_normalized_text]: the digest of the UTF-8 encoding of the
    normalized text; the encoding step raises on a lone surrogate. *)
Definition sha256_normalized_text (text : str) : result str :=
  let normalized := normalize_newlines text in
  match Utf8.encode normalized with
  | inr bs => Ok (Sha256.hexdigest bs)
  | inl e => Raise (UnicodeEncodeError e)
  end.

(** A computation over a world [W] that returns or raises. *)
Definition Eff (W A : Type) : Type := W -> result A * W.

Module EffNotations.
Definition ret {W A} (a : A) : Eff W A := fun w => (Ok a, w).
Definition raise {W A} (e : py_exn) : Eff W A := fun w => (Raise e, w).
Definition lift {W A} (r : result A) : Eff W A := fun w => (r, w).
Definition bind {W A B} (m : Eff W A) (k : A -> Eff W B) : Eff W B :=
  fun w =>
    match m w with
    | (Ok a, w') => k a w'
    | (Raise e, w') => (Raise e, w')
    end.
(** [try: ... except Exception as exc:], the outcome handed on as a
    value; an exception outside [Exception] is not caught. *)
Definition try {W A} (m : Eff W A) : Eff W (result A) :=
  fun w =>
    match m w with
    | (Ok a, w') => (Ok (Ok a), w')
    | (Raise e, w') =>
        if is_exception e then (Ok (Raise e), w') else (Raise e, w')
    end.
Notation "'let*' x ':=' m 'in' k" := (bind m (fun x => k))
  (at level 10, x name, m at level 100, k at level 200).
End EffNotations.
Import EffNotations.

(** ** JSON values and the built-ins applied to them *)

(** What [json.loads] returns.  An object keeps its members in insertion
    order, as a Python [dict] does; a float is kept as the text Python
    prints for it. *)
Inductive json :=
| JNull
| JBool (b : bool)
| JInt (z : Z)
| JFloat (repr : str)
| JStr (s : str)
| JArr (items : list json)
| JObj (fields : list (str * json)).

(** A [dict] with [str] keys, in insertion order. *)
Abbreviation pydict V := (list (str * V)).

Section Dict.
Context {V : Type}.

(** [d.get(key)]: [None] when the key is absent. *)
Fixpoint dict_lookup (key : str) (d : pydict V) : option V :=
  match d with
  | [] => None
  | (k, v) :: d' => if decide (k = key) then Some v else dict_lookup key d'
  end.

(** [d.get(key, dflt)]. *)
Definition dict_get (key : str) (dflt : V) (d : pydict V) : V :=
  default dflt (dict_lookup key d).

(** [key in d]. *)
Definition dict_has (key : str) (d : pydict V) : bool :=
  bool_decide (is_Some (dict_lookup key d)).

(** [d[key]]. *)
Definition dict_item (key : string) (d : pydict V) : result V :=
  match dict_lookup (of_string key) d with
  | Some v => Ok v
  | None => Raise (KeyError key)
  end.
End Dict.

Definition type_name (v : json) : string :=
  match v with
  | JNull => "NoneType"
  | JBool _ => "bool"
  | JInt _ => "int"
  | JFloat _ => "float"
  | JStr _ => "str"
  | JArr _ => "list"
  | JObj _ => "dict"
  end.

(** [for x in v] / [list(v)]: a list yields its items, a string its
    characters, a dict its keys; anything else is not iterable. *)
Definition py_iter (v : json) : result (list json) :=
  match v with
  | JArr items => Ok items
  | JStr s => Ok ((fun c => JStr [c]) <$> s)
  | JObj fields => Ok ((fun kv => JStr kv.1) <$> fields)
  | _ => Raise (TypeError_not_iterable (type_name v))
  end.

(** [entry.get]: only a dict has the method. *)
Definition as_dict (v : json) : result (pydict json) :=
  match v with
  | JObj fields => Ok fields
  | _ => Raise (AttributeError (type_name v) "get")
  end.

(** ** Manifest validation *)

Definition required : list string :=
  ["epic"; "infra_repo"; "infra_sha"; "pr_map"; "canonical_files"]%string.

(** [isinstance(path_item, str) and path_item.strip()], as a truth value. *)
Definition is_nonblank_str (path_item : json) : bool :=
  match path_item with
  | JStr s => truthy (strip s)
  | _ => false
  end.

(** The checks [load_manifest] applies to the mapping [data] that
    [json.loads] returned for the manifest file. *)
Definition load_manifest (data : pydict json) : result (pydict json) :=
  let missing :=
    List.filter (fun key => negb (dict_has (of_string key) data)) required in
  match missing with
  | _ :: _ =>
      Raise (ValueError (of_string "Manifest missing required keys: "
                           ++ join (of_string ", ") (of_string <$> missing)))
  | [] =>
      match dict_lookup (of_string "canonical_files") data with
      | Some (JArr ((_ :: _) as canonical_files)) =>
          if forallb is_nonblank_str canonical_files then
            match dict_lookup (of_string "pr_map") data with
            | Some (JObj _) => Ok data
            | _ => Raise (ValueError (of_string "Manifest pr_map must be an object"))
            end
          else
            Raise (ValueError
                     (of_string "Manifest canonical_files entries must be non-empty strings"))
      | _ =>
          Raise (ValueError
                   (of_string "Manifest canonical_files must be a non-empty array"))
      end
  end.

(** ** Generated blocks *)

Definition begin_sentinel (tag : str) : str :=
  of_string "<!-- BEGIN GENERATED: " ++ tag ++ of_string " -->".

Definition end_sentinel (tag : str) : str :=
  of_string "<!-- END GENERATED: " ++ tag ++ of_string " -->".

(** The compiled pattern [re.escape(begin) + ".*?" + re.escape(end)] under
    [re.DOTALL]: the literal [begin], then as few characters of any kind as
    possible, then the literal [end]. *)
Module Pattern.

(** Length of the match that starts at the head of [s], if there is one:
    the lazy middle part stops at the first [end] after [begin]. *)
Definition match_here (begin end_ s : str) : option nat :=
  if starts_with begin s then
    (fun j => (length begin + j + length end_)%nat)
      <$> find end_ (drop (length begin) s)
  else None.

(** [pattern.search(s)]: the span [(i, j)] of the leftmost match. *)
Fixpoint search (begin end_ s : str) : option (nat * nat) :=
  match match_here begin end_ s with
  | Some n => Some (0%nat, n)
  | None =>
      match s with
      | [] => None
      | _ :: s' => (fun span => (S span.1, S span.2)) <$> search begin end_ s'
      end
  end.

(** [re] rejects the replacement template ([re.error], or [IndexError]
    for an unknown group name). *)
Inductive template_error := BadTemplate.

Definition is_digit (c : N) : bool := (48 <=? c) && (c <=? 57).
Definition is_octdigit (c : N) : bool := (48 <=? c) && (c <=? 55).
Definition is_ascii_letter (c : N) : bool :=
  ((65 <=? c) && (c <=? 90)) || ((97 <=? c) && (c <=? 122)).
Definition digit_val (c : N) : N := c - 48.

(** The escapes a template knows: a, b, f, n, r, t, v and the backslash. *)
Definition escape_of (c : N) : option N :=
  if c =? 97 then Some 7 else if c =? 98 then Some 8
  else if c =? 102 then Some 12 else if c =? 110 then Some 10
  else if c =? 114 then Some 13 else if c =? 116 then Some 9
  else if c =? 118 then Some 11 else if c =? 92 then Some 92
  else None.

(** Split at the first [stop] character. *)
Fixpoint until (stop : N) (s : str) : option (str * str) :=
  match s with
  | [] => None
  | c :: s' =>
      if c =? stop then Some ([], s')
      else (fun p => (c :: p.1, p.2)) <$> until stop s'
  end.

(** [expand fuel matched template]: the text [re] substitutes for a match
    [matched] of a pattern without groups, given a [str] template
    (CPython 3.12, [re._parser.parse_template]).  Each step consumes a
    character, so a fuel above the template's length is never used up. *)
Fixpoint expand (fuel : nat) (matched template : str) : template_error + str :=
  match fuel with
  | O => inr []
  | S fuel' =>
      let continue (prefix rest : str) :=
        match expand fuel' matched rest with
        | inr out => inr (prefix ++ out)
        | inl e => inl e
        end in
      match template with
      | [] => inr []
      | c :: t1 =>
          if negb (c =? BACKSLASH) then continue [c] t1
          else
            match t1 with
            | [] => inl BadTemplate
            | x :: t2 =>
                if x =? 103 then            (* \g<name> *)
                  match t2 with
                  | lt :: t3 =>
                      if lt =? 60 then
                        match until 62 t3 with
                        | None | Some ([], _) => inl BadTemplate
                        | Some (name, rest) =>
                            if forallb is_digit name then
                              if forallb (fun d => d =? 48) name
                              then continue matched rest
                              else inl BadTemplate
                            else inl BadTemplate
                        end
                      else inl BadTemplate
                  | [] => inl BadTemplate
                  end
                else if x =? 48 then        (* \0, \0o, \0oo *)
                  match t2 with
                  | o1 :: t3 =>
                      if is_octdigit o1 then
                        match t3 with
                        | o2 :: t4 =>
                            if is_octdigit o2
                            then continue
                                   [N.land (digit_val o1 * 8 + digit_val o2) 255] t4
                            else continue [digit_val o1] t3
                        | [] => continue [digit_val o1] t3
                        end
                      else continue [0] t2
                  | [] => continue [0] t2
                  end
                else if is_digit x then     (* \ooo or a group number *)
                  match t2 with
                  | d2 :: d3 :: t4 =>
                      if is_digit d2 && is_octdigit x && is_octdigit d2
                         && is_octdigit d3
                      then
                        let v := digit_val x * 64 + digit_val d2 * 8
                                 + digit_val d3 in
                        if 255 <? v then inl BadTemplate
                        else continue [v] t4
                      else inl BadTemplate
                  | _ => inl BadTemplate
                  end
                else
                  match escape_of x with
                  | Some ch => continue [ch] t2
                  | None =>
                      if is_ascii_letter x then inl BadTemplate
                      else continue [c; x] t2
                  end
            end
      end
  end.

Definition expand_template (matched template : str) : template_error + str :=
  expand (S (length template)) matched template.

(** [pattern.sub(repl, s, count=1)]. *)
Definition sub1 (begin end_ repl s : str) : template_error + str :=
  match search begin end_ s with
  | Some (i, j) =>
      match expand_template (take (j - i) (drop i s)) repl with
      | inr text => inr (take i s ++ text ++ drop j s)
      | inl e => inl e
      end
  | None => inr s
  end.

End Pattern.

Definition upsert_generated_block (document_text tag rendered_block : str)
  : Pattern.template_error + str :=
  let begin := begin_sentinel tag in
  let end_ := end_sentinel tag in
  if bool_decide (is_Some (Pattern.search begin end_ document_text)) then
    Pattern.sub1 begin end_ rendered_block document_text
  else if truthy (strip document_text) then
    inr (rstrip document_text ++ [LF; LF] ++ rendered_block ++ [LF])
  else
    inr (rendered_block ++ [LF]).

(** ** Anchor rendering, lock generation and verification *)

Definition CANONICAL_ANCHOR_TAG : str := of_string "canonical-spec-anchor".

(** The calls made to the content loader: path asked and outcome. *)
Abbreviation calls := (list (str * result str)).

Record VerificationResult := {
  ok : bool;
  mismatches : list (pydict str)
}.

Definition res_bind {A B} (r : result A) (k : A -> result B) : result B :=
  match r with
  | Ok a => k a
  | Raise e => Raise e
  end.

Notation "'let?' x ':=' r 'in' k" := (res_bind r (fun x => k))
  (at level 10, x name, r at level 100, k at level 200).

Section SpecLock.

(** [repr] of a list or a dict, which [str] returns for them; its text
    plays no part in what follows. *)
Variable container_repr : json -> str.

(** The built-in [str] on a JSON value. *)
Definition py_str (v : json) : str :=
  match v with
  | JNull => of_string "None"
  | JBool true => of_string "True"
  | JBool false => of_string "False"
  | JInt z => int_text z
  | JFloat repr => repr
  | JStr s => s
  | JArr _ | JObj _ => container_repr v
  end.

Definition anchor_file_line (infra_repo infra_sha : str) (relpath : json) : str :=
  let relpath_str := py_str relpath in
  of_string "  - " ++ relpath_str ++ of_string " (https://github.com/"
    ++ infra_repo ++ of_string "/blob/" ++ infra_sha ++ of_string "/"
    ++ relpath_str ++ of_string ")".

Definition render_canonical_spec_anchor (manifest : pydict json) : result str :=
  let? infra_repo := dict_item "infra_repo" manifest in
  let infra_repo := py_str infra_repo in
  let? infra_sha := dict_item "infra_sha" manifest in
  let infra_sha := py_str infra_sha in
  let? epic := dict_item "epic" manifest in
  let epic := py_str epic in
  let? files := dict_item "canonical_files" manifest in
  let? canonical_files := py_iter files in
  let lines :=
    [ of_string "<!-- BEGIN GENERATED: canonical-spec-anchor -->";
      of_string "## Canonical Spec Anchor (infra-docs)";
      of_string "- Epic: " ++ epic;
      of_string "- Canonical repo: " ++ infra_repo;
      of_string "- Canonical commit: " ++ infra_sha;
      of_string "- Canonical epic path: codex/epics/" ++ epic ++ of_string "/";
      of_string "- Canonical files:" ]
    ++ (anchor_file_line infra_repo infra_sha <$> canonical_files)
    ++ [ of_string "Notes:";
         of_string "- If you have a local checkout, set INFRA_DOCS_ROOT to verify locally.";
         of_string "- Otherwise CI will verify via GitHub at the pinned commit.";
         of_string "<!-- END GENERATED: canonical-spec-anchor -->" ] in
  Ok (join [LF] lines).

(** The content loader is any callable from a path to text: it runs in a
    world [W] of its own, may change it and may raise.  Every call is
    logged next to the world, in call order, with its outcome. *)
Context {W : Type}.

Definition call (content_loader : str -> Eff W str) (relpath : str)
  : Eff (W * calls) str :=
  fun st =>
    let '(r, w') := content_loader relpath st.1 in
    (r, (w', st.2 ++ [(relpath, r)])).

(** The loop of [generate_spec_lock]. *)
Fixpoint generate_entries (content_loader : str -> Eff W str)
    (relpaths : list json) (canonical_entries : list json)
  : Eff (W * calls) (list json) :=
  match relpaths with
  | [] => ret canonical_entries
  | relpath :: rest =>
      let relpath_str := py_str relpath in
      let* text := call content_loader relpath_str in
      let* digest := lift (sha256_normalized_text text) in
      generate_entries content_loader rest
        (canonical_entries
           ++ [JObj [(of_string "path", JStr relpath_str);
                     (of_string "sha256", JStr digest)]])
  end.

(** [generate_spec_lock]; [now] is the UTC clock reading, already in the
    [...Z] form, that stands in when [generated_at] is [None]. *)
Definition generate_spec_lock (now : str) (manifest : pydict json)
    (content_loader : str -> Eff W str) (generated_at : option str)
    (generator_name generator_version : str)
  : Eff (W * calls) (pydict json) :=
  let generated_at := default now generated_at in
  let* files := lift (dict_item "canonical_files" manifest) in
  let* relpaths := lift (py_iter files) in
  let* canonical_entries := generate_entries content_loader relpaths [] in
  let* epic := lift (dict_item "epic" manifest) in
  let* infra_repo := lift (dict_item "infra_repo" manifest) in
  let* infra_sha := lift (dict_item "infra_sha" manifest) in
  ret [ (of_string "schema_version", JInt 1);
        (of_string "epic", JStr (py_str epic));
        (of_string "generated_at", JStr generated_at);
        (of_string "infra_repo", JStr (py_str infra_repo));
        (of_string "infra_sha", JStr (py_str infra_sha));
        (of_string "canonical_files", JArr canonical_entries);
        (of_string "generator",
          JObj [ (of_string "name", JStr generator_name);
                 (of_string "version", JStr generator_version) ]) ].

Definition mismatch (relpath expected actual : str) : pydict str :=
  [ (of_string "path", relpath);
    (of_string "expected", expected);
    (of_string "actual", actual) ].

(** The loop of [verify_spec_lock]. *)
Fixpoint verify_entries (content_loader : str -> Eff W str)
    (canonical_entries : list json) (mismatches : list (pydict str))
  : Eff (W * calls) (list (pydict str)) :=
  match canonical_entries with
  | [] => ret mismatches
  | entry :: rest =>
      let* fields := lift (as_dict entry) in
      let relpath := py_str (dict_get (of_string "path") (JStr []) fields) in
      let expected := py_str (dict_get (of_string "sha256") (JStr []) fields) in
      let* outcome :=
        try (let* text := call content_loader relpath in
             lift (sha256_normalized_text text)) in
      match outcome with
      | Raise exc =>
          verify_entries content_loader rest
            (mismatches
               ++ [mismatch relpath expected
                     (of_string "<error: " ++ exn_str exc ++ of_string ">")])
      | Ok actual =>
          if bool_decide (actual ≠ expected) then
            verify_entries content_loader rest
              (mismatches ++ [mismatch relpath expected actual])
          else
            verify_entries content_loader rest mismatches
      end
  end.

Definition verify_spec_lock (lock_data : pydict json)
    (content_loader : str -> Eff W str)
  : Eff (W * calls) VerificationResult :=
  let canonical_entries :=
    dict_get (of_string "canonical_files") (JArr []) lock_data in
  let* entries := lift (py_iter canonical_entries) in
  let* mismatches := verify_entries content_loader entries [] in
  ret {| ok := bool_decide (length mismatches = 0%nat);
         mismatches := mismatches |}.

End SpecLock.

(** ** Exit policy *)

(** [decide_exit_code]; [environ] is the process environment that
    [os.getenv] reads. *)
Definition decide_exit_code (environ : gmap str str) (result : VerificationResult)
  : Z * str :=
  if ok result then
    (0%Z, of_string "Spec verification PASS.")
  else if bool_decide (environ !! of_string "ALLOW_SPEC_DRIFT" = Some (of_string "1")) then
    (0%Z, of_string "Spec drift detected, but ALLOW_SPEC_DRIFT=1 so continuing with warning.")
  else
    (1%Z, of_string "Spec drift detected. Set ALLOW_SPEC_DRIFT=1 to bypass.").

(** ** Canonical content retrieval *)

(** What a retrieval touches, in order. *)
Inductive access :=
| PathExists (path : str)
| PathIsDir (path : str)
| PathReadText (path : str)
| GhApi (infra_repo relpath infra_sha : str)
| RawGithub (infra_repo relpath infra_sha : str)
| PathGlob (path : str)
| ScriptPath.

Definition is_network (a : access) : bool :=
  match a with
  | GhApi _ _ _ | RawGithub _ _ _ => true
  | _ => false
  end.

(** An operation that raises exceptions of [Exception] only. *)
Definition raises_exceptions {W A} (op : Eff W A) : Prop :=
  forall w e w', op w = (Raise e, w') -> is_exception e = true.

(** The outside of [load_canonical_text]: [pathlib] on the local file
    system and the two network strategies ([fetch_via_gh_api] runs the
    [gh] tool, [fetch_via_raw_github] opens a URL), each an operation on a
    world [W].  What the three that can fail raise derives from
    [Exception]: [OSError] and [UnicodeDecodeError] from reading, and from
    the strategies (lines 207 to 246) [RuntimeError] and the errors of
    [subprocess], [json], [base64] and decoding. *)
Record Sources (W : Type) := {
  joinpath : str -> str -> str;               (* [root / relpath] *)
  path_exists : str -> W -> bool;
  path_is_dir : str -> W -> bool;
  path_read_text : str -> Eff W str;          (* [read_text(encoding="utf-8")] *)
  fetch_via_gh_api : str -> str -> str -> Eff W str;
  fetch_via_raw_github : str -> str -> str -> Eff W str;
  path_read_text_raises : forall path, raises_exceptions (path_read_text path);
  fetch_via_gh_api_raises :
    forall infra_repo relpath infra_sha,
      raises_exceptions (fetch_via_gh_api infra_repo relpath infra_sha);
  fetch_via_raw_github_raises :
    forall infra_repo relpath infra_sha,
      raises_exceptions (fetch_via_raw_github infra_repo relpath infra_sha)
}.
Arguments joinpath {W}.
Arguments path_exists {W}.
Arguments path_is_dir {W}.
Arguments path_read_text {W}.
Arguments fetch_via_gh_api {W}.
Arguments fetch_via_raw_github {W}.
Arguments path_read_text_raises {W}.
Arguments fetch_via_gh_api_raises {W}.
Arguments fetch_via_raw_github_raises {W}.

Section Retrieval.
Context {W : Type} (src : Sources W).

(** Run an operation and log the access. *)
Definition logged {A} (a : access) (op : Eff W A) : Eff (W * list access) A :=
  fun st =>
    let '(r, w') := op st.1 in
    (r, (w', st.2 ++ [a])).

Definition exists_ (path : str) : Eff (W * list access) bool :=
  logged (PathExists path) (fun w => (Ok (path_exists src path w), w)).

Definition is_dir (path : str) : Eff (W * list access) bool :=
  logged (PathIsDir path) (fun w => (Ok (path_is_dir src path w), w)).

Definition read_local_canonical_text (infra_docs_root relpath : str)
  : Eff (W * list access) str :=
  let path := joinpath src infra_docs_root relpath in
  let* found := exists_ path in
  if negb found then
    raise (FileNotFoundError (of_string "Canonical file not found at " ++ path))
  else
    logged (PathReadText path) (path_read_text src path).

Definition load_canonical_text (infra_repo infra_sha relpath : str)
    (infra_docs_root : option str) : Eff (W * list access) str :=
  if truthy (default [] infra_docs_root) then
    let root := default [] infra_docs_root in
    let* found := exists_ root in
    let* valid := if found then is_dir root else ret false in
    if negb valid then
      raise (RuntimeError
               (of_string "INFRA_DOCS_ROOT does not point to a valid directory: "
                  ++ root))
    else
      read_local_canonical_text root relpath
  else
    let* gh := try (logged (GhApi infra_repo relpath infra_sha)
                      (fetch_via_gh_api src infra_repo relpath infra_sha)) in
    match gh with
    | Ok text => ret text
    | Raise gh_error =>
        let* raw := try (logged (RawGithub infra_repo relpath infra_sha)
                           (fetch_via_raw_github src infra_repo relpath infra_sha)) in
        match raw with
        | Ok text => ret text
        | Raise raw_exc =>
            raise (RuntimeError
                     (of_string "gh fetch failed (" ++ exn_str gh_error
                        ++ of_string "); raw fetch failed (" ++ exn_str raw_exc
                        ++ of_string ")"))
        end
    end.

End Retrieval.

(** ** Vocabulary of the stated properties *)

(** Applying the upsert to its own result. *)
Definition upsert_twice (document_text tag rendered_block : str)
  : Pattern.template_error + str :=
  match upsert_generated_block document_text tag rendered_block with
  | inr once => upsert_generated_block once tag rendered_block
  | inl e => inl e
  end.

(** A non-empty sequence of strings with non-whitespace content. *)
Definition nonblank_str_list (v : json) : Prop :=
  exists items, v = JArr items /\ items <> [] /\
    Forall (fun item => exists s c, item = JStr s /\ In c s /\ is_space c = false)
           items.

Definition is_mapping (v : json) : Prop := exists fields, v = JObj fields.

(** The path and the stored digest [verify_spec_lock] reads from an entry. *)
Definition entry_path (container_repr : json -> str) (fields : pydict json) : str :=
  py_str container_repr (dict_get (of_string "path") (JStr []) fields).

Definition entry_expected (container_repr : json -> str) (fields : pydict json) : str :=
  py_str container_repr (dict_get (of_string "sha256") (JStr []) fields).

(** The mismatch, if any, that one entry contributes given the outcome of
    its retrieval. *)
Definition judge (container_repr : json -> str) (entry : json)
    (outcome : result str) : option (pydict str) :=
  match entry with
  | JObj fields =>
      let relpath := entry_path container_repr fields in
      let expected := entry_expected container_repr fields in
      match res_bind outcome sha256_normalized_text with
      | Raise exc =>
          Some (mismatch relpath expected
                  (of_string "<error: " ++ exn_str exc ++ of_string ">"))
      | Ok actual =>
          if bool_decide (actual = expected) then None
          else Some (mismatch relpath expected actual)
      end
  | _ => None
  end.

Section VerifyVocabulary.
Variable container_repr : json -> str.
Context {W : Type}.
Variable content_loader : str -> Eff W str.

(** What the entries contribute, given the logged calls. *)
Definition judged (entries : list json) (log : calls) : list (pydict str) :=
omap (fun p => judge container_repr p.1 (p.2).2) (zip entries log).

(** A logged call: the path of the entry, and what the loader answered
  in some world. *)
Definition genuine_call (entry : json) (c : str * result str) : Prop :=
exists fields, entry = JObj fields
  /\ c.1 = entry_path container_repr fields
  /\ exists w0 w1, content_loader c.1 w0 = (c.2, w1).

(** An entry as [generate_spec_lock] writes it: the path asked of the
  loader and the digest of the text it returned. *)
Definition locked_entry (entry : json) : Prop :=
exists (relpath digest text : str) (w0 w1 : W),
  entry = JObj [(of_string "path", JStr relpath);
                (of_string "sha256", JStr digest)]
  /\ content_loader relpath w0 = (Ok text, w1)
  /\ sha256_normalized_text text = Ok digest.

End VerifyVocabulary.

(** ** Sample data *)

(** No list or dict stands where the samples apply [str]. *)
Definition no_repr : json -> str := fun _ => [].

Definition sample_manifest : pydict json :=
  [ (of_string "epic", JStr (of_string "EPIC-7"));
    (of_string "infra_repo", JStr (of_string "SolLabsHQ/infra-docs"));
    (of_string "infra_sha", JStr (of_string "0a1b2c3"));
    (of_string "pr_map", JObj []);
    (of_string "canonical_files",
      JArr [JStr (of_string "spec/a.md"); JStr (of_string "spec/b.md")]) ].

(** A loader over a world with nothing in it: fixed text per path. *)
Definition fixed_loader (text_of : str -> str) : str -> Eff unit str :=
  fun relpath w => (Ok (text_of relpath), w).

Definition text_at_generation (relpath : str) : str :=
  if decide (relpath = of_string "spec/a.md") then of_string "X" ++ [LF]
  else of_string "Y" ++ [CR; LF].

Definition text_at_verification (relpath : str) : str :=
  if decide (relpath = of_string "spec/a.md") then of_string "X" ++ [CR; LF]
  else of_string "Z" ++ [LF].

(** A loader for which one path cannot be retrieved. *)
Definition flaky_loader : str -> Eff unit str :=
  fun relpath w =>
    if decide (relpath = of_string "spec/a.md")
    then (Raise (RuntimeError (of_string "HTTP 404")), w)
    else (Ok (of_string "Z" ++ [LF]), w).

(** A loader that ends the program at one path, as [sys.exit] does. *)
Definition exiting_loader : str -> Eff unit str :=
  fun relpath w =>
    if decide (relpath = of_string "spec/a.md")
    then (Raise (SystemExit (of_string "1")), w)
    else (Ok (of_string "Z" ++ [LF]), w).

Definition sample_now : str := of_string "2026-01-05T10:00:00Z".

Definition sample_entries : list json :=
  [ JObj [ (of_string "path", JStr (of_string "spec/a.md"));
           (of_string "sha256", JStr (of_string "00")) ];
    JObj [ (of_string "path", JStr (of_string "spec/b.md"));
           (of_string "sha256", JStr (of_string "11")) ] ].

Definition sample_lock : pydict json :=
  [ (of_string "schema_version", JInt 1);
    (of_string "canonical_files", JArr sample_entries) ].

Definition sample_document : str :=
  of_string "# Packet" ++ [LF]
    ++ of_string "<!-- BEGIN GENERATED: t -->old<!-- END GENERATED: t -->" ++ [LF]
    ++ of_string "tail".

(** A block whose file line holds a Windows-style path, [docs\new.md]. *)
Definition backslash_block : str :=
  of_string "<!-- BEGIN GENERATED: t -->" ++ [LF]
    ++ of_string "- docs\new.md" ++ [LF]
    ++ of_string "<!-- END GENERATED: t -->".

(** The same block with a path, [spec\design.md], whose backslash starts no escape. *)
Definition bad_escape_block : str :=
  of_string "<!-- BEGIN GENERATED: t -->" ++ [LF]
    ++ of_string "- spec\design.md" ++ [LF]
    ++ of_string "<!-- END GENERATED: t -->".

(** An operation with one outcome, a value or an [Exception]. *)
Lemma constant_raises_exceptions {W A} (r : result A) :
  match r with Raise e => is_exception e = true | Ok _ => True end ->
  raises_exceptions (fun w : W => (r, w)).
Proof. intros Hr w e w' [= -> _]. exact Hr. Qed.

(** An in-memory file system holding one file under [/infra], and no network. *)
Definition sample_sources : Sources unit := {|
  joinpath := fun root relpath => root ++ of_string "/" ++ relpath;
  path_exists := fun path _ =>
    bool_decide (path = of_string "/infra")
    || bool_decide (path = of_string "/infra/spec/a.md");
  path_is_dir := fun path _ => bool_decide (path = of_string "/infra");
  path_read_text := fun path w => (Ok (of_string "X" ++ [LF]), w);
  fetch_via_gh_api := fun _ _ _ w =>
    (Raise (RuntimeError (of_string "gh CLI is not available")), w);
  fetch_via_raw_github := fun _ _ _ w =>
    (Raise (RuntimeError (of_string "network unreachable")), w);
  path_read_text_raises := fun _ =>
    constant_raises_exceptions (Ok (of_string "X" ++ [LF])) I;
  fetch_via_gh_api_raises := fun _ _ _ =>
    constant_raises_exceptions
      (Raise (RuntimeError (of_string "gh CLI is not available"))) eq_refl;
  fetch_via_raw_github_raises := fun _ _ _ =>
    constant_raises_exceptions
      (Raise (RuntimeError (of_string "network unreachable"))) eq_refl
|}.

(** ** Further vocabulary *)

(** The two characters of which line endings are made. *)
Definition is_eol_char (c : N) : bool := (c =? CR) || (c =? LF).

(** A digit or one of the letters [a] to [f]. *)
Definition is_lower_hex (c : N) : bool :=
  ((48 <=? c) && (c <=? 57)) || ((97 <=? c) && (c <=? 102)).

(** Neither [<], with which both sentinels start, nor a backslash. *)
Definition plain_char (c : N) : bool := negb (c =? 60) && negb (c =? BACKSLASH).
Definition plain (s : str) : Prop := forallb plain_char s = true.

(** The lines of the anchor between the two sentinel lines. *)
Definition anchor_middle (container_repr : json -> str)
    (epic infra_repo infra_sha : str) (canonical_files : list json) : list str :=
  [ of_string "## Canonical Spec Anchor (infra-docs)";
    of_string "- Epic: " ++ epic;
    of_string "- Canonical repo: " ++ infra_repo;
    of_string "- Canonical commit: " ++ infra_sha;
    of_string "- Canonical epic path: codex/epics/" ++ epic ++ of_string "/";
    of_string "- Canonical files:" ]
  ++ (anchor_file_line container_repr infra_repo infra_sha <$> canonical_files)
  ++ [ of_string "Notes:";
       of_string "- If you have a local checkout, set INFRA_DOCS_ROOT to verify locally.";
       of_string "- Otherwise CI will verify via GitHub at the pinned commit." ].

(** What stands between the two sentinels of the anchor. *)
Definition anchor_body (container_repr : json -> str)
    (epic infra_repo infra_sha : str) (canonical_files : list json) : str :=
  flat_map (fun l => [LF] ++ l)
    (anchor_middle container_repr epic infra_repo infra_sha canonical_files)
  ++ [LF].

(** No value that the anchor shows holds [<] or a backslash. *)
Definition plain_manifest (container_repr : json -> str)
    (manifest : pydict json) : Prop :=
  (forall key v,
     In key ["epic"; "infra_repo"; "infra_sha"]%string ->
     dict_lookup (of_string key) manifest = Some v ->
     plain (py_str container_repr v))
  /\ (forall items,
        dict_lookup (of_string "canonical_files") manifest = Some (JArr items) ->
        Forall (fun item => plain (py_str container_repr item)) items).

(** The entry written for a path and the digest of its text. *)
Definition lock_entry (relpath digest : str) : json :=
  JObj [(of_string "path", JStr relpath); (of_string "sha256", JStr digest)].

(** One retrieval of a successful generation, for a manifest item and the
    pair of the text returned and its digest: the call logged, and the
    entry written. *)
Definition retrieved (container_repr : json -> str) (relpath : json)
    (td : str * str) : str * result str :=
  (py_str container_repr relpath, Ok td.1).

Definition written (container_repr : json -> str) (relpath : json)
    (td : str * str) : json :=
  lock_entry (py_str container_repr relpath) td.2.

(** What verification reports for a path whose text was [text_a] at
    generation and is [text_b] now. *)
Definition drift (text_a text_b : str -> str) (relpath : str)
  : option (pydict str) :=
  match sha256_normalized_text (text_a relpath) with
  | Ok expected =>
      match sha256_normalized_text (text_b relpath) with
      | Ok actual =>
          if bool_decide (actual = expected) then None
          else Some (mismatch relpath expected actual)
      | Raise exc =>
          Some (mismatch relpath expected
                  (of_string "<error: " ++ exn_str exc ++ of_string ">"))
      end
  | Raise _ => None
  end.

(** An entry that generation wrote for a manifest item whose text was
    [text_a]. *)
Definition locked_for (container_repr : json -> str) (text_a : str -> str)
    (relpath : json) (entry : json) : Prop :=
  exists digest,
    sha256_normalized_text (text_a (py_str container_repr relpath)) = Ok digest
    /\ entry = lock_entry (py_str container_repr relpath) digest.

(** ** Packet discovery (verify_spec_lock.py and packet.py) *)

(** The checkout as the two scripts see it: [directory / name],
    [path.exists()], and the names of what [directory.glob("PR-*")]
    yields, in the order it yields them. *)
Record Checkout := {
  child : str -> str -> str;
  present : str -> bool;
  glob_pr : str -> list str
}.

(** [sorted(items, key=...)]: the sort is stable, an item stays before the
    later items of the same key. *)
Fixpoint insert_by_key {A} (key : A -> Z) (x : A) (l : list A) : list A :=
  match l with
  | [] => [x]
  | y :: l' =>
      if (key x <=? key y)%Z then x :: y :: l'
      else y :: insert_by_key key x l'
  end.

Definition sorted {A} (key : A -> Z) (l : list A) : list A :=
  foldr (insert_by_key key) [] l.

(** [f"{n:03d}"]: zeros after the sign, up to three characters in all. *)
Definition format_03d (n : Z) : str :=
  let sign := if (n <? 0)%Z then of_string "-" else [] in
  let digits := int_text (Z.abs n) in
  sign ++ replicate (3 - length sign - length digits) 48 ++ digits.

Section PacketNumber.
(** The value of a decimal digit of Unicode, for the characters that [\d]
  matches and [int] reads, which are the same. *)
Variable decimal : N -> option N.

(** The digits at the head of a text, as far as they go. *)
Fixpoint leading_digits (s : str) : list N :=
match s with
| c :: rest =>
    match decimal c with
    | Some d => d :: leading_digits rest
    | None => []
    end
| [] => []
end.

(** [int] of a run of digits. *)
Definition int_of_digits (digits : list N) : Z :=
foldl (fun acc d => 10 * acc + Z.of_N d)%Z 0%Z digits.

(** [re.match(r"PR-(\d+)", name)] and [int(match.group(1))]; the name of
  a directory entry is far shorter than the 4300 digits at which [int]
  gives up. *)
Definition packet_number (name : str) : option Z :=
if starts_with (of_string "PR-") name then
  match leading_digits (drop 3 name) with
  | [] => None
  | digits => Some (int_of_digits digits)
  end
else None.

Variable tree : Checkout.

(** [root / "docs" / "pr"]. *)
Definition packets_base (root : str) : str :=
child tree (child tree root (of_string "docs")) (of_string "pr").

(** [discover_latest_packet] of verify_spec_lock.py. *)
Definition discover_latest_packet (root : str) : option str :=
let base := packets_base root in
if negb (present tree base) then None
else
  let candidates :=
    omap (fun name =>
            match packet_number name with
            | Some n => Some (n, child tree base name)
            | None => None
            end)
         (glob_pr tree base) in
  match candidates with
  | [] => None
  | _ => snd <$> last (sorted fst candidates)
  end.

(** [find_packets] of packet.py; the dict is used as a map only. *)
Definition find_packets (root : str) : gmap Z str :=
let base := packets_base root in
if negb (present tree base) then ∅
else
  foldl (fun packets name =>
           match packet_number name with
           | None => packets
           | Some prn =>
               let p := child tree base name in
               if present tree (child tree p (of_string "AGENTPACK.md"))
               then <[prn := p]> packets
               else packets
           end)
        ∅ (glob_pr tree base).

(** A listed directory holds an AGENTPACK.md. *)
Definition has_agentpack (root name : str) : bool :=
present tree
  (child tree (child tree (packets_base root) name) (of_string "AGENTPACK.md")).

(** A packet for packet.py: a listed directory with the number [n] that
  holds an AGENTPACK.md. *)
Definition listed_packet (root name : str) (n : Z) : Prop :=
present tree (packets_base root) = true
/\ name ∈ glob_pr tree (packets_base root)
/\ packet_number name = Some n
/\ has_agentpack root name = true.

(** [max(packets.keys())], on a dict that is not empty. *)
Definition max_key (packets : gmap Z str) : option Z :=
foldr (fun k acc => Some (from_option (Z.max k) k acc)) None
      (map_to_list packets).*1.

(** [pick_packet] of packet.py. *)
Definition pick_packet (root : str) (pr_num : option Z) : result str :=
let packets := find_packets root in
match pr_num with
| Some n =>
    match packets !! n with
    | Some p => Ok p
    | None =>
        Raise (SystemExit
                 (of_string "Packet not found for PR-" ++ int_text n
                    ++ of_string ". Expected docs/pr/PR-" ++ format_03d n
                    ++ of_string "/AGENTPACK.md or PR-" ++ int_text n
                    ++ of_string "."))
    end
| None =>
    match max_key packets with
    | None =>
        Raise (SystemExit
                 (of_string "No packets found under docs/pr/PR-*/AGENTPACK.md. Create docs/pr/PR-042/AGENTPACK.md etc."))
    | Some latest =>
        match packets !! latest with
        | Some p => Ok p
        | None => Raise (PyExn "KeyError" (int_text latest))
        end
    end
end.

End PacketNumber.

(** ** The verifier script (verify_spec_lock.py) *)

Module VerifyScript.

(** What [parser.parse_args()] returns. *)
Record Namespace := {
packet : option str;
pr_num : option Z
}.

(** What the script reaches besides the sources of canonical text. *)
Record Host (W : Type) := {
json_loads : str -> result json;     (* [json.loads] *)
script_root : Eff W str;             (* [Path(__file__).resolve().parents[1]] *)
path_glob : str -> W -> list str;    (* the names of what [directory.glob("PR-*")] yields *)
as_path : str -> str;                (* [Path(text)] *)
is_absolute : str -> bool;           (* [path.is_absolute()] *)
decimal : N -> option N;             (* the value of a decimal digit of Unicode *)
is_digit : N -> bool;                (* [str.isdigit] on one character *)
int_max_str_digits : nat;            (* [sys.get_int_max_str_digits()], 0 for no limit *)
int_error : str -> str;              (* [str(exc)] of the [ValueError] that [int(text)] raises *)
stdout_refuses : str -> option py_exn  (* what [print(text)] raises, when it does *)
}.
Arguments json_loads {W}.
Arguments script_root {W}.
Arguments path_glob {W}.
Arguments as_path {W}.
Arguments is_absolute {W}.
Arguments decimal {W}.
Arguments is_digit {W}.
Arguments int_max_str_digits {W}.
Arguments int_error {W}.
Arguments stdout_refuses {W}.

Section Script.
Variable container_repr : json -> str.
Context {W : Type} (src : Sources W) (host : Host W).

(** The state of a run: the world with the log of what was touched, and
the lines printed. *)
Abbreviation run_state := ((W * list access) * list str)%type.

(** [print(line)]: the line gets out whole or not at all. *)
Definition print (line : str) : Eff run_state unit :=
  fun st =>
match stdout_refuses host line with
| Some e => (Raise e, st)
| None => (Ok tt, (st.1, st.2 ++ [line]))
end.

(** An operation that prints nothing. *)
Definition quiet {A} (op : Eff (W * list access) A) : Eff run_state A :=
  fun st => let '(r, s') := op st.1 in (r, (s', st.2)).

(** The checkout in a world. *)
Definition checkout_at (w : W) : Checkout := {|
  child := joinpath src;
  present := fun path => path_exists src path w;
  glob_pr := fun directory => path_glob host directory w
|}.

(** [discover_latest_packet(root)] in the world of the run, with what it
touches: the existence test of [docs/pr] and, when that exists, its
listing. *)
Definition latest_packet (root : str) : Eff (W * list access) (option str) :=
  fun st =>
let tree := checkout_at st.1 in
let base := packets_base tree root in
(Ok (discover_latest_packet (decimal host) tree root),
 (st.1,
  st.2 ++ PathExists base
       :: (if present tree base then [PathGlob base] else []))).

(** [int(text)] for a text that [isdigit] accepted, which has no sign,
space or underscore. *)
Definition int_of_digit_text (text : str) : result Z :=
  match mapM (decimal host) text with
  | Some digits =>
  if negb (int_max_str_digits host =? 0)%nat
     && (int_max_str_digits host <? length text)%nat
  then Raise (ValueError (int_error host text))
  else Ok (int_of_digits digits)
  | None => Raise (ValueError (int_error host text))
  end.

(** [root / "docs" / "pr" / f"PR-{pr_num:03d}"]. *)
Definition numbered_packet (root : str) (n : Z) : str :=
  joinpath src
(joinpath src (joinpath src root (of_string "docs")) (of_string "pr"))
(of_string "PR-" ++ format_03d n).

Definition resolve_packet_dir (root : str) (packet_arg : option str)
(pr_num : option Z) (environ : gmap str str)
  : Eff (W * list access) (option str) :=
  if truthy (default [] packet_arg) then
let path := as_path host (default [] packet_arg) in
ret (Some (if is_absolute host path then path else joinpath src root path))
  else
let* pr_num :=
  match pr_num with
  | Some n => ret (Some n)
  | None =>
      let env_pr := default [] (environ !! of_string "PR_NUM") in
      if truthy env_pr && forallb (is_digit host) env_pr then
        let* n := lift (int_of_digit_text env_pr) in
        ret (Some n)
      else ret None
  end in
match pr_num with
| Some n => ret (Some (numbered_packet root n))
| None => latest_packet root
end.

(** The closure [content_loader] of [main].  The two keys are looked up
at every call, [infra_repo] first. *)
Definition content_loader (lock_data : pydict json)
(infra_docs_root : option str) (relpath : str)
  : Eff (W * list access) str :=
  let* infra_repo := lift (dict_item "infra_repo" lock_data) in
  let* infra_sha := lift (dict_item "infra_sha" lock_data) in
  load_canonical_text src (py_str container_repr infra_repo)
(py_str container_repr infra_sha) relpath infra_docs_root.


(** [spec_lock.verify_spec_lock(lock_data, content_loader)]: the first
thing it does is [lock_data.get], which only a dict has; the call log
of the loader is local to the call. *)
Definition verify (lock_data : json) (infra_docs_root : option str)
  : Eff (W * list access) VerificationResult :=
  let* fields := lift (as_dict lock_data) in
  fun s =>
let '(r, (s', _)) :=
  verify_spec_lock container_repr fields
    (content_loader fields infra_docs_root) (s, []) in
(r, s').

(** The line printed for one mismatch. *)
Definition mismatch_line (m : pydict str) : result str :=
  let? path := dict_item "path" m in
  let? expected := dict_item "expected" m in
  let? actual := dict_item "actual" m in
  Ok (of_string "- " ++ path ++ of_string ": expected " ++ expected
    ++ of_string " actual " ++ actual).

Fixpoint print_mismatches (mismatches : list (pydict str)) : Eff run_state unit :=
  match mismatches with
  | [] => ret tt
  | m :: rest =>
  let* line := lift (mismatch_line m) in
  let* _ := print line in
  print_mismatches rest
  end.

Definition skip_message : str :=
  of_string "No spec.lock.json found; skipping spec verification".

(** [main]; [parsed] is the outcome of [parser.parse_args()], which reads
the command line only, and the value is the exit status. *)
Definition main (parsed : result Namespace) (environ : gmap str str)
  : Eff run_state Z :=
  let* args := lift parsed in
  let* root := quiet (logged ScriptPath (script_root host)) in
  let* packet_dir :=
quiet (resolve_packet_dir root (packet args) (pr_num args) environ) in
  match packet_dir with
  | None =>
  let* _ := print skip_message in
  ret 0%Z
  | Some packet_dir =>
  let lock_path := joinpath src packet_dir (of_string "spec.lock.json") in
  let* found := quiet (exists_ src lock_path) in
  if negb found then
    let* _ := print skip_message in
    ret 0%Z
  else
    let* text := quiet (logged (PathReadText lock_path)
                          (path_read_text src lock_path)) in
    let* lock_data := lift (json_loads host text) in
    let infra_docs_root := environ !! of_string "INFRA_DOCS_ROOT" in
    let* result := quiet (verify lock_data infra_docs_root) in
    let '(exit_code, message) := decide_exit_code environ result in
    if ok result then
      let* _ := print (of_string "Spec verification PASS for " ++ lock_path) in
      ret 0%Z
    else
      let* _ := print message in
      let* _ := print_mismatches (mismatches result) in
      ret exit_code
  end.

(** Printing lines one after the other: the lines that got out, and what
the first line that did not raised. *)
Fixpoint printed (lines : list str) : list str * option py_exn :=
  match lines with
  | [] => ([], None)
  | line :: rest =>
  match stdout_refuses host line with
  | Some e => ([], Some e)
  | None => let '(out, r) := printed rest in (line :: out, r)
  end
  end.

End Script.
End VerifyScript.

(** ** Further sample data *)

(** The texts of generation with the second file edited. *)
Definition text_after_edit (relpath : str) : str :=
  if decide (relpath = of_string "spec/b.md") then of_string "Z" ++ [LF]
  else text_at_generation relpath.

(** A lock record whose second entry is a number. *)
Definition sample_bad_lock : pydict json :=
  [ (of_string "canonical_files",
      JArr [ JObj [ (of_string "path", JStr (of_string "spec/a.md"));
                    (of_string "sha256", JStr (of_string "00")) ];
             JInt 5;
             JObj [ (of_string "path", JStr (of_string "spec/b.md")) ] ]) ].

(** A lock record as the generator writes it, with a stale digest. *)
Definition sample_full_lock : pydict json :=
  [ (of_string "schema_version", JInt 1);
    (of_string "infra_repo", JStr (of_string "SolLabsHQ/infra-docs"));
    (of_string "infra_sha", JStr (of_string "0a1b2c3"));
    (of_string "canonical_files", JArr sample_entries) ].

(** A checkout with one packet that has a lock file, the canonical
    repository under [/infra], and no network. *)
Definition sample_packet_sources : Sources unit := {|
  joinpath := fun root relpath => root ++ of_string "/" ++ relpath;
  path_exists := fun path _ =>
    bool_decide (path = of_string "/repo/docs/pr/PR-001/spec.lock.json")
    || bool_decide (path = of_string "/infra")
    || bool_decide (path = of_string "/infra/spec/a.md");
  path_is_dir := fun path _ => bool_decide (path = of_string "/infra");
  path_read_text := fun path w => (Ok (of_string "X" ++ [LF]), w);
  fetch_via_gh_api := fun _ _ _ w =>
    (Raise (RuntimeError (of_string "gh CLI is not available")), w);
  fetch_via_raw_github := fun _ _ _ w =>
    (Raise (RuntimeError (of_string "network unreachable")), w);
  path_read_text_raises := fun _ =>
    constant_raises_exceptions (Ok (of_string "X" ++ [LF])) I;
  fetch_via_gh_api_raises := fun _ _ _ =>
    constant_raises_exceptions
      (Raise (RuntimeError (of_string "gh CLI is not available"))) eq_refl;
  fetch_via_raw_github_raises := fun _ _ _ =>
    constant_raises_exceptions
      (Raise (RuntimeError (of_string "network unreachable"))) eq_refl
|}.

(** A parser that knows one document. *)
Definition sample_json_loads (text : str) : result json :=
  if decide (text = of_string "X" ++ [LF]) then Ok (JObj sample_full_lock)
  else Raise (ValueError (of_string "Expecting value")).

(** The digits 0 to 9 of ASCII. *)
Definition ascii_decimal (c : N) : option N :=
  if (48 <=? c) && (c <=? 57) then Some (c - 48) else None.

(** The script installed under [/repo], POSIX paths given as they are
    written, ASCII digits, and a terminal that takes every line. *)
Definition sample_host : VerifyScript.Host unit := {|
  VerifyScript.json_loads := sample_json_loads;
  VerifyScript.script_root := fun w => (Ok (of_string "/repo"), w);
  VerifyScript.path_glob := fun directory _ =>
    if decide (directory = of_string "/repo/docs/pr")
    then [of_string "PR-001"] else [];
  VerifyScript.as_path := fun text => text;
  VerifyScript.is_absolute := fun path => starts_with (of_string "/") path;
  VerifyScript.decimal := ascii_decimal;
  VerifyScript.is_digit := fun c => bool_decide (is_Some (ascii_decimal c));
  VerifyScript.int_max_str_digits := 4300;
  VerifyScript.int_error := fun text =>
    of_string "invalid literal for int() with base 10";
  VerifyScript.stdout_refuses := fun _ => None
|}.

(** The arguments of a run without any. *)
Definition no_arguments : VerifyScript.Namespace :=
  {| VerifyScript.packet := None; VerifyScript.pr_num := None |}.

(** A checkout with three packet directories, [PR-007] without its
    AGENTPACK.md, and one directory that is no packet. *)
Definition sample_checkout : Checkout := {|
  child := fun directory name => directory ++ of_string "/" ++ name;
  present := fun path =>
    bool_decide (path ∈ [ of_string "/repo/docs/pr";
                          of_string "/repo/docs/pr/PR-002/AGENTPACK.md";
                          of_string "/repo/docs/pr/PR-5/AGENTPACK.md" ]);
  glob_pr := fun directory =>
    if decide (directory = of_string "/repo/docs/pr")
    then [ of_string "PR-5"; of_string "PR-007"; of_string "PR-002";
           of_string "PR-draft" ]
    else []
|}.


(** * Properties *)

(** ** Line endings *)

Lemma replace_crlf_cons (c : N) (t : str) :
  replace [CR; LF] [LF] (c :: t) =
    if c =? CR then
      match t with
      | d :: t' => if d =? LF then LF :: replace [CR; LF] [LF] t'
                   else c :: replace [CR; LF] [LF] t
      | [] => [c]
      end
    else c :: replace [CR; LF] [LF] t.
Proof.
  unfold replace. cbn [replace_from starts_with length Nat.sub].
  destruct (N.eqb_spec c CR) as [->|Hc].
  - rewrite bool_decide_eq_true_2 by done. cbn [andb].
    destruct t as [|d t']; [done|].
    destruct (N.eqb_spec d LF) as [->|Hd].
    + rewrite bool_decide_eq_true_2 by done. reflexivity.
    + rewrite bool_decide_eq_false_2 by congruence. reflexivity.
  - rewrite bool_decide_eq_false_2 by congruence. reflexivity.
Qed.

Lemma replace_cr_cons (c : N) (t : str) :
  replace [CR] [LF] (c :: t) =
    (if c =? CR then LF else c) :: replace [CR] [LF] t.
Proof.
  unfold replace. cbn [replace_from starts_with length Nat.sub].
  destruct (N.eqb_spec c CR) as [->|Hc].
  - rewrite bool_decide_eq_true_2 by done. reflexivity.
  - rewrite bool_decide_eq_false_2 by congruence. reflexivity.
Qed.

(** The two passes of [normalize_newlines] amount to one scan that writes
    every line ending as a line feed. *)
Lemma normalize_newlines_scan (t : str) :
  normalize_newlines t = convert_eol EolLF t.
Proof.
  unfold normalize_newlines.
  remember (length t) as n eqn:Hn.
  revert t Hn. induction n as [n IH] using lt_wf_ind. intros t Hn.
  destruct t as [|c t]; [reflexivity|].
  rewrite replace_crlf_cons. cbn [convert_eol eol_text app].
  destruct (N.eqb_spec c CR) as [->|Hc].
  - destruct t as [|d t'].
    + reflexivity.
    + destruct (N.eqb_spec d LF) as [->|Hd].
      * rewrite replace_cr_cons. cbn [N.eqb LF CR Pos.eqb].
        f_equal. apply (IH (length t')); simpl in *; lia || done.
      * rewrite replace_cr_cons. rewrite N.eqb_refl.
        f_equal. apply (IH (length (d :: t'))); simpl in *; lia || done.
  - rewrite replace_cr_cons.
    destruct (N.eqb_spec c LF) as [->|Hl].
    + cbn. f_equal. apply (IH (length t)); simpl in *; lia || done.
    + rewrite (proj2 (N.eqb_neq c CR)) by done.
      f_equal. apply (IH (length t)); simpl in *; lia || done.
Qed.

Lemma convert_eol_cr_head (t r : str) : convert_eol EolCR t <> LF :: r.
Proof.
  destruct t as [|c t]; [done|]. cbn [convert_eol eol_text].
  destruct (N.eqb_spec c CR) as [->|Hc].
  - destruct t as [|d t']; [done|]. destruct (d =? LF); done.
  - destruct (N.eqb_spec c LF) as [->|Hl]; [done|]. congruence.
Qed.

(** A line ending written in convention [e], followed by converted text,
    reads back as one line ending. *)
Lemma convert_lf_eol (e : eol) (u : str) :
  convert_eol EolLF (eol_text e ++ convert_eol e u) =
    LF :: convert_eol EolLF (convert_eol e u).
Proof.
  destruct e; cbn [eol_text app].
  - reflexivity.
  - pose proof (convert_eol_cr_head u) as Hhd.
    destruct (convert_eol EolCR u) as [|d r] eqn:Hu; [reflexivity|].
    cbn [convert_eol]. rewrite N.eqb_refl.
    destruct (N.eqb_spec d LF) as [->|Hd]; [by destruct (Hhd r)|].
    reflexivity.
  - reflexivity.
Qed.

Lemma convert_eol_lf_absorb (e : eol) (t : str) :
  convert_eol EolLF (convert_eol e t) = convert_eol EolLF t.
Proof.
  remember (length t) as n eqn:Hn.
  revert t Hn. induction n as [n IH] using lt_wf_ind. intros t Hn.
  destruct t as [|c t]; [reflexivity|].
  cbn [convert_eol].
  destruct (N.eqb_spec c CR) as [->|Hc].
  - destruct t as [|d t'].
    + destruct e; reflexivity.
    + destruct (N.eqb_spec d LF) as [->|Hd].
      * rewrite convert_lf_eol. cbn [eol_text app]. f_equal.
        apply (IH (length t')); simpl in *; lia || done.
      * rewrite convert_lf_eol. cbn [eol_text app]. f_equal.
        apply (IH (length (d :: t'))); simpl in *; lia || done.
  - destruct (N.eqb_spec c LF) as [->|Hl].
    + rewrite convert_lf_eol. cbn [eol_text app]. f_equal.
      apply (IH (length t)); simpl in *; lia || done.
    + cbn [convert_eol].
      rewrite (proj2 (N.eqb_neq c CR)), (proj2 (N.eqb_neq c LF)) by done.
      f_equal. apply (IH (length t)); simpl in *; lia || done.
Qed.

Lemma normalize_newlines_idem (t : str) :
  normalize_newlines (normalize_newlines t) = normalize_newlines t.
Proof. rewrite !normalize_newlines_scan. apply convert_eol_lf_absorb. Qed.

Lemma normalize_newlines_convert (e : eol) (t : str) :
  normalize_newlines (convert_eol e t) = normalize_newlines t.
Proof. rewrite !normalize_newlines_scan. apply convert_eol_lf_absorb. Qed.

(** The normalizer leaves every character that is no CR alone and leaves
    no CR behind. *)
Lemma normalize_newlines_no_cr (t : str) : CR ∉ normalize_newlines t.
Proof.
  rewrite normalize_newlines_scan.
  remember (length t) as n eqn:Hn.
  revert t Hn. induction n as [n IH] using lt_wf_ind. intros t Hn.
  destruct t as [|c t]; [apply not_elem_of_nil|].
  cbn [convert_eol eol_text app].
  destruct (N.eqb_spec c CR) as [->|Hc].
  - destruct t as [|d t'].
    + by intros [?|?%elem_of_nil]%elem_of_cons.
    + destruct (d =? LF); apply not_elem_of_cons; (split; [done|]).
      * apply (IH (length t')); simpl in *; lia || done.
      * apply (IH (length (d :: t'))); simpl in *; lia || done.
  - destruct (N.eqb_spec c LF) as [->|Hl]; apply not_elem_of_cons; (split; [done|]);
      apply (IH (length t)); simpl in *; lia || done.
Qed.

(** C2: a text and its normalized form have the same digest, and so has
    the text with every line ending rewritten in any one of the three
    conventions: texts that differ only in line-ending convention have
    identical digests. *)
Theorem sha256_normalized_text_eol_invariant (t : str) :
  sha256_normalized_text t = sha256_normalized_text (normalize_newlines t)
  /\ (forall e : eol,
        sha256_normalized_text (convert_eol e t) = sha256_normalized_text t)
  /\ (forall e1 e2 : eol,
        sha256_normalized_text (convert_eol e1 t) =
          sha256_normalized_text (convert_eol e2 t)).
Proof.
  assert (Hconv : forall e, sha256_normalized_text (convert_eol e t)
                            = sha256_normalized_text t).
  { intros e. unfold sha256_normalized_text.
    by rewrite normalize_newlines_convert. }
  split; [|split].
  - unfold sha256_normalized_text. by rewrite normalize_newlines_idem.
  - exact Hconv.
  - intros e1 e2. by rewrite !Hconv.
Qed.

(** ** Exit policy *)

(** C8: the exit code is 0 exactly when the result is ok or the
    environment holds ALLOW_SPEC_DRIFT=1, and 1 exactly when the result is
    not ok and the variable is unset or holds anything else. *)
Theorem decide_exit_code_policy (environ : gmap str str) (result : VerificationResult) :
  ((decide_exit_code environ result).1 = 0%Z
   <-> ok result = true
       \/ environ !! of_string "ALLOW_SPEC_DRIFT" = Some (of_string "1"))
  /\ ((decide_exit_code environ result).1 = 1%Z
      <-> ok result = false
          /\ environ !! of_string "ALLOW_SPEC_DRIFT" <> Some (of_string "1")).
Proof.
  unfold decide_exit_code. destruct (ok result).
  - cbn [fst]. split; split; [by left | done | done | by intros [? _]].
  - case_bool_decide as Henv; cbn [fst]; split; split;
      try done; try (by right); try (by intros [? ?]); by intros [?|?].
Qed.

Example decide_exit_code_unset :
  decide_exit_code ∅ {| ok := false; mismatches := [] |}
  = (1%Z, of_string "Spec drift detected. Set ALLOW_SPEC_DRIFT=1 to bypass.").
Proof. reflexivity. Qed.

Example decide_exit_code_other_value :
  (decide_exit_code {[ of_string "ALLOW_SPEC_DRIFT" := of_string "true" ]}
     {| ok := false; mismatches := [] |}).1 = 1%Z.
Proof. vm_compute. reflexivity. Qed.

Example decide_exit_code_bypass :
  (decide_exit_code {[ of_string "ALLOW_SPEC_DRIFT" := of_string "1" ]}
     {| ok := false; mismatches := [] |}).1 = 0%Z.
Proof. vm_compute. reflexivity. Qed.

(** ** Manifest validation *)

Lemma dict_has_item {V} (key : string) (d : pydict V) :
  dict_has (of_string key) d = true -> exists v, dict_item key d = Ok v.
Proof.
  unfold dict_has, dict_item. rewrite bool_decide_eq_true. intros [v ->]. eauto.
Qed.

(** What a manifest that passes validation holds. *)
Lemma load_manifest_Ok_inv (data m : pydict json) :
  load_manifest data = Ok m ->
  m = data
  /\ Forall (fun key => dict_has (of_string key) data = true) required
  /\ (exists items,
        dict_lookup (of_string "canonical_files") data = Some (JArr items)
        /\ items <> [] /\ forallb is_nonblank_str items = true)
  /\ (exists fields, dict_lookup (of_string "pr_map") data = Some (JObj fields)).
Proof.
  unfold load_manifest.
  destruct (List.filter _ required) as [|k ks] eqn:Hmissing; [|done].
  destruct (dict_lookup (of_string "canonical_files") data)
    as [[| | | | |[|item items]|]|] eqn:Hfiles; try done.
  destruct (forallb is_nonblank_str (item :: items)) eqn:Hitems; [|done].
  destruct (dict_lookup (of_string "pr_map") data)
    as [[| | | | | |fields]|] eqn:Hmap; try done.
  intros [= <-]. split; [done|]. split; [|split; [by eexists|by eexists]].
  apply Forall_forall. intros key Hkey%list_elem_of_In.
  destruct (dict_has (of_string key) data) eqn:Hhas; [done|].
  assert (Hin : In key (List.filter
            (fun key => negb (dict_has (of_string key) data)) required)).
  { apply filter_In. by rewrite Hhas. }
  by rewrite Hmissing in Hin.
Qed.

(** ** Encoding *)

Lemma encode_from_ok (s : str) :
  Forall (fun c => Utf8.is_surrogate c = false) s ->
  forall pos, exists bs, Utf8.encode_from pos s = inr bs.
Proof.
  induction 1 as [|c s Hc _ IH]; intros pos; cbn [Utf8.encode_from].
  - by eexists.
  - rewrite Hc. destruct (IH (S pos)) as [bs ->]. by eexists.
Qed.

Lemma convert_eol_Forall (P : N -> Prop) (e : eol) (t : str) :
  Forall P (eol_text e) -> Forall P t -> Forall P (convert_eol e t).
Proof.
  intros He.
  remember (length t) as n eqn:Hn.
  revert t Hn. induction n as [n IH] using lt_wf_ind. intros t Hn Ht.
  destruct t as [|c t]; [constructor|].
  apply Forall_cons in Ht as [Hc Ht]. cbn [convert_eol].
  destruct (c =? CR).
  - destruct t as [|d t']; [done|].
    apply Forall_cons in Ht as [Hd Ht'].
    destruct (d =? LF); apply Forall_app; (split; [done|]).
    + apply (IH (length t')); simpl in *; lia || done.
    + apply (IH (length (d :: t'))); simpl in *; lia || done || by constructor.
  - destruct (c =? LF).
    + apply Forall_app; split; [done|].
      apply (IH (length t)); simpl in *; lia || done.
    + constructor; [done|]. apply (IH (length t)); simpl in *; lia || done.
Qed.

(** Text without surrogate code points always has a digest. *)
Lemma sha256_normalized_text_ok (text : str) :
  Forall (fun c => Utf8.is_surrogate c = false) text ->
  exists digest, sha256_normalized_text text = Ok digest.
Proof.
  intros Htext. unfold sha256_normalized_text, Utf8.encode.
  rewrite normalize_newlines_scan.
  destruct (encode_from_ok (convert_eol EolLF text)) with (pos := 0%nat)
    as [bs ->]; [|by eexists].
  apply convert_eol_Forall; [|done]. by repeat constructor.
Qed.

(** What the digest raises is an [Exception]. *)
Lemma sha256_raises_exception (text : str) (exc : py_exn) :
  sha256_normalized_text text = Raise exc -> is_exception exc = true.
Proof.
  unfold sha256_normalized_text.
  destruct (Utf8.encode (normalize_newlines text)); [|done].
  by intros [= <-].
Qed.

(** ** Verification of a lock record *)

Section VerifyFacts.
Variable container_repr : json -> str.
Context {W : Type}.
Variable content_loader : str -> Eff W str.

Lemma judged_cons (entry : json) (c : str * result str)
    (entries : list json) (log : calls) :
  judged container_repr (entry :: entries) (c :: log)
  = match judge container_repr entry c.2 with
    | Some m => m :: judged container_repr entries log
    | None => judged container_repr entries log
    end.
Proof. unfold judged. cbn. by destruct (judge container_repr entry c.2). Qed.

(** The loop never aborts on well-formed entries: it asks the loader for
    every entry, in order, and appends what each one contributes. *)
Lemma verify_entries_spec (entries : list json) :
  (forall relpath, raises_exceptions (content_loader relpath)) ->
  Forall is_mapping entries ->
  forall (ms : list (pydict str)) (w : W) (log : calls),
  exists (w' : W) (log' : calls),
    verify_entries container_repr content_loader entries ms (w, log)
      = (Ok (ms ++ judged container_repr entries log'), (w', log ++ log'))
    /\ Forall2 (genuine_call container_repr content_loader) entries log'.
Proof.
  intros Hexc.
  induction 1 as [|entry rest [fields ->] Hrest IH]; intros ms w log.
  - exists w, []. cbn. rewrite !app_nil_r. split; [done|constructor].
  - cbn [verify_entries].
    unfold bind at 1, lift at 1. cbn [as_dict].
    unfold bind at 1, try at 1, bind at 1, call at 1. cbn [fst snd].
    fold (entry_path container_repr fields).
    fold (entry_expected container_repr fields).
    destruct (content_loader (entry_path container_repr fields) w)
      as [r w1] eqn:Hcall.
    assert (Hr : match r with
                 | Raise exc => is_exception exc = true
                 | Ok _ => True
                 end).
    { destruct r as [text|exc]; [done|]. by eapply Hexc. }
    set (c := (entry_path container_repr fields, r)).
    assert (Hc : genuine_call container_repr content_loader (JObj fields) c).
    { exists fields. repeat split. by exists w, w1. }
    assert (Hstep : forall ms1,
      ms1 = ms ++ match judge container_repr (JObj fields) r with
                  | Some m => [m] | None => [] end ->
      exists w' log',
        verify_entries container_repr content_loader rest ms1 (w1, log ++ [c])
        = (Ok (ms ++ judged container_repr (JObj fields :: rest) log'),
           (w', log ++ log'))
        /\ Forall2 (genuine_call container_repr content_loader)
                   (JObj fields :: rest) log').
    { intros ms1 ->.
      destruct (IH (ms ++ match judge container_repr (JObj fields) r with
                          | Some m => [m] | None => [] end) w1 (log ++ [c]))
        as (w' & log' & Hrun & Hlog).
      exists w', (c :: log'). rewrite Hrun, judged_cons. cbn [snd c].
      split; [|by constructor].
      destruct (judge container_repr (JObj fields) r);
        by rewrite <- !(assoc_L (++)). }
    destruct r as [text|exc]; cbn [lift].
    + destruct (sha256_normalized_text text) as [actual|exc] eqn:Hsha.
      * case_bool_decide as Hne; apply Hstep; cbn [judge res_bind];
          rewrite Hsha.
        -- by rewrite bool_decide_eq_false_2.
        -- rewrite bool_decide_eq_true_2, app_nil_r; [done|].
           by destruct (decide (actual = entry_expected container_repr fields)).
      * rewrite (sha256_raises_exception _ _ Hsha).
        apply Hstep. cbn [judge res_bind]. by rewrite Hsha.
    + rewrite Hr. apply Hstep. reflexivity.
Qed.

Lemma judged_lookup (entries : list json) (log : calls) (i : nat)
    (entry : json) (c : str * result str) (m : pydict str) :
  entries !! i = Some entry -> log !! i = Some c ->
  judge container_repr entry c.2 = Some m ->
  m ∈ judged container_repr entries log.
Proof.
  intros He Hc Hm. unfold judged. apply list_elem_of_omap.
  exists (entry, c). split; [|done].
  by apply (elem_of_lookup_zip_with_2 pair entries log entry c (entry, c) i).
Qed.

(** C3, amended: on a lock record whose canonical_files is a list of
    entries, and for a loader whose failures are exceptions of Exception
    (what except Exception catches), verification returns a result and
    asks the loader for every entry, in order, whatever earlier retrievals
    did; the mismatches are what the entries contribute one by one; an
    entry whose retrieval raised contributes a mismatch for its path whose
    actual field is the error placeholder; and ok is true iff there is no
    mismatch. *)
Theorem verify_spec_lock_records_failures
    (lock_data : pydict json) (entries : list json) (w : W) :
  dict_get (of_string "canonical_files") (JArr []) lock_data = JArr entries ->
  Forall is_mapping entries ->
  (forall relpath, raises_exceptions (content_loader relpath)) ->
  exists (res : VerificationResult) (w' : W) (log : calls),
    verify_spec_lock container_repr lock_data content_loader (w, [])
      = (Ok res, (w', log))
    /\ Forall2 (genuine_call container_repr content_loader) entries log
    /\ mismatches res = judged container_repr entries log
    /\ (forall (i : nat) (fields : pydict json) (exc : py_exn),
          entries !! i = Some (JObj fields) ->
          log !! i = Some (entry_path container_repr fields, Raise exc) ->
          mismatch (entry_path container_repr fields)
                   (entry_expected container_repr fields)
                   (of_string "<error: " ++ exn_str exc ++ of_string ">")
            ∈ mismatches res)
    /\ (ok res = true <-> mismatches res = []).
Proof.
  intros Hfiles Hwf Hexc.
  destruct (verify_entries_spec entries Hexc Hwf [] w [])
    as (w' & log & Hrun & Hlog).
  exists {| ok := bool_decide (length (judged container_repr entries log) = 0%nat);
            mismatches := judged container_repr entries log |}, w', log.
  split; [|split; [done|split; [done|split]]].
  - unfold verify_spec_lock. rewrite Hfiles.
    unfold bind at 1, lift at 1. cbn [py_iter].
    unfold bind at 1. rewrite Hrun. reflexivity.
  - intros i fields exc He Hc. cbn [mismatches].
    by eapply judged_lookup.
  - cbn [ok mismatches]. rewrite bool_decide_eq_true.
    apply length_zero_iff_nil.
Qed.

(** C10: a lock record without canonical_files, or with an empty list
    there, verifies with ok = true and no mismatch, for every loader, and
    the loader is never called (the call log stays empty and the world is
    untouched). *)
Theorem verify_spec_lock_no_entries (lock_data : pydict json) (w : W) :
  dict_lookup (of_string "canonical_files") lock_data = None
  \/ dict_lookup (of_string "canonical_files") lock_data = Some (JArr []) ->
  verify_spec_lock container_repr lock_data content_loader (w, [])
    = (Ok {| ok := true; mismatches := [] |}, (w, [])).
Proof.
  intros Hfiles. unfold verify_spec_lock, dict_get.
  by destruct Hfiles as [-> | ->].
Qed.

Lemma generate_entries_locked (relpaths : list json) :
  forall (acc : list json) (st st' : W * calls) (entries : list json),
  Forall (locked_entry content_loader) acc ->
  generate_entries container_repr content_loader relpaths acc st
    = (Ok entries, st') ->
  Forall (locked_entry content_loader) entries.
Proof.
  induction relpaths as [|relpath rest IH]; intros acc st st' entries Hacc.
  - cbn. by intros [= <- _].
  - cbn [generate_entries]. unfold bind at 1, call at 1.
    destruct (content_loader (py_str container_repr relpath) st.1)
      as [[text|exc] w1] eqn:Hcall; [|done].
    unfold bind at 1, lift at 1.
    destruct (sha256_normalized_text text) as [digest|exc] eqn:Hsha; [|done].
    apply IH. apply Forall_app. split; [done|].
    apply Forall_singleton.
    by exists (py_str container_repr relpath), digest, text, st.1, w1.
Qed.

Lemma judged_nil (entries : list json) (log : calls) :
  Forall2 (fun entry c => judge container_repr entry c.2 = None) entries log ->
  judged container_repr entries log = [].
Proof.
  induction 1 as [|entry c entries log Hc _ IH]; [done|].
  by rewrite judged_cons, Hc.
Qed.

Lemma generate_spec_lock_files (now : str) (manifest : pydict json)
    (generated_at : option str) (name version : str)
    (st st' : W * calls) (lock : pydict json) :
  generate_spec_lock container_repr now manifest content_loader
    generated_at name version st = (Ok lock, st') ->
  exists entries,
    dict_get (of_string "canonical_files") (JArr []) lock = JArr entries
    /\ Forall (locked_entry content_loader) entries.
Proof.
  unfold generate_spec_lock.
  unfold bind at 1, lift at 1.
  destruct (dict_item "canonical_files" manifest) as [files|]; [|done].
  unfold bind at 1, lift at 1.
  destruct (py_iter files) as [relpaths|]; [|done].
  unfold bind at 1.
  destruct (generate_entries _ _ relpaths [] st) as [[entries|] st1] eqn:Hgen;
    [|done].
  unfold bind at 1, lift at 1.
  destruct (dict_item "epic" manifest) as [epic|]; [|done].
  unfold bind at 1, lift at 1.
  destruct (dict_item "infra_repo" manifest) as [infra_repo|]; [|done].
  unfold bind at 1, lift at 1.
  destruct (dict_item "infra_sha" manifest) as [infra_sha|]; [|done].
  unfold ret. intros [= <- _].
  exists entries. split; [reflexivity|].
  by eapply generate_entries_locked.
Qed.

Lemma locked_entry_mapping (entry : json) :
  locked_entry content_loader entry -> is_mapping entry.
Proof. intros (relpath & digest & ? & ? & ? & -> & _). by eexists. Qed.

Section FixedText.
(** The loader returns the same text for a path on each call. *)
Variable text_of : str -> str.
Hypothesis fixed : forall relpath w0,
  (content_loader relpath w0).1 = Ok (text_of relpath).

Lemma fixed_call (relpath : str) (r : result str) (w0 w1 : W) :
  content_loader relpath w0 = (r, w1) -> r = Ok (text_of relpath).
Proof. intros Hcall. by rewrite <- (fixed relpath w0), Hcall. Qed.

Lemma fixed_raises (relpath : str) : raises_exceptions (content_loader relpath).
Proof. intros w0 e w1 Hcall. by apply fixed_call in Hcall. Qed.

Lemma locked_entry_passes (entry : json) (c : str * result str) :
  locked_entry content_loader entry ->
  genuine_call container_repr content_loader entry c ->
  judge container_repr entry c.2 = None.
Proof.
  intros (relpath & digest & text & w0 & w1 & -> & Hgen & Hsha)
         (fields & [= <-] & Hpath & w2 & w3 & Hcall).
  apply fixed_call in Hgen as [= ->]. apply fixed_call in Hcall.
  change (entry_path container_repr _) with relpath in Hpath.
  rewrite Hcall, Hpath. cbn [judge res_bind]. rewrite Hsha.
  by rewrite bool_decide_eq_true_2.
Qed.

Lemma verify_locked (lock : pydict json) (entries : list json) (w : W) :
  dict_get (of_string "canonical_files") (JArr []) lock = JArr entries ->
  Forall (locked_entry content_loader) entries ->
  exists st,
    verify_spec_lock container_repr lock content_loader (w, [])
      = (Ok {| ok := true; mismatches := [] |}, st).
Proof.
  intros Hfiles Hlocked.
  destruct (verify_entries_spec entries fixed_raises
              (Forall_impl _ _ _ Hlocked locked_entry_mapping) [] w [])
    as (w' & log & Hrun & Hlog).
  assert (Hnil : judged container_repr entries log = []).
  { apply judged_nil. clear Hrun Hfiles. revert Hlocked.
    induction Hlog as [|entry c entries' log' Hc Hlog IH];
      intros Hlocked; [constructor|].
    apply Forall_cons in Hlocked as [He Hlocked].
    constructor; [by apply locked_entry_passes | by apply IH]. }
  exists (w', log). unfold verify_spec_lock. rewrite Hfiles.
  unfold bind at 1, lift at 1. cbn [py_iter].
  unfold bind at 1. rewrite Hrun, Hnil. reflexivity.
Qed.
End FixedText.

Section FixedTextGenerate.
Variable text_of : str -> str.
Hypothesis fixed : forall relpath w0,
  (content_loader relpath w0).1 = Ok (text_of relpath).
Hypothesis encodable : forall relpath,
  Forall (fun c => Utf8.is_surrogate c = false) (text_of relpath).

Lemma generate_entries_total (relpaths : list json) :
  forall (acc : list json) (st : W * calls),
  exists entries st',
    generate_entries container_repr content_loader relpaths acc st
      = (Ok entries, st').
Proof.
  induction relpaths as [|relpath rest IH]; intros acc st.
  - by exists acc, st.
  - cbn [generate_entries]. unfold bind at 1, call at 1.
    pose proof (fixed (py_str container_repr relpath) st.1) as Hcall.
    destruct (content_loader (py_str container_repr relpath) st.1)
      as [r w1]. cbn [fst] in Hcall. subst r.
    unfold bind at 1, lift at 1.
    destruct (sha256_normalized_text_ok _
                (encodable (py_str container_repr relpath))) as [d ->].
    apply IH.
Qed.

Lemma generate_spec_lock_total (now : str) (manifest : pydict json)
    (generated_at : option str) (name version : str) (st : W * calls) :
  load_manifest manifest = Ok manifest ->
  exists lock st',
    generate_spec_lock container_repr now manifest content_loader
      generated_at name version st = (Ok lock, st').
Proof.
  intros (_ & Hkeys & (items & Hfiles & _) & _)%load_manifest_Ok_inv.
  unfold required in Hkeys.
  repeat (apply Forall_cons in Hkeys as [?%dict_has_item Hkeys]).
  unfold generate_spec_lock.
  unfold bind at 1, lift at 1.
  unfold dict_item at 1. rewrite Hfiles.
  unfold bind at 1, lift at 1. cbn [py_iter].
  unfold bind at 1.
  destruct (generate_entries_total items [] st) as (entries & st1 & ->).
  repeat match goal with
         | H : exists v, dict_item ?k manifest = Ok v |- _ =>
             destruct H as [? H]
         end.
  repeat (unfold bind at 1, lift at 1;
          match goal with
          | H : dict_item ?k manifest = Ok _
            |- context [dict_item ?k manifest] => rewrite H
          end).
  by eexists _, _.
Qed.
End FixedTextGenerate.

(** C1: for a manifest that passes validation and a loader that returns
    a fixed text per path, every lock record that generation returns
    verifies, against the same loader in any world, with ok = true and no
    mismatch; and generation does return a lock record when the texts hold
    no surrogate code point (the only texts UTF-8 cannot encode). *)
Theorem generate_then_verify_ok (now : str) (manifest : pydict json)
    (text_of : str -> str) (generated_at : option str)
    (name version : str) (w : W) :
  load_manifest manifest = Ok manifest ->
  (forall relpath w0, (content_loader relpath w0).1 = Ok (text_of relpath)) ->
  ((forall relpath,
      Forall (fun c => Utf8.is_surrogate c = false) (text_of relpath)) ->
   exists lock st,
     generate_spec_lock container_repr now manifest content_loader
       generated_at name version (w, []) = (Ok lock, st))
  /\ (forall lock st,
        generate_spec_lock container_repr now manifest content_loader
          generated_at name version (w, []) = (Ok lock, st) ->
        forall w2, exists st2,
          verify_spec_lock container_repr lock content_loader (w2, [])
            = (Ok {| ok := true; mismatches := [] |}, st2)).
Proof.
  intros Hvalid Hfixed. split.
  - intros Henc. by eapply generate_spec_lock_total.
  - intros lock st (entries & Hfiles & Hlocked)%generate_spec_lock_files w2.
    by eapply verify_locked.
Qed.
End VerifyFacts.

(** ** Whitespace *)

Lemma lstrip_blank (s : str) :
  forallb is_space (lstrip s) = forallb is_space s.
Proof.
  induction s as [|c s IH]; [done|]. cbn [lstrip].
  destruct (is_space c) eqn:Hc; cbn [forallb]; by rewrite ?Hc.
Qed.

Lemma rstrip_nil (s : str) :
  rstrip s = [] <-> forallb is_space s = true.
Proof.
  induction s as [|c s IH]; [done|]. cbn [rstrip forallb].
  destruct (rstrip s) as [|d r].
  - rewrite (proj1 IH eq_refl), andb_true_r. by destruct (is_space c).
  - destruct (forallb is_space s); [by pose proof (proj2 IH eq_refl)|].
    by rewrite andb_false_r.
Qed.

Lemma strip_nil (s : str) :
  strip s = [] <-> forallb is_space s = true.
Proof. unfold strip. by rewrite rstrip_nil, lstrip_blank. Qed.

Lemma truthy_strip (s : str) :
  truthy (strip s) = true <-> exists c, In c s /\ is_space c = false.
Proof.
  transitivity (forallb is_space s = false).
  - pose proof (strip_nil s) as Hnil.
    destruct (strip s); destruct (forallb is_space s); cbn; intuition congruence.
  - induction s as [|c s IH]; cbn [forallb In].
    + split; [done|]. by intros (? & [] & _).
    + destruct (is_space c) eqn:Hc; cbn [andb].
      * rewrite IH. split.
        -- intros (d & Hd & Hsp). eauto.
        -- intros (d & [<-|Hd] & Hsp); [congruence|eauto].
      * split; [eauto|done].
Qed.

(** ** Manifest validation, continued *)

Lemma is_nonblank_str_spec (item : json) :
  is_nonblank_str item = true <->
  exists s c, item = JStr s /\ In c s /\ is_space c = false.
Proof.
  destruct item; cbn [is_nonblank_str];
    try (split; [done|by intros (? & ? & ? & _)]).
  rewrite truthy_strip. split.
  - intros (c & ? & ?). by exists s, c.
  - intros (? & c & [= <-] & ? & ?). by exists c.
Qed.

Lemma starts_with_app {A} `{EqDecision A} (p r : list A) :
  starts_with p (p ++ r) = true.
Proof.
  induction p as [|a p IH]; [done|]. cbn. by rewrite bool_decide_eq_true_2.
Qed.

Lemma contains_app_r {A} `{EqDecision A} (n a s : list A) :
  contains n s = true -> contains n (a ++ s) = true.
Proof.
  intros Hs. induction a as [|c a IH]; [done|].
  cbn [app contains]. rewrite IH. apply orb_true_r.
Qed.

Lemma contains_middle {A} `{EqDecision A} (n a b : list A) :
  contains n (a ++ n ++ b) = true.
Proof.
  apply contains_app_r. destruct (n ++ b) eqn:Hnb; cbn [contains];
    rewrite <- Hnb, starts_with_app; done.
Qed.

Lemma join_names {A} `{EqDecision A} (sep x : list A) (items : list (list A)) :
  In x items -> exists a b, join sep items = a ++ x ++ b.
Proof.
  induction items as [|y items IH]; [done|].
  intros [->|Hx].
  - destruct items as [|z items].
    + exists [], []. cbn. by rewrite app_nil_r.
    + exists [], (sep ++ join sep (z :: items)). reflexivity.
  - destruct (IH Hx) as (a & b & Hjoin).
    destruct items as [|z items]; [done|].
    exists (y ++ sep ++ a), b. cbn [join] in *. rewrite Hjoin.
    by rewrite <- !(assoc_L (++)).
Qed.

(** C6: [missing] is exactly the required keys absent from the mapping;
    when it is not empty validation fails with one error whose message
    lists all of them; a present canonical_files that is no non-empty list
    of strings with non-whitespace content fails validation; a present
    pr_map that is no mapping fails validation. *)
Theorem load_manifest_rejects (data : pydict json) :
  let missing :=
    List.filter (fun key => negb (dict_has (of_string key) data)) required in
  (forall key,
     In key missing <->
     In key required /\ dict_lookup (of_string key) data = None)
  /\ (missing <> [] ->
      exists msg,
        load_manifest data = Raise (ValueError msg)
        /\ msg = of_string "Manifest missing required keys: "
                   ++ join (of_string ", ") (of_string <$> missing)
        /\ forall key, In key missing -> contains (of_string key) msg = true)
  /\ (forall v,
        dict_lookup (of_string "canonical_files") data = Some v ->
        ~ nonblank_str_list v ->
        exists msg, load_manifest data = Raise (ValueError msg))
  /\ (forall v,
        dict_lookup (of_string "pr_map") data = Some v ->
        ~ is_mapping v ->
        exists msg, load_manifest data = Raise (ValueError msg)).
Proof.
  intros missing.
  assert (Hfail : forall P : Prop,
            (forall m, load_manifest data = Ok m -> P) -> ~ P ->
            exists msg, load_manifest data = Raise (ValueError msg)).
  { intros P Hok HnP. unfold load_manifest in *.
    repeat match goal with
           | |- context [match ?x with _ => _ end] => destruct x eqn:?
           | |- context [if ?x then _ else _] => destruct x eqn:?
           end; try (by eexists); by destruct HnP; eapply Hok. }
  split; [|split; [|split]].
  - intros key. subst missing. rewrite filter_In, negb_true_iff.
    unfold dict_has. rewrite bool_decide_eq_false, <- eq_None_not_Some.
    reflexivity.
  - intros Hmissing. eexists. split; [|split; [reflexivity|]].
    + unfold load_manifest. fold missing. by destruct missing.
    + intros key Hkey.
      destruct (join_names (of_string ", ") (of_string key)
                  (of_string <$> missing)) as (a & b & ->).
      { apply list_elem_of_In, list_elem_of_fmap. exists key.
        split; [done|]. by apply list_elem_of_In. }
      rewrite (assoc_L (++)). apply contains_middle.
  - intros v Hv. apply Hfail.
    intros m (_ & _ & (items & Hitems & Hne & Hall) & _)%load_manifest_Ok_inv.
    rewrite Hv in Hitems. injection Hitems as ->.
    exists items. split; [done|]. split; [done|].
    apply Forall_forall. intros item Hitem. apply is_nonblank_str_spec.
    rewrite forallb_forall in Hall. by apply Hall, list_elem_of_In.
  - intros v Hv. apply Hfail.
    intros m (_ & _ & _ & fields & Hmap)%load_manifest_Ok_inv.
    rewrite Hv in Hmap. injection Hmap as ->. by exists fields.
Qed.

(** ** Canonical content retrieval *)

Section RetrievalFacts.
Context {W : Type} (src : Sources W).

(** C7: with a non-empty local root, retrieval never touches a network
    strategy; it fails when the file is absent under the root; and when
    the root is a directory and the file exists, the outcome is that of
    reading the file, with no fallback. *)
Theorem load_canonical_text_local_only
    (infra_repo infra_sha relpath root : str) (w : W) :
  root <> [] ->
  let path := joinpath src root relpath in
  exists (r : result str) (w' : W) (log : list access),
    load_canonical_text src infra_repo infra_sha relpath (Some root) (w, [])
      = (r, (w', log))
    /\ Forall (fun a => is_network a = false) log
    /\ (path_exists src path w = false -> exists e, r = Raise e)
    /\ (path_exists src root w = true ->
        path_is_dir src root w = true ->
        path_exists src path w = true ->
        (r, w') = path_read_text src path w
        /\ log = [PathExists root; PathIsDir root;
                  PathExists path; PathReadText path]).
Proof.
  intros Hroot path.
  destruct root as [|c root']; [done|].
  set (root := c :: root') in *.
  cbv [load_canonical_text read_local_canonical_text exists_ is_dir logged
       bind ret raise default from_option id truthy root fst snd].
  fold root. fold path. cbn [app].
  destruct (path_exists src root w) eqn:Hex;
    [destruct (path_is_dir src root w) eqn:Hdir|]; cbn [negb];
    [destruct (path_exists src path w) eqn:Hfile|..]; cbn [negb app].
  - destruct (path_read_text src path w) as [r w'] eqn:Hread.
    exists r, w', [PathExists root; PathIsDir root;
                   PathExists path; PathReadText path].
    repeat split; try done. by repeat constructor.
  - eexists _, _, _.
    repeat split; try done; [by repeat constructor | by eexists].
  - eexists _, _, _.
    repeat split; try done; [by repeat constructor | by eexists].
  - eexists _, _, _.
    repeat split; try done; [by repeat constructor | by eexists].
Qed.

End RetrievalFacts.

(** ** Generated blocks: the empty document *)

Lemma begin_sentinel_head (tag : str) :
  exists r, begin_sentinel tag = 60 :: r.
Proof. by eexists. Qed.

Lemma search_blank (tag end_ doc : str) :
  forallb is_space doc = true ->
  Pattern.search (begin_sentinel tag) end_ doc = None.
Proof.
  destruct (begin_sentinel_head tag) as [r ->].
  induction doc as [|c doc IH]; [done|].
  cbn [forallb]. intros [Hc Hdoc]%andb_true_iff.
  cbn [Pattern.search]. unfold Pattern.match_here. cbn [starts_with].
  rewrite bool_decide_eq_false_2; [|by intros <-].
  cbn [andb]. by rewrite IH.
Qed.

(** C9, amended: on an empty or whitespace-only document the result is
    the rendered block followed by one line feed. *)
Theorem upsert_blank_document (document_text tag rendered_block : str) :
  forallb is_space document_text = true ->
  upsert_generated_block document_text tag rendered_block
    = inr (rendered_block ++ [LF]).
Proof.
  intros Hblank. unfold upsert_generated_block.
  rewrite search_blank by done.
  rewrite bool_decide_eq_false_2 by (by intros [? ?]).
  by rewrite (proj2 (strip_nil document_text) Hblank).
Qed.

Lemma upsert_blank_document_witness :
  forallb is_space (of_string "  ") = true
  /\ upsert_generated_block (of_string "  ") (of_string "t") (of_string "X")
     = inr (of_string "X" ++ [LF]).
Proof.
  split; [reflexivity|].
  apply (upsert_blank_document (of_string "  ") (of_string "t") (of_string "X")).
  reflexivity.
Defined.

(** C9, as stated, fails: on the empty document the result is the block
    and a line feed, not the block alone. *)
Lemma upsert_blank_document_not_block_alone :
  forallb is_space [] = true
  /\ upsert_generated_block [] (of_string "t") (of_string "X")
     = inr (of_string "X" ++ [LF])
  /\ upsert_generated_block [] (of_string "t") (of_string "X")
     <> inr (of_string "X").
Proof. split; [done|]. split; [reflexivity|]. vm_compute. discriminate. Qed.

(** ** Literal search *)

Section SearchFacts.
Context {A : Type} `{EqDecision A}.
Implicit Types p n s t : list A.

Lemma starts_with_spec p s :
  starts_with p s = true <-> exists r, s = p ++ r.
Proof.
  revert s. induction p as [|a p IH]; intros s.
  - split; [by exists s|done].
  - destruct s as [|b s]; cbn [starts_with].
    + split; [done|by intros [? ?]].
    + rewrite andb_true_iff, bool_decide_eq_true, IH. split.
      * intros [-> [r ->]]. by exists r.
      * intros [r [= -> ->]]. split; [done|by exists r].
Qed.

(** Whether [p] matches at the head only depends on the first
    [length p] characters. *)
Lemma starts_with_app_long p s x :
  (length p <= length s)%nat -> starts_with p (s ++ x) = starts_with p s.
Proof.
  revert s. induction p as [|a p IH]; intros s Hlen; [done|].
  destruct s as [|b s]; cbn in *; [lia|].
  rewrite IH by lia. done.
Qed.

Lemma starts_with_nil_r p : p <> [] -> starts_with p [] = false.
Proof. by destruct p. Qed.

(** [find] returns the first position where the needle matches. *)
Lemma find_Some n s k :
  find n s = Some k <->
  (k <= length s)%nat
  /\ starts_with n (drop k s) = true
  /\ forall k', (k' < k)%nat -> starts_with n (drop k' s) = false.
Proof.
  revert k. induction s as [|c s IH]; intros k; cbn [find].
  - destruct (starts_with n []) eqn:Hn.
    + split.
      * intros [= <-]. split_and!; [done|done|intros; lia].
      * intros (Hk & _ & _). cbn in Hk. f_equal. lia.
    + split; [done|]. intros (Hk & Hm & _). rewrite drop_nil in Hm. congruence.
  - destruct (starts_with n (c :: s)) eqn:Hn.
    + split.
      * intros [= <-]. split_and!; [cbn; lia | done | intros; lia].
      * intros (_ & _ & Hfirst). destruct k as [|k]; [done|].
        specialize (Hfirst 0%nat ltac:(lia)). cbn in Hfirst. congruence.
    + rewrite fmap_Some. split.
      * intros (k0 & (Hk & Hm & Hfirst)%IH & ->).
        split_and!; [cbn; lia | done |].
        intros [|k'] Hlt; [done|]. apply Hfirst. lia.
      * intros (Hk & Hm & Hfirst). destruct k as [|k]; [cbn in Hm; congruence|].
        exists k. split; [|done]. apply IH.
        split_and!; [cbn in Hk; lia | done |].
        intros k' Hlt. apply (Hfirst (S k')). lia.
Qed.

Lemma find_None n s k :
  find n s = None -> starts_with n (drop k s) = false.
Proof.
  revert k. induction s as [|c s IH]; intros k; cbn [find].
  - rewrite drop_nil. by destruct (starts_with n []).
  - destruct (starts_with n (c :: s)) eqn:Hn; [done|].
    rewrite fmap_None. intros Hs. destruct k as [|k]; [done|]. by apply IH.
Qed.

(** A first occurrence stays the first one when text is appended. *)
Lemma find_app n s t k :
  find n s = Some k -> find n (s ++ t) = Some k.
Proof.
  rewrite !find_Some. intros (Hk & Hm & Hfirst).
  apply starts_with_spec in Hm as [r Hr].
  assert (Hlen : (k + length n <= length s)%nat).
  { apply (f_equal length) in Hr. rewrite length_drop, length_app in Hr. lia. }
  split_and!.
  - rewrite length_app. lia.
  - rewrite drop_app_le by done. apply starts_with_spec.
    exists (r ++ t). by rewrite Hr, <- (assoc_L (++)).
  - intros k' Hlt. rewrite drop_app_le by lia.
    rewrite starts_with_app_long; [by apply Hfirst|].
    rewrite length_drop. lia.
Qed.

Lemma find_here n r : find n (n ++ r) = Some 0%nat.
Proof.
  destruct (n ++ r) eqn:Hnr; cbn [find]; rewrite <- Hnr, starts_with_app; done.
Qed.

Lemma find_self n : find n n = Some 0%nat.
Proof. rewrite <- (app_nil_r n) at 2. apply find_here. Qed.

Lemma contains_spec n s :
  contains n s = true <-> exists a b, s = a ++ n ++ b.
Proof.
  split.
  - induction s as [|c s IH]; cbn [contains].
    + rewrite orb_false_r. intros [r ->]%starts_with_spec. by exists [], r.
    + intros [[r ->]%starts_with_spec | (a & b & ->)%IH]%orb_true_iff.
      * by exists [], r.
      * by exists (c :: a), b.
  - intros (a & b & ->). apply contains_middle.
Qed.

End SearchFacts.

(** ** The pattern and its first match *)

Lemma find_take {A} `{EqDecision A} (n s : list A) (k : nat) :
  find n s = Some k ->
  exists post, s = take k s ++ n ++ post
               /\ length (take k s) = k
               /\ find n (take k s ++ n) = Some k.
Proof.
  intros Hfind. pose proof Hfind as (Hk & [post Hpost]%starts_with_spec & Hfirst)%find_Some.
  assert (Hs : s = take k s ++ n ++ post) by (by rewrite <- Hpost, take_drop).
  assert (Hlen : length (take k s) = k) by (rewrite length_take; lia).
  exists post. split_and!; [done..|].
  apply find_Some. split_and!.
  - rewrite length_app. lia.
  - rewrite drop_app_length'; [|done]. apply starts_with_spec.
    exists []. by rewrite app_nil_r.
  - intros k' Hlt. rewrite <- (Hfirst k' Hlt). rewrite Hs at 2.
    rewrite (assoc_L (++)), (drop_app_le (take k s ++ n)) by (rewrite length_app; lia).
    rewrite starts_with_app_long; [done|].
    rewrite length_drop, length_app. lia.
Qed.

Section PatternFacts.
Variables begin end_ : str.

Lemma search_first_region (pre mid post : str) :
  find begin (pre ++ begin) = Some (length pre) ->
  find end_ (mid ++ end_) = Some (length mid) ->
  Pattern.search begin end_ (pre ++ begin ++ mid ++ end_ ++ post)
  = Some (length pre,
          (length pre + length begin + length mid + length end_)%nat).
Proof.
  intros Hbegin Hend. induction pre as [|c pre IH].
  - cbn [app length Nat.add].
    assert (Hhere : Pattern.match_here begin end_ (begin ++ mid ++ end_ ++ post)
                    = Some (length begin + length mid + length end_)%nat).
    { unfold Pattern.match_here. rewrite starts_with_app.
      rewrite drop_app_length, (assoc_L (++)), (find_app _ _ _ _ Hend). done. }
    destruct (begin ++ mid ++ end_ ++ post); cbn [Pattern.search];
      by rewrite Hhere.
  - cbn [app] in *. cbn [find] in Hbegin.
    destruct (starts_with begin (c :: pre ++ begin)) eqn:Hhead; [done|].
    apply fmap_Some in Hbegin as (k & Hk & [= <-]).
    cbn [Pattern.search]. unfold Pattern.match_here at 1.
    change (c :: pre ++ begin ++ mid ++ end_ ++ post)
      with ((c :: pre) ++ begin ++ mid ++ end_ ++ post).
    rewrite (assoc_L (++) (c :: pre) begin).
    rewrite starts_with_app_long by (rewrite length_app; lia).
    cbn [app]. rewrite Hhead, (IH Hk). reflexivity.
Qed.

Lemma search_Some_region (s : str) (i j : nat) :
  Pattern.search begin end_ s = Some (i, j) ->
  exists pre mid post,
    s = pre ++ begin ++ mid ++ end_ ++ post
    /\ i = length pre
    /\ j = (length pre + length begin + length mid + length end_)%nat
    /\ find begin (pre ++ begin) = Some (length pre)
    /\ find end_ (mid ++ end_) = Some (length mid).
Proof.
  revert i j. induction s as [|c s IH]; intros i j.
  all: cbn [Pattern.search];
    destruct (Pattern.match_here begin end_ _) as [n|] eqn:Hhere.
  1,3: intros [= <- <-]; unfold Pattern.match_here in Hhere;
    destruct (starts_with begin _) eqn:Hb; [|done];
    apply starts_with_spec in Hb as [r Hr]; rewrite Hr, drop_app_length in Hhere;
    apply fmap_Some in Hhere as (k & Hk & ->);
    destruct (find_take _ _ _ Hk) as (post & Hpost & Hlen & Hmid);
    exists [], (take k r), post; rewrite Hlen; cbn [app length Nat.add];
    split_and!; [by rewrite Hr, Hpost at 1 | done | done | apply find_self | done].
  - done.
  - intros ([i' j'] & (pre & mid & post & -> & -> & -> & Hb & He)%IH & Hij)%fmap_Some.
    cbn [fst snd] in Hij. injection Hij as -> ->.
    exists (c :: pre), mid, post. cbn [app length Nat.add].
    split_and!; [done..| |done].
    cbn [find]. rewrite Hb. cbn.
    destruct (starts_with begin (c :: pre ++ begin)) eqn:Hhead; [|done].
    exfalso. unfold Pattern.match_here in Hhere.
    change (c :: pre ++ begin ++ mid ++ end_ ++ post)
      with ((c :: pre) ++ begin ++ mid ++ end_ ++ post) in Hhere.
    rewrite (assoc_L (++) (c :: pre) begin) in Hhere.
    rewrite starts_with_app_long in Hhere by (rewrite length_app; lia).
    cbn [app] in Hhere. rewrite Hhead in Hhere.
    apply fmap_None in Hhere.
    apply (find_None _ _ (S (length pre) + length mid)) in Hhere.
    rewrite drop_drop in Hhere.
    replace (c :: (pre ++ begin) ++ mid ++ end_ ++ post)
      with ((c :: pre ++ begin ++ mid) ++ end_ ++ post) in Hhere
      by (cbn; by rewrite <- !(assoc_L (++))).
    rewrite drop_app_length' in Hhere
      by (cbn; rewrite !length_app; lia).
    by rewrite starts_with_app in Hhere.
Qed.

End PatternFacts.

(** A template without a backslash stands for itself. *)
Lemma expand_literal (matched template : str) :
  BACKSLASH ∉ template ->
  forall fuel, (length template < fuel)%nat ->
  Pattern.expand fuel matched template = inr template.
Proof.
  induction template as [|c t IH]; intros Hno fuel Hfuel.
  - destruct fuel; [lia|done].
  - destruct fuel as [|fuel]; [lia|]. cbn [Pattern.expand].
    apply not_elem_of_cons in Hno as [Hc Ht].
    rewrite (proj2 (N.eqb_neq c BACKSLASH)) by done. cbn [negb].
    rewrite IH; [done|done|cbn in Hfuel; lia].
Qed.

Lemma sub1_region (begin end_ repl pre mid post : str) :
  find begin (pre ++ begin) = Some (length pre) ->
  find end_ (mid ++ end_) = Some (length mid) ->
  BACKSLASH ∉ repl ->
  Pattern.sub1 begin end_ repl (pre ++ begin ++ mid ++ end_ ++ post)
  = inr (pre ++ repl ++ post).
Proof.
  intros Hb He Hrepl. unfold Pattern.sub1.
  rewrite (search_first_region _ _ _ _ _ Hb He).
  unfold Pattern.expand_template. rewrite expand_literal by (done || lia).
  rewrite take_app_length.
  replace (pre ++ begin ++ mid ++ end_ ++ post)
    with ((pre ++ begin ++ mid ++ end_) ++ post)
    by (by rewrite <- !(assoc_L (++))).
  rewrite drop_app_length'; [done|]. rewrite !length_app. lia.
Qed.

(** With a block free of backslashes, the first delimited region is
    replaced by the block and the text around it is kept. *)
Lemma upsert_region (tag rendered_block pre mid post : str) :
  find (begin_sentinel tag) (pre ++ begin_sentinel tag) = Some (length pre) ->
  find (end_sentinel tag) (mid ++ end_sentinel tag) = Some (length mid) ->
  BACKSLASH ∉ rendered_block ->
  upsert_generated_block
    (pre ++ begin_sentinel tag ++ mid ++ end_sentinel tag ++ post)
    tag rendered_block
  = inr (pre ++ rendered_block ++ post).
Proof.
  intros Hb He Hblock. unfold upsert_generated_block.
  rewrite (search_first_region _ _ _ _ _ Hb He).
  rewrite bool_decide_eq_true_2 by by eexists.
  by apply sub1_region.
Qed.

(** ** Idempotence of the upsert *)

Lemma app_last_elem {A} (a b s : list A) (x : A) :
  b <> [] -> a ++ b = s ++ [x] -> x ∈ b.
Proof.
  intros Hb. destruct b as [|y b _] using rev_ind; [done|].
  rewrite (assoc_L (++)). intros [_ ->]%app_inj_tail. set_solver.
Qed.

(** A literal that avoids the character [x] and does not occur in [s]
    first occurs, in [s ++ [x; x] ++ n], at the very end. *)
Lemma find_after_separator {A} `{EqDecision A} (n s : list A) (x : A) :
  x ∉ n -> n <> [] -> contains n s = false ->
  find n ((s ++ [x; x]) ++ n) = Some (length (s ++ [x; x])).
Proof.
  intros Hx Hn Hs. apply find_Some. split_and!.
  - rewrite (length_app (s ++ [x; x])). lia.
  - rewrite drop_app_length. apply starts_with_spec. exists []. by rewrite app_nil_r.
  - intros k Hk.
    destruct (starts_with n (drop k ((s ++ [x; x]) ++ n))) eqn:Hm; [|done].
    exfalso. apply starts_with_spec in Hm as [r Hr].
    rewrite drop_app_le in Hr by lia.
    assert (Hu : drop k (s ++ [x; x]) = drop k (s ++ [x]) ++ [x]).
    { change [x; x] with ([x] ++ [x]). rewrite (assoc_L (++)).
      apply drop_app_le. rewrite !length_app in *. cbn in *. lia. }
    rewrite Hu in Hr.
    apply app_eq_inv in Hr as [(m & Hm & _)|(m & Hm & _)].
    + (* the occurrence lies inside [s ++ [x; x]] *)
      assert (Hocc : s ++ [x; x] = (take k (s ++ [x; x]) ++ n) ++ m).
      { rewrite <- (assoc_L (++)), <- Hm, <- Hu. by rewrite take_drop. }
      apply app_eq_inv in Hocc as [(m' & Hs' & _)|(m' & Hs' & Hxx)].
      * rewrite <- not_true_iff_false in Hs. apply Hs, contains_spec.
        eexists _, m'. rewrite <- (assoc_L (++)) in Hs'. exact Hs'.
      * destruct m' as [|y m'].
        -- rewrite <- not_true_iff_false in Hs. apply Hs, contains_spec.
           eexists _, []. rewrite !app_nil_r in *. symmetry. exact Hs'.
        -- apply Hx. destruct m' as [|z [|? ?]]; simplify_eq/=.
           ++ by apply (app_last_elem _ _ _ _ Hn Hs').
           ++ change [z; z] with ([z] ++ [z]) in Hs'.
              rewrite (assoc_L (++)) in Hs'.
              by apply (app_last_elem _ _ _ _ Hn Hs').
    + (* the occurrence runs over the separator *)
      apply Hx. rewrite Hm. set_solver.
Qed.

Lemma rstrip_prefix (s : str) : exists ws, s = rstrip s ++ ws.
Proof.
  induction s as [|c s [ws IH]]; [by exists []|]. cbn [rstrip].
  destruct (rstrip s) as [|d r].
  - destruct (is_space c); [by exists (c :: s)|].
    exists ws. cbn in *. by rewrite <- IH.
  - exists ws. cbn in *. by rewrite <- IH.
Qed.

Lemma begin_sentinel_no_lf (tag : str) : LF ∉ tag -> LF ∉ begin_sentinel tag.
Proof.
  intros Htag. unfold begin_sentinel. rewrite !elem_of_app.
  intros [Hin|[Hin|Hin]]; [|done|];
    apply list_elem_of_In in Hin; vm_compute in Hin; intuition discriminate.
Qed.

Lemma begin_sentinel_nonempty (tag : str) : begin_sentinel tag <> [].
Proof. by destruct (begin_sentinel_head tag) as [r ->]. Qed.

Lemma search_None_absent (begin end_ s : str) :
  contains begin s = false -> Pattern.search begin end_ s = None.
Proof.
  intros Hs. destruct (Pattern.search begin end_ s) as [[i j]|] eqn:Hsearch; [|done].
  apply search_Some_region in Hsearch as (pre & mid & post & -> & _).
  by rewrite contains_middle in Hs.
Qed.

Section Idempotence.
Variables tag body : str.
Local Abbreviation begin := (begin_sentinel tag).
Local Abbreviation end_ := (end_sentinel tag).
Local Abbreviation block := (begin_sentinel tag ++ body ++ end_sentinel tag).

(** The block is one delimited region: its closing sentinel is the first
    END sentinel after its opening one. *)
Hypothesis closed : find end_ (body ++ end_) = Some (length body).
Hypothesis plain : BACKSLASH ∉ block.

Lemma upsert_fixed_point (pre post : str) :
  find begin (pre ++ begin) = Some (length pre) ->
  upsert_generated_block (pre ++ block ++ post) tag block
  = inr (pre ++ block ++ post).
Proof.
  intros Hpre.
  rewrite <- (upsert_region tag block pre body post) by done.
  by rewrite <- !(assoc_L (++)).
Qed.

Lemma upsert_idempotent_region (document_text : str) :
  is_Some (Pattern.search begin end_ document_text) ->
  exists once,
    upsert_generated_block document_text tag block = inr once
    /\ upsert_generated_block once tag block = inr once.
Proof.
  intros [[i j] (pre & mid & post & -> & _ & _ & Hb & He)%search_Some_region].
  exists (pre ++ block ++ post). split.
  - by apply upsert_region.
  - by apply upsert_fixed_point.
Qed.

Lemma upsert_idempotent_absent (document_text : str) :
  contains begin document_text = false -> LF ∉ tag ->
  exists once,
    upsert_generated_block document_text tag block = inr once
    /\ upsert_generated_block once tag block = inr once.
Proof.
  intros Habsent Htag. unfold upsert_generated_block at 1.
  rewrite (search_None_absent _ _ _ Habsent).
  rewrite bool_decide_eq_false_2 by (by intros [? ?]).
  destruct (truthy (strip document_text)); eexists; (split; [reflexivity|]).
  - rewrite (assoc_L (++) (rstrip document_text)).
    apply upsert_fixed_point.
    apply find_after_separator;
      [by apply begin_sentinel_no_lf | apply begin_sentinel_nonempty |].
    destruct (contains begin (rstrip document_text)) eqn:Hr; [|done].
    apply contains_spec in Hr as (a & b & Hr).
    destruct (rstrip_prefix document_text) as [ws Hws].
    rewrite <- Habsent. symmetry. apply contains_spec.
    exists a, (b ++ ws). rewrite Hws, Hr. by rewrite <- !(assoc_L (++)).
  - apply (upsert_fixed_point [] [LF]). apply find_self.
Qed.

(** C4, amended: when the block is one delimited region of the tag (the
    BEGIN sentinel, a body, the END sentinel, with no earlier END sentinel)
    and holds no backslash, and the document either has a delimited region
    or has no BEGIN sentinel of the tag (the tag then holding no line
    feed), a second upsert returns the result of the first. *)
Theorem upsert_twice_idempotent (document_text : str) :
  is_Some (Pattern.search begin end_ document_text)
  \/ (contains begin document_text = false /\ LF ∉ tag) ->
  exists once,
    upsert_generated_block document_text tag block = inr once
    /\ upsert_generated_block once tag block = inr once
    /\ upsert_twice document_text tag block
       = upsert_generated_block document_text tag block.
Proof.
  intros Hdoc.
  assert (exists once,
             upsert_generated_block document_text tag block = inr once
             /\ upsert_generated_block once tag block = inr once)
    as (once & H1 & H2).
  { destruct Hdoc as [Hregion|[Habsent Htag]];
      [by apply upsert_idempotent_region | by apply upsert_idempotent_absent]. }
  exists once. split_and!; [done..|].
  unfold upsert_twice. by rewrite H1, H2.
Qed.

End Idempotence.

(** ** The model on concrete inputs *)

Example sha256_abc :
  sha256_normalized_text (of_string "abc")
  = Ok (of_string "ba7816bf8f01cfea414140de5dae2223b00361a396177a9cb410ff61f20015ad").
Proof. vm_compute. reflexivity. Qed.

Example sha256_empty :
  sha256_normalized_text []
  = Ok (of_string "e3b0c44298fc1c149afbf4c8996fb92427ae41e4649b934ca495991b7852b855").
Proof. vm_compute. reflexivity. Qed.

Example sha256_two_blocks :
  sha256_normalized_text
    (of_string "abcdbcdecdefdefgefghfghighijhijkijkljklmklmnlmnomnopnopq")
  = Ok (of_string "248d6a61d20638b8e5c026930c3e6039a33ce45964ff2167f6ecedd419db06c1").
Proof. vm_compute. reflexivity. Qed.

Example sha256_crlf_as_lf :
  sha256_normalized_text (of_string "a" ++ [CR; LF] ++ of_string "b" ++ [CR])
  = sha256_normalized_text (of_string "a" ++ [LF] ++ of_string "b" ++ [LF]).
Proof. vm_compute. reflexivity. Qed.

Example sha256_lone_surrogate :
  sha256_normalized_text [97; 55296]
  = Raise (PyExn "UnicodeEncodeError"
             (of_string "'utf-8' codec can't encode character '\ud800' in position 1: surrogates not allowed")).
Proof. vm_compute. reflexivity. Qed.

Example normalize_newlines_mixed :
  normalize_newlines [97; CR; LF; CR; 98; LF; CR] = [97; LF; LF; 98; LF; LF].
Proof. reflexivity. Qed.

Example load_manifest_sample : load_manifest sample_manifest = Ok sample_manifest.
Proof. vm_compute. reflexivity. Qed.

Example load_manifest_names_all_missing :
  load_manifest [(of_string "epic", JStr (of_string "EPIC-7"));
                 (of_string "pr_map", JObj [])]
  = Raise (ValueError
             (of_string "Manifest missing required keys: infra_repo, infra_sha, canonical_files")).
Proof. vm_compute. reflexivity. Qed.

(** Generation, then verification after [spec/b.md] changed: one mismatch,
    with the digest of the old text expected and that of the new one found
    (line endings apart: [spec/a.md] only changed its convention). *)
Example drift_on_one_file :
  exists lock st,
    generate_spec_lock no_repr sample_now sample_manifest
      (fixed_loader text_at_generation) None
      (of_string "scaffold_pr_packets.py") (of_string "dev") (tt, [])
    = (Ok lock, st)
    /\ exists expected actual,
         sha256_normalized_text (of_string "Y" ++ [LF]) = Ok expected
         /\ sha256_normalized_text (of_string "Z" ++ [LF]) = Ok actual
         /\ (verify_spec_lock no_repr lock
               (fixed_loader text_at_verification) (tt, [])).1
            = Ok {| ok := false;
                    mismatches :=
                      [mismatch (of_string "spec/b.md") expected actual] |}.
Proof.
  eexists _, _. split; [vm_compute; reflexivity|].
  eexists _, _. split; [vm_compute; reflexivity|].
  split; vm_compute; reflexivity.
Qed.

Example verify_spec_lock_not_a_list :
  (verify_spec_lock no_repr [(of_string "canonical_files", JInt 3)]
     flaky_loader (tt, [])).1
  = Raise (PyExn "TypeError" (of_string "'int' object is not iterable")).
Proof. vm_compute. reflexivity. Qed.

(** The rendered anchor is one delimited region of its tag, from its first
    character to its last. *)
Example render_sample_anchor :
  exists anchor,
    render_canonical_spec_anchor no_repr sample_manifest = Ok anchor
    /\ Pattern.search (begin_sentinel CANONICAL_ANCHOR_TAG)
         (end_sentinel CANONICAL_ANCHOR_TAG) anchor
       = Some (0%nat, length anchor)
    /\ contains
         (of_string "  - spec/b.md (https://github.com/SolLabsHQ/infra-docs/blob/0a1b2c3/spec/b.md)")
         anchor = true.
Proof.
  eexists. split; [vm_compute; reflexivity|].
  split; vm_compute; reflexivity.
Qed.

(** ** The theorems at concrete inputs *)

Lemma generate_then_verify_ok_witness :
  load_manifest sample_manifest = Ok sample_manifest
  /\ exists lock st,
       generate_spec_lock no_repr sample_now sample_manifest
         (fixed_loader text_at_generation) None
         (of_string "scaffold_pr_packets.py") (of_string "dev") (tt, [])
       = (Ok lock, st)
       /\ exists st2,
            verify_spec_lock no_repr lock (fixed_loader text_at_generation) (tt, [])
            = (Ok {| ok := true; mismatches := [] |}, st2).
Proof.
  split; [vm_compute; reflexivity|].
  destruct (generate_then_verify_ok no_repr (fixed_loader text_at_generation)
              sample_now sample_manifest text_at_generation None
              (of_string "scaffold_pr_packets.py") (of_string "dev") tt)
    as [Htotal Hverify].
  - vm_compute. reflexivity.
  - intros relpath w0. reflexivity.
  - destruct Htotal as (lock & st & Hgen).
    + intros relpath. unfold text_at_generation.
      destruct (decide (relpath = of_string "spec/a.md")); repeat constructor.
    + exists lock, st. split; [exact Hgen|]. exact (Hverify lock st Hgen tt).
Defined.

Lemma verify_spec_lock_records_failures_witness :
  exists (res : VerificationResult) (w' : unit) (log : calls),
    verify_spec_lock no_repr sample_lock flaky_loader (tt, [])
      = (Ok res, (w', log))
    /\ Forall2 (genuine_call no_repr flaky_loader) sample_entries log
    /\ mismatches res = judged no_repr sample_entries log
    /\ (forall (i : nat) (fields : pydict json) (exc : py_exn),
          sample_entries !! i = Some (JObj fields) ->
          log !! i = Some (entry_path no_repr fields, Raise exc) ->
          mismatch (entry_path no_repr fields) (entry_expected no_repr fields)
                   (of_string "<error: " ++ exn_str exc ++ of_string ">")
            ∈ mismatches res)
    /\ (ok res = true <-> mismatches res = []).
Proof.
  apply (verify_spec_lock_records_failures no_repr flaky_loader sample_lock
           sample_entries tt).
  - reflexivity.
  - repeat constructor; eexists; reflexivity.
  - intros relpath w e w'. unfold flaky_loader.
    destruct (decide (relpath = of_string "spec/a.md")); [|discriminate].
    intros [= <- _]. reflexivity.
Defined.

(** C3, as stated, fails for a loader that raises SystemExit: it is
    not caught, verification ends at the first entry without a result,
    and the second entry is never retrieved. *)
Lemma verify_spec_lock_exit_aborts :
  verify_spec_lock no_repr sample_lock exiting_loader (tt, [])
  = (Raise (SystemExit (of_string "1")),
     (tt, [(of_string "spec/a.md", Raise (SystemExit (of_string "1")))])).
Proof. vm_compute. reflexivity. Qed.

(** The first path cannot be retrieved; the second is still checked, and
    its digest differs from the stored one. *)
Example verify_spec_lock_flaky :
  exists actual,
    sha256_normalized_text (of_string "Z" ++ [LF]) = Ok actual
    /\ verify_spec_lock no_repr sample_lock flaky_loader (tt, [])
       = (Ok {| ok := false;
                mismatches :=
                  [ mismatch (of_string "spec/a.md") (of_string "00")
                      (of_string "<error: HTTP 404>");
                    mismatch (of_string "spec/b.md") (of_string "11") actual ] |},
          (tt, [ (of_string "spec/a.md",
                  Raise (RuntimeError (of_string "HTTP 404")));
                 (of_string "spec/b.md", Ok (of_string "Z" ++ [LF])) ])).
Proof. eexists. split; vm_compute; reflexivity. Qed.

Lemma verify_spec_lock_no_entries_witness :
  verify_spec_lock no_repr [(of_string "schema_version", JInt 1)]
    flaky_loader (tt, [])
  = (Ok {| ok := true; mismatches := [] |}, (tt, [])).
Proof.
  apply (verify_spec_lock_no_entries no_repr flaky_loader
           [(of_string "schema_version", JInt 1)] tt).
  left. reflexivity.
Defined.

Lemma load_canonical_text_local_only_witness :
  exists (r : result str) (log : list access),
    load_canonical_text sample_sources (of_string "SolLabsHQ/infra-docs")
      (of_string "0a1b2c3") (of_string "spec/b.md") (Some (of_string "/infra"))
      (tt, [])
    = (r, (tt, log))
    /\ Forall (fun a => is_network a = false) log
    /\ exists e, r = Raise e.
Proof.
  destruct (load_canonical_text_local_only sample_sources
              (of_string "SolLabsHQ/infra-docs") (of_string "0a1b2c3")
              (of_string "spec/b.md") (of_string "/infra") tt)
    as (r & w' & log & Hrun & Hlog & Habsent & _).
  - discriminate.
  - exists r, log. destruct w'. split; [exact Hrun|]. split; [exact Hlog|].
    apply Habsent. reflexivity.
Defined.

(** C4, as stated, fails: a block without sentinels is appended a second
    time. *)
Lemma upsert_twice_appends_again :
  upsert_generated_block (of_string "hello") (of_string "t") (of_string "X")
  = inr (of_string "hello" ++ [LF; LF] ++ of_string "X" ++ [LF])
  /\ upsert_twice (of_string "hello") (of_string "t") (of_string "X")
     = inr (of_string "hello" ++ [LF; LF] ++ of_string "X" ++ [LF; LF]
              ++ of_string "X" ++ [LF])
  /\ upsert_twice (of_string "hello") (of_string "t") (of_string "X")
     <> upsert_generated_block (of_string "hello") (of_string "t") (of_string "X").
Proof. split; [|split]; [vm_compute; reflexivity..|vm_compute; discriminate]. Qed.

(** Each condition of the idempotence theorem is needed.  A document with
    an unterminated BEGIN sentinel: the second upsert swallows it. *)
Example upsert_twice_unterminated_sentinel :
  let block := begin_sentinel (of_string "t") ++ of_string "new"
                 ++ end_sentinel (of_string "t") in
  upsert_twice (begin_sentinel (of_string "t")) (of_string "t") block
  = inr (block ++ [LF])
  /\ upsert_generated_block (begin_sentinel (of_string "t")) (of_string "t") block
     = inr (begin_sentinel (of_string "t") ++ [LF; LF] ++ block ++ [LF]).
Proof. split; vm_compute; reflexivity. Qed.

(** A block with an END sentinel before its closing one: the second upsert
    replaces only the part up to it. *)
Example upsert_twice_early_end_sentinel :
  let block := begin_sentinel (of_string "t") ++ of_string "a"
                 ++ end_sentinel (of_string "t") ++ of_string "b"
                 ++ end_sentinel (of_string "t") in
  upsert_generated_block sample_document (of_string "t") block
  = inr (of_string "# Packet" ++ [LF] ++ block ++ [LF] ++ of_string "tail")
  /\ upsert_twice sample_document (of_string "t") block
     = inr (of_string "# Packet" ++ [LF] ++ block ++ of_string "b"
              ++ end_sentinel (of_string "t") ++ [LF] ++ of_string "tail").
Proof. split; vm_compute; reflexivity. Qed.

(** A tag with line feeds in it: the appended separator completes a BEGIN
    sentinel that the document did not contain. *)
Example upsert_twice_tag_with_line_feeds :
  let tag := of_string "x -->" ++ [LF; LF] ++ of_string "<!-- BEGIN GENERATED: x" in
  let document := of_string "<!-- BEGIN GENERATED: x -->" in
  let block := begin_sentinel tag ++ of_string "new" ++ end_sentinel tag in
  contains (begin_sentinel tag) document = false
  /\ upsert_generated_block document tag block
     = inr (document ++ [LF; LF] ++ block ++ [LF])
  /\ upsert_twice document tag block = inr (block ++ [LF]).
Proof. split_and!; vm_compute; reflexivity. Qed.

Lemma upsert_twice_idempotent_witness :
  exists once,
    upsert_generated_block sample_document (of_string "t")
      (begin_sentinel (of_string "t") ++ of_string "new"
         ++ end_sentinel (of_string "t"))
    = inr once
    /\ upsert_generated_block once (of_string "t")
         (begin_sentinel (of_string "t") ++ of_string "new"
            ++ end_sentinel (of_string "t"))
       = inr once.
Proof.
  destruct (upsert_twice_idempotent (of_string "t") (of_string "new"))
    with (document_text := sample_document) as (once & H1 & H2 & _).
  - vm_compute. reflexivity.
  - intros Hin%list_elem_of_In. vm_compute in Hin. intuition discriminate.
  - left. vm_compute. eexists. reflexivity.
  - exists once. split; [exact H1 | exact H2].
Defined.

(** C5: the replacement text is read as a template.  In [docs\new.md] the
    backslash and the n become a line feed; [spec\design.md] is refused. *)
Theorem upsert_reads_block_as_template :
  upsert_generated_block sample_document (of_string "t") backslash_block
  = inr (of_string "# Packet" ++ [LF]
           ++ of_string "<!-- BEGIN GENERATED: t -->" ++ [LF]
           ++ of_string "- docs" ++ [LF] ++ of_string "ew.md" ++ [LF]
           ++ of_string "<!-- END GENERATED: t -->" ++ [LF]
           ++ of_string "tail")
  /\ upsert_generated_block sample_document (of_string "t") backslash_block
     <> inr (of_string "# Packet" ++ [LF] ++ backslash_block ++ [LF]
               ++ of_string "tail")
  /\ upsert_generated_block sample_document (of_string "t") bad_escape_block
     = inl Pattern.BadTemplate
  /\ upsert_generated_block (of_string "# Packet") (of_string "t") backslash_block
     = inr (of_string "# Packet" ++ [LF; LF] ++ backslash_block ++ [LF]).
Proof.
  split_and!; [vm_compute; reflexivity | vm_compute; discriminate
              | vm_compute; reflexivity..].
Qed.

(** * Further properties of the code *)

(** ** Manifest validation: what is accepted *)

Lemma dict_lookup_has {V} (key : str) (d : pydict V) (v : V) :
  dict_lookup key d = Some v -> dict_has key d = true.
Proof. intros Hv. unfold dict_has. apply bool_decide_eq_true. by eexists. Qed.

(** X1: validation accepts a mapping exactly when the five keys are
    present, canonical_files is a non-empty list of strings with
    non-whitespace content and pr_map is a mapping; what it returns is the
    mapping itself, unchanged. *)
Theorem load_manifest_accepts_iff (data m : pydict json) :
  load_manifest data = Ok m <->
  m = data
  /\ Forall (fun key => is_Some (dict_lookup (of_string key) data)) required
  /\ (exists v, dict_lookup (of_string "canonical_files") data = Some v
                /\ nonblank_str_list v)
  /\ (exists v, dict_lookup (of_string "pr_map") data = Some v /\ is_mapping v).
Proof.
  split.
  - intros (-> & Hkeys & (items & Hfiles & Hne & Hall) & fields & Hmap)%load_manifest_Ok_inv.
    split_and!; [done| | |].
    + eapply Forall_impl; [exact Hkeys|]. intros key Hkey.
      unfold dict_has in Hkey. by apply bool_decide_eq_true in Hkey.
    + exists (JArr items). split; [done|]. exists items. split_and!; [done..|].
      apply Forall_forall. intros item Hitem. apply is_nonblank_str_spec.
      rewrite forallb_forall in Hall. by apply Hall, list_elem_of_In.
    + exists (JObj fields). split; [done|]. by exists fields.
  - intros (-> & Hkeys & (v & Hfiles & items & -> & Hne & Hall)
            & (v' & Hmap & fields & ->)).
    unfold load_manifest.
    assert (Hmissing : List.filter
              (fun key => negb (dict_has (of_string key) data)) required = []).
    { assert (Hnone : forall key,
                ~ In key (List.filter
                   (fun key => negb (dict_has (of_string key) data)) required)).
      { intros key [Hin Hneg]%filter_In.
        rewrite Forall_forall in Hkeys.
        apply list_elem_of_In, Hkeys in Hin. unfold dict_has in Hneg.
        by rewrite bool_decide_eq_true_2 in Hneg. }
      destruct (List.filter _ required) as [|k ks]; [done|].
      destruct (Hnone k). by left. }
    rewrite Hmissing, Hfiles. destruct items as [|item items]; [done|].
    assert (Hok : forallb is_nonblank_str (item :: items) = true).
    { apply forallb_forall. intros x Hx%list_elem_of_In.
      apply is_nonblank_str_spec. rewrite Forall_forall in Hall. by apply Hall. }
    by rewrite Hok, Hmap.
Qed.

(** ** Line-ending normalization *)


Lemma convert_eol_lf_facts (t : str) :
  (CR ∉ t -> convert_eol EolLF t = t)
  /\ (length (convert_eol EolLF t) <= length t)%nat
  /\ List.filter (fun c => negb (is_eol_char c)) (convert_eol EolLF t)
     = List.filter (fun c => negb (is_eol_char c)) t.
Proof.
  remember (length t) as n eqn:Hn.
  revert t Hn. induction n as [n IH] using lt_wf_ind. intros t Hn.
  destruct t as [|c t]; [cbn in *; split_and!; done || lia|].
  assert (IHt : forall u, (length u < n)%nat ->
            (CR ∉ u -> convert_eol EolLF u = u)
            /\ (length (convert_eol EolLF u) <= length u)%nat
            /\ List.filter (fun c => negb (is_eol_char c)) (convert_eol EolLF u)
               = List.filter (fun c => negb (is_eol_char c)) u).
  { intros u Hu. by apply (IH (length u)). }
  cbn [convert_eol eol_text app]. unfold is_eol_char in *.
  destruct (N.eqb_spec c CR) as [->|Hc].
  - destruct t as [|d t'].
    + split_and!; [by intros []%not_elem_of_cons | simpl in *; lia | reflexivity].
    + destruct (N.eqb_spec d LF) as [->|Hd].
      * destruct (IHt t') as (_ & Hlen & Hfil); [simpl in *; lia|].
        split_and!; [by intros []%not_elem_of_cons | simpl in *; lia |].
        cbn. exact Hfil.
      * destruct (IHt (d :: t')) as (_ & Hlen & Hfil); [simpl in *; lia|].
        split_and!; [by intros []%not_elem_of_cons | simpl in *; lia |].
        cbn [List.filter]. cbn [N.eqb LF CR Pos.eqb orb negb]. exact Hfil.
  - destruct (IHt t) as (Hid & Hlen & Hfil); [simpl in *; lia|].
    destruct (N.eqb_spec c LF) as [->|Hl].
    + split_and!.
      * intros [_ Ht]%not_elem_of_cons. by rewrite Hid.
      * simpl in *; lia.
      * cbn. exact Hfil.
    + split_and!.
      * intros [_ Ht]%not_elem_of_cons. by rewrite Hid.
      * simpl in *; lia.
      * cbn [List.filter].
        rewrite (proj2 (N.eqb_neq c CR)), (proj2 (N.eqb_neq c LF)) by done.
        cbn [orb negb]. by rewrite Hfil.
Qed.

(** X2: normalized text holds no carriage return; text without one is
    left as it is; the result is never longer; and the characters that are
    no line-ending characters come out the same, in the same order. *)
Theorem normalize_newlines_only_line_endings (t : str) :
  (CR ∉ normalize_newlines t)
  /\ (CR ∉ t -> normalize_newlines t = t)
  /\ (length (normalize_newlines t) <= length t)%nat
  /\ List.filter (fun c => negb (is_eol_char c)) (normalize_newlines t)
     = List.filter (fun c => negb (is_eol_char c)) t.
Proof.
  split; [apply normalize_newlines_no_cr|].
  rewrite normalize_newlines_scan. apply convert_eol_lf_facts.
Qed.

(** ** The digest *)

Lemma encode_from_surrogate (s : str) :
  Exists (fun c => Utf8.is_surrogate c = true) s ->
  forall pos, exists e, Utf8.encode_from pos s = inl e.
Proof.
  induction 1 as [c s Hc|c s _ IH]; intros pos; cbn [Utf8.encode_from].
  - rewrite Hc. by eexists.
  - destruct (Utf8.is_surrogate c); [by eexists|].
    destruct (IH (S pos)) as [e ->]. by eexists.
Qed.

Lemma convert_eol_lf_keeps (c : N) (t : str) :
  c ∈ t -> is_eol_char c = false -> c ∈ convert_eol EolLF t.
Proof.
  intros Hin Hc.
  pose proof (convert_eol_lf_facts t) as (_ & _ & Hfil).
  assert (Hc' : In c (List.filter (fun c => negb (is_eol_char c)) t)).
  { apply filter_In. split; [by apply list_elem_of_In|by rewrite Hc]. }
  rewrite <- Hfil in Hc'. apply filter_In in Hc' as [Hc' _].
  by apply list_elem_of_In.
Qed.

(** X4: the digest exists exactly for text without surrogate code points;
    any other text makes the call raise UnicodeEncodeError. *)
Theorem sha256_normalized_text_raises_iff (text : str) :
  ((exists digest, sha256_normalized_text text = Ok digest)
   <-> Forall (fun c => Utf8.is_surrogate c = false) text)
  /\ ((exists e, sha256_normalized_text text = Raise e
                 /\ exn_class e = "UnicodeEncodeError"%string)
      <-> Exists (fun c => Utf8.is_surrogate c = true) text).
Proof.
  assert (Hbad : Exists (fun c => Utf8.is_surrogate c = true) text ->
                 exists e, sha256_normalized_text text = Raise e
                           /\ exn_class e = "UnicodeEncodeError"%string).
  { intros (c & Hin & Hc)%Exists_exists.
    unfold sha256_normalized_text, Utf8.encode. rewrite normalize_newlines_scan.
    destruct (encode_from_surrogate (convert_eol EolLF text)) with (pos := 0%nat)
      as [e ->]; [|by eexists].
    apply Exists_exists. exists c. split; [|done].
    apply convert_eol_lf_keeps; [done|].
    unfold is_eol_char. destruct (N.eqb_spec c CR) as [->|_]; [done|].
    by destruct (N.eqb_spec c LF) as [->|_]. }
  assert (Hdec : Forall (fun c => Utf8.is_surrogate c = false) text
                 \/ Exists (fun c => Utf8.is_surrogate c = true) text).
  { clear Hbad. induction text as [|c text [IH|IH]].
    - left. constructor.
    - destruct (Utf8.is_surrogate c) eqn:Hc.
      + right. by constructor.
      + left. by constructor.
    - right. by constructor 2. }
  split; split.
  - intros [d Hd]. destruct Hdec as [Hok|(e & He & _)%Hbad]; [done|congruence].
  - apply sha256_normalized_text_ok.
  - intros (e & He & _).
    destruct Hdec as [[d Hd]%sha256_normalized_text_ok|Hex]; [congruence|done].
  - exact Hbad.
Qed.


Lemma flat_map_length_const {A B} (f : A -> list B) (k : nat) (l : list A) :
  (forall x, length (f x) = k) -> length (flat_map f l) = (k * length l)%nat.
Proof.
  intros Hf. induction l as [|x l IH]; cbn; [lia|].
  rewrite length_app, Hf, IH. lia.
Qed.

Lemma be_bytes_length (n : nat) (x : Z) : length (Sha256.be_bytes n x) = n.
Proof. induction n as [|n IH]; cbn; [done|]. by rewrite IH. Qed.

Lemma be_bytes_range (n : nat) (x : Z) :
  Forall (fun b => (0 <= b < 256)%Z) (Sha256.be_bytes n x).
Proof.
  induction n as [|n IH]; cbn [Sha256.be_bytes]; constructor; [|done].
  change 255%Z with (Z.ones 8). rewrite Z.land_ones by lia.
  apply Z.mod_pos_bound. lia.
Qed.

Lemma hex_digit_lower (d : Z) :
  (0 <= d < 16)%Z -> is_lower_hex (Sha256.hex_digit d) = true.
Proof.
  intros Hd. unfold Sha256.hex_digit, is_lower_hex.
  destruct (Z.ltb_spec d 10); apply orb_true_iff; [left|right];
    apply andb_true_iff; split; apply N.leb_le; lia.
Qed.

Lemma hex_byte_lower (b : Z) :
  (0 <= b < 256)%Z -> forallb is_lower_hex (Sha256.hex_byte b) = true.
Proof.
  intros Hb. unfold Sha256.hex_byte. cbn [forallb].
  rewrite !hex_digit_lower; [done| |].
  - change 15%Z with (Z.ones 4). rewrite Z.land_ones by lia.
    apply Z.mod_pos_bound. lia.
  - rewrite Z.shiftr_div_pow2 by lia. change (2 ^ 4)%Z with 16%Z.
    split; [apply Z.div_pos; lia | apply Z.div_lt_upper_bound; lia].
Qed.

Lemma compress_length (h : list Z) (block : bytes) :
  length h = 8%nat -> length (Sha256.compress h block) = 8%nat.
Proof.
  intros Hh. unfold Sha256.compress. rewrite length_zip_with.
  unfold Sha256.list_of. cbn [length]. lia.
Qed.

Lemma digest_length (msg : bytes) : length (Sha256.digest msg) = 8%nat.
Proof.
  unfold Sha256.digest.
  generalize (Sha256.chunks (length (Sha256.pad msg)) 64 (Sha256.pad msg)).
  assert (H0 : length Sha256.H0 = 8%nat) by reflexivity.
  revert H0. generalize Sha256.H0.
  intros h Hh blocks. revert h Hh.
  induction blocks as [|b blocks IH]; intros h Hh; cbn [fold_left]; [done|].
  by apply IH, compress_length.
Qed.

Lemma hexdigest_format (msg : bytes) :
  length (Sha256.hexdigest msg) = 64%nat
  /\ forallb is_lower_hex (Sha256.hexdigest msg) = true.
Proof.
  unfold Sha256.hexdigest. split.
  - rewrite (flat_map_length_const _ 2) by done.
    rewrite (flat_map_length_const _ 4) by (intros; apply be_bytes_length).
    by rewrite digest_length.
  - apply forallb_forall. intros c (b & Hb & Hc)%in_flat_map.
    apply in_flat_map in Hb as (x & _ & Hb).
    pose proof (be_bytes_range 4 x) as Hrange. rewrite Forall_forall in Hrange.
    pose proof (hex_byte_lower b (Hrange b (proj2 (list_elem_of_In _ _) Hb))) as Hhex.
    rewrite forallb_forall in Hhex. by apply Hhex.
Qed.

(** X3: a digest is 64 characters long, each a digit or a letter from a
    to f. *)
Theorem sha256_normalized_text_hex (text digest : str) :
  sha256_normalized_text text = Ok digest ->
  length digest = 64%nat /\ forallb is_lower_hex digest = true.
Proof.
  unfold sha256_normalized_text.
  destruct (Utf8.encode (normalize_newlines text)) as [e|bs]; [done|].
  intros [= <-]. apply hexdigest_format.
Qed.

Lemma sha256_normalized_text_hex_witness :
  exists digest,
    sha256_normalized_text (of_string "abc") = Ok digest
    /\ length digest = 64%nat /\ forallb is_lower_hex digest = true.
Proof.
  eexists. split; [vm_compute; reflexivity|].
  apply (sha256_normalized_text_hex (of_string "abc")).
  vm_compute. reflexivity.
Defined.

(** ** Generated blocks: replacing, overwriting, and what is left behind *)

Section UpsertFacts.
Variable tag : str.
Local Abbreviation begin := (begin_sentinel tag).
Local Abbreviation end_ := (end_sentinel tag).

(** Wherever a BEGIN sentinel is followed by an END sentinel, the pattern
  finds a match. *)
Lemma search_complete (a m p : str) :
is_Some (Pattern.search begin end_ (a ++ begin ++ m ++ end_ ++ p)).
Proof.
induction a as [|c a IH].
- cbn [app].
  assert (Hhere : is_Some (Pattern.match_here begin end_
                             (begin ++ m ++ end_ ++ p))).
  { unfold Pattern.match_here. rewrite starts_with_app, drop_app_length.
    destruct (find end_ (m ++ end_ ++ p)) as [k|] eqn:Hfind; [by eexists|].
    apply (find_None _ _ (length m)) in Hfind.
    by rewrite drop_app_length, starts_with_app in Hfind. }
  destruct Hhere as [n Hn].
  destruct (begin ++ m ++ end_ ++ p); cbn [Pattern.search]; rewrite Hn; by eexists.
- cbn [app Pattern.search].
  destruct (Pattern.match_here begin end_ _); [by eexists|].
  destruct IH as [span ->]. by eexists.
Qed.

(** A region already in place is overwritten by any block without
  backslashes. *)
Lemma upsert_over (body1 block2 pre post : str) :
find begin (pre ++ begin) = Some (length pre) ->
find end_ (body1 ++ end_) = Some (length body1) ->
BACKSLASH ∉ block2 ->
upsert_generated_block (pre ++ (begin ++ body1 ++ end_) ++ post) tag block2
= inr (pre ++ block2 ++ post).
Proof.
intros Hpre Hclosed Hplain.
rewrite <- (upsert_region tag block2 pre body1 post) by done.
by rewrite <- !(assoc_L (++)).
Qed.


(** X7: when the document holds a BEGIN sentinel followed, anywhere after
  it, by an END sentinel, and the block holds no backslash, one stretch
  of the document is replaced by the block and the rest is kept: the
  stretch starts at the first BEGIN sentinel of the document and ends
  with the first END sentinel after that one. *)
Theorem upsert_replaces_first_region (a b c rendered_block : str) :
BACKSLASH ∉ rendered_block ->
exists pre mid post,
  a ++ begin ++ b ++ end_ ++ c = pre ++ begin ++ mid ++ end_ ++ post
  /\ find begin (pre ++ begin) = Some (length pre)
  /\ find end_ (mid ++ end_) = Some (length mid)
  /\ upsert_generated_block (a ++ begin ++ b ++ end_ ++ c) tag rendered_block
     = inr (pre ++ rendered_block ++ post).
Proof.
intros Hplain.
destruct (search_complete a b c) as [[i j] Hsearch].
destruct (search_Some_region _ _ _ _ _ Hsearch)
  as (pre & mid & post & Hdoc & _ & _ & Hb & He).
exists pre, mid, post. split_and!; try done.
rewrite Hdoc. by apply upsert_region.
Qed.


(** X8: a later upsert overwrites an earlier one.  After the upsert of a
  block that is one delimited region of the tag (no END sentinel before
  the closing one) and holds no backslash, upserting another block
  without backslash gives what upserting that other block into the
  original document gives, when the document has a delimited region, or
  has no BEGIN sentinel and the tag holds no line feed. *)
Theorem upsert_last_write_wins (document_text body1 block2 : str) :
find end_ (body1 ++ end_) = Some (length body1) ->
BACKSLASH ∉ (begin ++ body1 ++ end_) ->
BACKSLASH ∉ block2 ->
is_Some (Pattern.search begin end_ document_text)
\/ (contains begin document_text = false /\ LF ∉ tag) ->
exists first,
  upsert_generated_block document_text tag (begin ++ body1 ++ end_)
  = inr first
  /\ upsert_generated_block first tag block2
     = upsert_generated_block document_text tag block2.
Proof.
intros Hclosed Hplain1 Hplain2 [[[i j] Hsearch]|[Habsent Htag]].
- destruct (search_Some_region _ _ _ _ _ Hsearch)
    as (pre & mid & post & -> & -> & -> & Hb & He).
  exists (pre ++ (begin ++ body1 ++ end_) ++ post). split.
  + by apply upsert_region.
  + rewrite (upsert_over body1 block2 pre post) by done.
    symmetry. by apply upsert_region.
- unfold upsert_generated_block at 1 3.
  rewrite (search_None_absent _ _ _ Habsent).
  rewrite bool_decide_eq_false_2 by (by intros [? ?]).
  destruct (truthy (strip document_text)); eexists; (split; [reflexivity|]).
  + rewrite (assoc_L (++) (rstrip document_text)).
    rewrite (upsert_over body1 block2 (rstrip document_text ++ [LF; LF]) [LF]);
      [by rewrite <- (assoc_L (++))| |done..].
    apply find_after_separator;
      [by apply begin_sentinel_no_lf | apply begin_sentinel_nonempty |].
    destruct (contains begin (rstrip document_text)) eqn:Hr; [|done].
    apply contains_spec in Hr as (a & b & Hr).
    destruct (rstrip_prefix document_text) as [ws Hws].
    rewrite <- Habsent. symmetry. apply contains_spec.
    exists a, (b ++ ws). rewrite Hws, Hr. by rewrite <- !(assoc_L (++)).
  + apply (upsert_over body1 block2 [] [LF]); [apply find_self|done..].
Qed.

End UpsertFacts.

(** ** The rendered anchor *)


Lemma join_cons {A} (sep x : list A) (rest : list (list A)) :
  join sep (x :: rest) = x ++ flat_map (fun l => sep ++ l) rest.
Proof.
  revert x. induction rest as [|y rest IH]; intros x.
  - cbn. by rewrite app_nil_r.
  - change (join sep (x :: y :: rest)) with (x ++ sep ++ join sep (y :: rest)).
    rewrite IH. cbn [flat_map]. by rewrite <- !(assoc_L (++)).
Qed.

Lemma find_fresh_head {A} `{EqDecision A} (c : A) (e body : list A) :
  c ∉ body -> find (c :: e) (body ++ c :: e) = Some (length body).
Proof.
  induction body as [|b body IH]; intros Hc.
  - apply find_self.
  - apply not_elem_of_cons in Hc as [Hne Hc]. cbn [app find starts_with].
    rewrite bool_decide_eq_false_2 by done. cbn [andb].
    by rewrite (IH Hc).
Qed.

Lemma plain_app (s t : str) : plain s -> plain t -> plain (s ++ t).
Proof. unfold plain. rewrite forallb_app. by intros -> ->. Qed.

Lemma plain_flat_map {A} (f : A -> str) (l : list A) :
  Forall (fun x => plain (f x)) l -> plain (flat_map f l).
Proof.
  induction 1 as [|x l Hx _ IH]; [done|]. cbn [flat_map]. by apply plain_app.
Qed.

Lemma plain_elem (c : N) (s : str) : plain s -> plain_char c = false -> c ∉ s.
Proof.
  unfold plain. rewrite forallb_forall. intros Hs Hc Hin%list_elem_of_In.
  apply Hs in Hin. congruence.
Qed.

Section Anchor.
Variable container_repr : json -> str.



Lemma render_shape (manifest : pydict json) :
load_manifest manifest = Ok manifest ->
exists epic infra_repo infra_sha items,
  dict_lookup (of_string "epic") manifest = Some epic
  /\ dict_lookup (of_string "infra_repo") manifest = Some infra_repo
  /\ dict_lookup (of_string "infra_sha") manifest = Some infra_sha
  /\ dict_lookup (of_string "canonical_files") manifest = Some (JArr items)
  /\ render_canonical_spec_anchor container_repr manifest
     = Ok (begin_sentinel CANONICAL_ANCHOR_TAG
             ++ anchor_body container_repr (py_str container_repr epic)
                  (py_str container_repr infra_repo)
                  (py_str container_repr infra_sha) items
             ++ end_sentinel CANONICAL_ANCHOR_TAG).
Proof.
intros (_ & Hkeys & (items & Hfiles & _) & _)%load_manifest_Ok_inv.
unfold required in Hkeys.
repeat (apply Forall_cons in Hkeys as [?%dict_has_item Hkeys]).
repeat match goal with
       | H : exists v, dict_item ?k manifest = Ok v |- _ => destruct H as [? H]
       end.
match goal with
| He : dict_item "epic" manifest = Ok ?e,
  Hr : dict_item "infra_repo" manifest = Ok ?r,
  Hs : dict_item "infra_sha" manifest = Ok ?s |- _ =>
    exists e, r, s, items;
    assert (Hle : dict_lookup (of_string "epic") manifest = Some e)
      by (unfold dict_item in He; by destruct (dict_lookup _ manifest) as [?|]; simplify_eq);
    assert (Hlr : dict_lookup (of_string "infra_repo") manifest = Some r)
      by (unfold dict_item in Hr; by destruct (dict_lookup _ manifest) as [?|]; simplify_eq);
    assert (Hls : dict_lookup (of_string "infra_sha") manifest = Some s)
      by (unfold dict_item in Hs; by destruct (dict_lookup _ manifest) as [?|]; simplify_eq);
    split_and!; [done..|];
    unfold render_canonical_spec_anchor;
    rewrite Hr; cbn [res_bind]; rewrite Hs; cbn [res_bind];
    rewrite He; cbn [res_bind]
end.
unfold dict_item at 1. rewrite Hfiles. cbn [res_bind py_iter].
f_equal. cbn [app]. rewrite join_cons.
change (of_string "<!-- BEGIN GENERATED: canonical-spec-anchor -->")
  with (begin_sentinel CANONICAL_ANCHOR_TAG).
f_equal. unfold anchor_body.
match goal with
| |- flat_map _ ?lines = _ =>
    replace lines
      with (anchor_middle container_repr (py_str container_repr x3) (py_str container_repr x2)
              (py_str container_repr x1) items
            ++ [end_sentinel CANONICAL_ANCHOR_TAG])
      by (unfold anchor_middle; by rewrite <- !(assoc_L (++)))
end.
rewrite flat_map_app. cbn [flat_map]. rewrite app_nil_r.
by rewrite <- !(assoc_L (++)).
Qed.


Lemma anchor_body_plain (epic infra_repo infra_sha : str) (items : list json) :
plain epic -> plain infra_repo -> plain infra_sha ->
Forall (fun item => plain (py_str container_repr item)) items ->
plain (anchor_body container_repr epic infra_repo infra_sha items).
Proof.
intros He Hr Hs Hitems. unfold anchor_body.
apply plain_app; [|done]. apply plain_flat_map.
unfold anchor_middle. rewrite !Forall_app. split_and!.
- repeat constructor; repeat (apply plain_app; try done).
- apply Forall_fmap. eapply Forall_impl; [exact Hitems|].
  intros item Hitem. cbn. unfold anchor_file_line.
  repeat (apply plain_app; try done).
- repeat constructor.
Qed.

Lemma end_sentinel_head (tag : str) : exists r, end_sentinel tag = 60 :: r.
Proof. by eexists. Qed.

(** What makes the rendered anchor fit for the upsert. *)
Lemma render_fit (manifest : pydict json) :
load_manifest manifest = Ok manifest ->
plain_manifest container_repr manifest ->
exists body,
  render_canonical_spec_anchor container_repr manifest
  = Ok (begin_sentinel CANONICAL_ANCHOR_TAG ++ body
          ++ end_sentinel CANONICAL_ANCHOR_TAG)
  /\ find (end_sentinel CANONICAL_ANCHOR_TAG)
          (body ++ end_sentinel CANONICAL_ANCHOR_TAG) = Some (length body)
  /\ BACKSLASH ∉ (begin_sentinel CANONICAL_ANCHOR_TAG ++ body
                    ++ end_sentinel CANONICAL_ANCHOR_TAG).
Proof.
intros Hvalid [Hscalars Hfiles].
destruct (render_shape manifest Hvalid)
  as (epic & repo & sha & items & He & Hr & Hs & Hi & Hrender).
eexists. split; [exact Hrender|].
assert (Hbody : plain (anchor_body container_repr (py_str container_repr epic)
                         (py_str container_repr repo)
                         (py_str container_repr sha) items)).
{ apply anchor_body_plain; [..|by apply Hfiles];
    (eapply Hscalars; [|eassumption]); cbn; auto. }
split.
- destruct (end_sentinel_head CANONICAL_ANCHOR_TAG) as [r ->].
  apply find_fresh_head. by apply plain_elem.
- rewrite !elem_of_app. intros [Hin|[Hin|Hin]].
  + apply list_elem_of_In in Hin. vm_compute in Hin. intuition discriminate.
  + by apply (plain_elem BACKSLASH _ Hbody).
  + apply list_elem_of_In in Hin. vm_compute in Hin. intuition discriminate.
Qed.

(** X5: for a validated manifest whose identifiers and paths hold neither
  [<] nor a backslash, rendering succeeds and the anchor is exactly one
  delimited region of the canonical tag: the pattern matches it from its
  first character to its last. *)
Theorem render_canonical_spec_anchor_is_region (manifest : pydict json) :
load_manifest manifest = Ok manifest ->
plain_manifest container_repr manifest ->
exists anchor,
  render_canonical_spec_anchor container_repr manifest = Ok anchor
  /\ Pattern.search (begin_sentinel CANONICAL_ANCHOR_TAG)
       (end_sentinel CANONICAL_ANCHOR_TAG) anchor
     = Some (0%nat, length anchor)
  /\ BACKSLASH ∉ anchor.
Proof.
intros Hvalid Hplain.
destruct (render_fit manifest Hvalid Hplain) as (body & Hrender & Hclosed & Hbs).
eexists. split; [exact Hrender|]. split; [|done].
pose proof (search_first_region (begin_sentinel CANONICAL_ANCHOR_TAG)
              (end_sentinel CANONICAL_ANCHOR_TAG) [] body []
              (find_self _) Hclosed) as Hsearch.
rewrite app_nil_r in Hsearch. cbn [app length Nat.add] in Hsearch.
rewrite Hsearch. f_equal. f_equal. rewrite !length_app. lia.
Qed.

(** X6: the rendered anchor of such a manifest upserts idempotently under
  its own tag into every document that has a delimited region of the
  tag or has no BEGIN sentinel of it. *)
Theorem upsert_rendered_anchor_idempotent (manifest : pydict json)
  (document_text : str) :
load_manifest manifest = Ok manifest ->
plain_manifest container_repr manifest ->
is_Some (Pattern.search (begin_sentinel CANONICAL_ANCHOR_TAG)
           (end_sentinel CANONICAL_ANCHOR_TAG) document_text)
\/ contains (begin_sentinel CANONICAL_ANCHOR_TAG) document_text = false ->
exists anchor once,
  render_canonical_spec_anchor container_repr manifest = Ok anchor
  /\ upsert_generated_block document_text CANONICAL_ANCHOR_TAG anchor = inr once
  /\ upsert_generated_block once CANONICAL_ANCHOR_TAG anchor = inr once.
Proof.
intros Hvalid Hplain Hdoc.
destruct (render_fit manifest Hvalid Hplain) as (body & Hrender & Hclosed & Hbs).
eexists. 
assert (exists once,
  upsert_generated_block document_text CANONICAL_ANCHOR_TAG
    (begin_sentinel CANONICAL_ANCHOR_TAG ++ body
       ++ end_sentinel CANONICAL_ANCHOR_TAG) = inr once
  /\ upsert_generated_block once CANONICAL_ANCHOR_TAG
       (begin_sentinel CANONICAL_ANCHOR_TAG ++ body
          ++ end_sentinel CANONICAL_ANCHOR_TAG) = inr once)
  as (once & H1 & H2).
{ destruct Hdoc as [Hregion|Habsent].
  - by apply upsert_idempotent_region.
  - apply upsert_idempotent_absent; [done..|].
    intros Hin%list_elem_of_In. vm_compute in Hin. intuition discriminate. }
exists once. by split_and!.
Qed.

End Anchor.

(** ** Lock generation: order, and all or nothing *)


Section GenerateFacts.
Variable container_repr : json -> str.
Context {W : Type}.
Variable content_loader : str -> Eff W str.



Lemma generate_entries_run (relpaths : list json) :
forall (acc : list json) (st st' : W * calls) (entries : list json),
generate_entries container_repr content_loader relpaths acc st
  = (Ok entries, st') ->
exists results : list (str * str),
  length results = length relpaths
  /\ entries = acc ++ zip_with (written container_repr) relpaths results
  /\ st'.2 = st.2 ++ zip_with (retrieved container_repr) relpaths results
  /\ Forall (fun td => sha256_normalized_text td.1 = Ok td.2) results.
Proof.
induction relpaths as [|relpath rest IH]; intros acc st st' entries.
- cbn. intros [= <- <-]. exists []. by rewrite !app_nil_r.
- cbn [generate_entries]. unfold bind at 1, call at 1.
  destruct (content_loader (py_str container_repr relpath) st.1)
    as [[text|exc] w1] eqn:Hcall; [|done].
  unfold bind at 1, lift at 1.
  destruct (sha256_normalized_text text) as [digest|exc] eqn:Hsha; [|done].
  intros (results & Hlen & -> & Hlog & Hsha')%IH.
  exists ((text, digest) :: results). cbn [zip_with length fst snd] in *.
  split_and!; [by rewrite Hlen | | | by constructor].
  + by rewrite <- (assoc_L (++)).
  + rewrite Hlog. by rewrite <- (assoc_L (++)).
Qed.

Lemma generate_spec_lock_run (now : str) (manifest : pydict json)
  (generated_at : option str) (name version : str) (w w' : W)
  (lock : pydict json) (log : calls) (items : list json) :
dict_lookup (of_string "canonical_files") manifest = Some (JArr items) ->
generate_spec_lock container_repr now manifest content_loader
  generated_at name version (w, []) = (Ok lock, (w', log)) ->
exists results : list (str * str),
  length results = length items
  /\ dict_lookup (of_string "canonical_files") lock
     = Some (JArr (zip_with (written container_repr) items results))
  /\ log = zip_with (retrieved container_repr) items results
  /\ Forall (fun td => sha256_normalized_text td.1 = Ok td.2) results.
Proof.
intros Hfiles. unfold generate_spec_lock.
unfold bind at 1, lift at 1, dict_item at 1. rewrite Hfiles.
unfold bind at 1, lift at 1. cbn [py_iter].
unfold bind at 1.
destruct (generate_entries _ _ items [] (w, [])) as [[entries|] st1] eqn:Hgen;
  [|done].
apply generate_entries_run in Hgen as (results & Hlen & -> & Hlog & Hsha).
unfold bind at 1, lift at 1.
destruct (dict_item "epic" manifest) as [epic|]; [|done].
unfold bind at 1, lift at 1.
destruct (dict_item "infra_repo" manifest) as [infra_repo|]; [|done].
unfold bind at 1, lift at 1.
destruct (dict_item "infra_sha" manifest) as [infra_sha|]; [|done].
unfold ret. intros [= <- ->].
exists results. split_and!; [done | reflexivity | | done].
exact Hlog.
Qed.

(** X10: a lock record that generation returns holds one entry per
  manifest path, in manifest order, each with the path as [str] gives it
  and the digest of the text the loader returned for it; the loader was
  called once per path, in that order, and every call returned. *)
Theorem generate_spec_lock_entries_in_order (now : str) (manifest : pydict json)
  (generated_at : option str) (name version : str) (w w' : W)
  (lock : pydict json) (log : calls) (items : list json) :
dict_lookup (of_string "canonical_files") manifest = Some (JArr items) ->
generate_spec_lock container_repr now manifest content_loader
  generated_at name version (w, []) = (Ok lock, (w', log)) ->
exists results : list (str * str),
  length results = length items
  /\ dict_lookup (of_string "canonical_files") lock
     = Some (JArr (zip_with (written container_repr) items results))
  /\ log = zip_with (retrieved container_repr) items results
  /\ Forall (fun td => sha256_normalized_text td.1 = Ok td.2) results.
Proof. apply generate_spec_lock_run. Qed.

Lemma generate_entries_fail (relpaths : list json) :
forall (acc : list json) (st st' : W * calls) (e : py_exn),
generate_entries container_repr content_loader relpaths acc st
  = (Raise e, st') ->
exists (k : nat) (done_ : calls) (last : str * result str),
  (k < length relpaths)%nat
  /\ length done_ = k
  /\ st'.2 = st.2 ++ done_ ++ [last]
  /\ (done_ ++ [last]).*1 = take (S k) (py_str container_repr <$> relpaths)
  /\ (last.2 = Raise e
      \/ exists text, last.2 = Ok text /\ sha256_normalized_text text = Raise e).
Proof.
induction relpaths as [|relpath rest IH]; intros acc st st' e.
- done.
- cbn [generate_entries]. unfold bind at 1, call at 1.
  destruct (content_loader (py_str container_repr relpath) st.1)
    as [[text|exc] w1] eqn:Hcall.
  + unfold bind at 1, lift at 1.
    destruct (sha256_normalized_text text) as [digest|exc] eqn:Hsha.
    * intros (k & done_ & last & Hk & Hlen & Hlog & Hpaths & Hlast)%IH.
      exists (S k), ((py_str container_repr relpath, Ok text) :: done_), last.
      cbn [length fst snd] in *.
      split_and!; [lia | by rewrite Hlen | | | done].
      -- rewrite Hlog. by rewrite <- !(assoc_L (++)).
      -- cbn. by rewrite Hpaths.
    * intros [= <- <-].
      exists 0%nat, [], (py_str container_repr relpath, Ok text).
      cbn. split_and!; [lia | done | done | done |].
      right. by exists text.
  + intros [= <- <-].
    exists 0%nat, [], (py_str container_repr relpath, Raise exc).
    cbn. split_and!; [lia | done | done | done | by left].
Qed.

(** X11: generation is all or nothing.  On a validated manifest it fails
  only because retrieving one path, or digesting its text, failed: that
  exception is passed on unchanged, no lock record is returned, and no
  path after the failing one is requested. *)
Theorem generate_spec_lock_all_or_nothing (now : str) (manifest : pydict json)
  (generated_at : option str) (name version : str) (w w' : W)
  (e : py_exn) (log : calls) :
load_manifest manifest = Ok manifest ->
generate_spec_lock container_repr now manifest content_loader
  generated_at name version (w, []) = (Raise e, (w', log)) ->
exists (items : list json) (k : nat) (done_ : calls) (last : str * result str),
  dict_lookup (of_string "canonical_files") manifest = Some (JArr items)
  /\ (k < length items)%nat
  /\ length done_ = k
  /\ log = done_ ++ [last]
  /\ log.*1 = take (S k) (py_str container_repr <$> items)
  /\ (last.2 = Raise e
      \/ exists text, last.2 = Ok text /\ sha256_normalized_text text = Raise e).
Proof.
intros (_ & Hkeys & (items & Hfiles & _) & _)%load_manifest_Ok_inv.
unfold required in Hkeys.
repeat (apply Forall_cons in Hkeys as [?%dict_has_item Hkeys]).
repeat match goal with
       | H : exists v, dict_item ?k manifest = Ok v |- _ => destruct H as [? H]
       end.
unfold generate_spec_lock.
unfold bind at 1, lift at 1, dict_item at 1. rewrite Hfiles.
unfold bind at 1, lift at 1. cbn [py_iter].
unfold bind at 1.
destruct (generate_entries _ _ items [] (w, [])) as [[entries|exc] st1] eqn:Hgen.
- repeat (unfold bind at 1, lift at 1;
          match goal with
          | H : dict_item ?k manifest = Ok _
            |- context [dict_item ?k manifest] => rewrite H
          end).
  done.
- intros [= <- ->].
  apply generate_entries_fail in Hgen
    as (k & done_ & last & Hk & Hlen & Hlog & Hpaths & Hlast).
  cbn [snd app] in Hlog. subst log.
  by exists items, k, done_, last.
Qed.

End GenerateFacts.

(** ** Drift: verification after generation *)


Section DriftFacts.
Variable container_repr : json -> str.
Context {Wa Wb : Type}.
Variable loader_a : str -> Eff Wa str.
Variable loader_b : str -> Eff Wb str.
Variables text_a text_b : str -> str.
Hypothesis fixed_a : forall relpath w, (loader_a relpath w).1 = Ok (text_a relpath).
Hypothesis fixed_b : forall relpath w, (loader_b relpath w).1 = Ok (text_b relpath).


Lemma generate_entries_fixed (relpaths : list json) :
forall (acc : list json) (st st' : Wa * calls) (entries : list json),
generate_entries container_repr loader_a relpaths acc st = (Ok entries, st') ->
exists new, entries = acc ++ new /\ Forall2 (locked_for container_repr text_a) relpaths new.
Proof.
induction relpaths as [|relpath rest IH]; intros acc st st' entries.
- cbn. intros [= <- <-]. exists []. by rewrite app_nil_r.
- cbn [generate_entries]. unfold bind at 1, call at 1.
  pose proof (fixed_a (py_str container_repr relpath) st.1) as Hcall.
  destruct (loader_a (py_str container_repr relpath) st.1) as [r w1].
  cbn [fst] in Hcall. subst r.
  unfold bind at 1, lift at 1.
  destruct (sha256_normalized_text (text_a (py_str container_repr relpath)))
    as [digest|exc] eqn:Hsha; [|done].
  intros (new & -> & Hnew)%IH.
  eexists (_ :: new). split; [by rewrite <- (assoc_L (++))|].
  constructor; [|done]. by exists digest.
Qed.

Lemma verify_entries_drift (relpaths entries : list json) :
Forall2 (locked_for container_repr text_a) relpaths entries ->
forall (ms : list (pydict str)) (st : Wb * calls),
exists st',
  verify_entries container_repr loader_b entries ms st
  = (Ok (ms ++ omap (drift text_a text_b) (py_str container_repr <$> relpaths)),
     st').
Proof.
induction 1 as [|relpath entry relpaths entries (digest & Hsha & ->) _ IH];
  intros ms st.
- exists st. cbn. by rewrite app_nil_r.
- cbn [verify_entries].
  unfold bind at 1, lift at 1. cbn [lock_entry as_dict].
  change (py_str container_repr (dict_get (of_string "path") (JStr []) _))
    with (py_str container_repr relpath).
  change (py_str container_repr (dict_get (of_string "sha256") (JStr []) _))
    with digest.
  unfold bind at 1, try at 1, bind at 1, call at 1. cbn [fst snd].
  pose proof (fixed_b (py_str container_repr relpath) st.1) as Hcall.
  destruct (loader_b (py_str container_repr relpath) st.1) as [r w1].
  cbn [fst] in Hcall. subst r. cbn [lift].
  cbn [fmap list_fmap omap list_omap]. unfold drift at 1. rewrite Hsha.
  destruct (sha256_normalized_text (text_b (py_str container_repr relpath)))
    as [actual|exc] eqn:Hnow.
  + case_bool_decide as Hne.
    * rewrite bool_decide_eq_false_2 by done.
      edestruct IH as [st' ->]. eexists. by rewrite <- (assoc_L (++)).
    * rewrite bool_decide_eq_true_2
        by (by destruct (decide (actual = digest)); [|destruct Hne]).
      apply IH.
  + rewrite (sha256_raises_exception _ _ Hnow).
    edestruct IH as [st' ->]. eexists. by rewrite <- (assoc_L (++)).
Qed.

Lemma verify_after_generate (now : str) (manifest : pydict json)
  (generated_at : option str) (name version : str)
  (wa : Wa) (st : Wa * calls) (lock : pydict json) (items : list json)
  (wb : Wb) :
dict_lookup (of_string "canonical_files") manifest = Some (JArr items) ->
generate_spec_lock container_repr now manifest loader_a
  generated_at name version (wa, []) = (Ok lock, st) ->
exists st',
  verify_spec_lock container_repr lock loader_b (wb, [])
  = (Ok {| ok := bool_decide
                   (length (omap (drift text_a text_b)
                              (py_str container_repr <$> items)) = 0%nat);
           mismatches := omap (drift text_a text_b)
                           (py_str container_repr <$> items) |},
     st').
Proof.
intros Hfiles. unfold generate_spec_lock.
unfold bind at 1, lift at 1, dict_item at 1. rewrite Hfiles.
unfold bind at 1, lift at 1. cbn [py_iter].
unfold bind at 1.
destruct (generate_entries _ _ items [] (wa, [])) as [[entries|] st1] eqn:Hgen;
  [|done].
apply generate_entries_fixed in Hgen as (new & -> & Hnew).
unfold bind at 1, lift at 1.
destruct (dict_item "epic" manifest) as [epic|]; [|done].
unfold bind at 1, lift at 1.
destruct (dict_item "infra_repo" manifest) as [infra_repo|]; [|done].
unfold bind at 1, lift at 1.
destruct (dict_item "infra_sha" manifest) as [infra_sha|]; [|done].
unfold ret. intros [= <- _].
unfold verify_spec_lock.
change (dict_get (of_string "canonical_files") (JArr []) _) with (JArr ([] ++ new)).
unfold bind at 1, lift at 1. cbn [py_iter app].
unfold bind at 1.
destruct (verify_entries_drift items new Hnew [] (wb, [])) as [st' ->].
by eexists.
Qed.

(** X12: verifying a generated lock record against a loader that now
  returns other texts reports exactly the manifest paths whose digest
  differs (or whose text can no longer be digested), in manifest order,
  each with the digest stored at generation as expected; ok is true iff
  there is none. *)
Theorem verify_reports_changed_paths (now : str) (manifest : pydict json)
  (generated_at : option str) (name version : str)
  (wa : Wa) (st : Wa * calls) (lock : pydict json) (items : list json)
  (wb : Wb) :
dict_lookup (of_string "canonical_files") manifest = Some (JArr items) ->
generate_spec_lock container_repr now manifest loader_a
  generated_at name version (wa, []) = (Ok lock, st) ->
exists st',
  verify_spec_lock container_repr lock loader_b (wb, [])
  = (Ok {| ok := bool_decide
                   (length (omap (drift text_a text_b)
                              (py_str container_repr <$> items)) = 0%nat);
           mismatches := omap (drift text_a text_b)
                           (py_str container_repr <$> items) |},
     st').
Proof. apply verify_after_generate. Qed.

Lemma drift_same (relpath : str) :
text_b relpath = text_a relpath -> drift text_a text_b relpath = None.
Proof.
intros Hsame. unfold drift. rewrite Hsame.
destruct (sha256_normalized_text (text_a relpath)); [|done].
by rewrite bool_decide_eq_true_2.
Qed.

Lemma drift_none (relpaths : list str) :
(forall p, p ∈ relpaths -> text_b p = text_a p) ->
omap (drift text_a text_b) relpaths = [].
Proof.
induction relpaths as [|p relpaths IH]; intros Hsame; [done|].
cbn. rewrite drift_same by (apply Hsame; set_solver).
apply IH. intros q Hq. apply Hsame. set_solver.
Qed.

(** X13: when exactly one canonical file changed between generation and
  verification, the result holds exactly one mismatch: it names that
  path, expected is the digest of the old text and actual the digest of
  the new one, and ok is false. *)
Theorem verify_one_changed_file (now : str) (manifest : pydict json)
  (generated_at : option str) (name version : str)
  (wa : Wa) (st : Wa * calls) (lock : pydict json)
  (before after : list json) (changed : json) (old_digest new_digest : str)
  (wb : Wb) :
dict_lookup (of_string "canonical_files") manifest
  = Some (JArr (before ++ changed :: after)) ->
(forall p, p ∈ py_str container_repr <$> (before ++ after) ->
           text_b p = text_a p) ->
sha256_normalized_text (text_a (py_str container_repr changed)) = Ok old_digest ->
sha256_normalized_text (text_b (py_str container_repr changed)) = Ok new_digest ->
new_digest <> old_digest ->
generate_spec_lock container_repr now manifest loader_a
  generated_at name version (wa, []) = (Ok lock, st) ->
exists st',
  verify_spec_lock container_repr lock loader_b (wb, [])
  = (Ok {| ok := false;
           mismatches := [mismatch (py_str container_repr changed)
                            old_digest new_digest] |},
     st').
Proof.
intros Hfiles Hsame Hold Hnew Hne Hgen.
destruct (verify_after_generate now manifest generated_at name version
            wa st lock _ wb Hfiles Hgen) as [st' Hrun].
exists st'. rewrite Hrun.
rewrite fmap_app, omap_app. cbn [fmap list_fmap omap list_omap].
rewrite !drift_none.
- unfold drift. rewrite Hold, Hnew.
  rewrite (bool_decide_eq_false_2 _ Hne). reflexivity.
- intros p Hp. apply Hsame. rewrite fmap_app, elem_of_app. by right.
- intros p Hp. apply Hsame. rewrite fmap_app, elem_of_app. by left.
Qed.

End DriftFacts.

(** ** Verification of a malformed lock record *)

Section VerifyAbort.
Variable container_repr : json -> str.
Context {W : Type}.
Variable content_loader : str -> Eff W str.

Hypothesis loader_raises : forall relpath, raises_exceptions (content_loader relpath).

Lemma verify_entries_app (before rest : list json) :
forall (ms : list (pydict str)) (st : W * calls),
verify_entries container_repr content_loader (before ++ rest) ms st
= match verify_entries container_repr content_loader before ms st with
  | (Ok ms', st') =>
      verify_entries container_repr content_loader rest ms' st'
  | (Raise e, st') => (Raise e, st')
  end.
Proof.
induction before as [|entry before IH]; intros ms st; [done|].
cbn [app verify_entries].
unfold bind, lift, try, call.
destruct (as_dict entry) as [fields|e]; [|done].
destruct (content_loader _ st.1) as [[text|exc] w1].
- destruct (sha256_normalized_text text) as [actual|exc]; cbn.
  + case_bool_decide; apply IH.
  + destruct (is_exception exc); [apply IH|done].
- cbn. destruct (is_exception exc); [apply IH|done].
Qed.

(** X14: an entry that is no object aborts verification with
  AttributeError, for a loader whose failures are exceptions of
  [Exception].  The entries before it were retrieved, in order; the
  mismatches they gave are lost with the result, and no later entry is
  retrieved. *)
Theorem verify_spec_lock_malformed_entry (lock_data : pydict json)
  (before after : list json) (bad : json) (w : W) :
dict_get (of_string "canonical_files") (JArr []) lock_data
  = JArr (before ++ bad :: after) ->
Forall is_mapping before ->
~ is_mapping bad ->
exists (w' : W) (log : calls),
  verify_spec_lock container_repr lock_data content_loader (w, [])
  = (Raise (AttributeError (type_name bad) "get"), (w', log))
  /\ Forall2 (genuine_call container_repr content_loader) before log.
Proof.
intros Hfiles Hbefore Hbad.
destruct (verify_entries_spec container_repr content_loader before
            loader_raises Hbefore [] w [])
  as (w' & log & Hrun & Hlog).
exists w', log. split; [|done].
unfold verify_spec_lock. rewrite Hfiles.
unfold bind at 1, lift at 1. cbn [py_iter].
unfold bind at 1. rewrite verify_entries_app, Hrun.
cbn [verify_entries]. unfold bind at 1, lift at 1.
destruct bad; cbn [as_dict type_name]; try done.
destruct Hbad. by eexists.
Qed.

End VerifyAbort.

(** ** Canonical content retrieval: remote strategies and the root check *)

Section RetrievalOrder.
Context {W : Type} (src : Sources W).

(** X15: without a local root (none given, or the empty string) retrieval
  touches only the network, never the file system.  The gh strategy is
  tried first and its text returned when it succeeds, the raw strategy
  then not being tried; when gh fails the raw strategy is tried and its
  text returned; when both fail the error is a RuntimeError whose message
  quotes both causes. *)
Theorem load_canonical_text_remote_fallback
  (infra_repo infra_sha relpath : str) (infra_docs_root : option str) (w : W) :
default [] infra_docs_root = [] ->
let gh := GhApi infra_repo relpath infra_sha in
let raw := RawGithub infra_repo relpath infra_sha in
exists (r : result str) (w' : W) (log : list access),
  load_canonical_text src infra_repo infra_sha relpath infra_docs_root (w, [])
    = (r, (w', log))
  /\ Forall (fun a => is_network a = true) log
  /\ (forall text w1,
        fetch_via_gh_api src infra_repo relpath infra_sha w = (Ok text, w1) ->
        r = Ok text /\ w' = w1 /\ log = [gh])
  /\ (forall gh_error w1 r2 w2,
        fetch_via_gh_api src infra_repo relpath infra_sha w
          = (Raise gh_error, w1) ->
        fetch_via_raw_github src infra_repo relpath infra_sha w1 = (r2, w2) ->
        w' = w2 /\ log = [gh; raw]
        /\ match r2 with
           | Ok text => r = Ok text
           | Raise raw_exc =>
               r = Raise (RuntimeError
                            (of_string "gh fetch failed (" ++ exn_str gh_error
                               ++ of_string "); raw fetch failed ("
                               ++ exn_str raw_exc ++ of_string ")"))
           end).
Proof.
intros Hroot gh raw.
cbv [load_canonical_text logged bind ret raise try truthy fst snd].
rewrite Hroot. cbn [app].
destruct (fetch_via_gh_api src infra_repo relpath infra_sha w)
  as [[text|gh_error] w1] eqn:Hgh.
- exists (Ok text), w1, [gh]. split_and!; [done|by repeat constructor|..].
  + by intros ?? [= <- <-].
  + by intros ???? [=].
- rewrite (fetch_via_gh_api_raises src _ _ _ _ _ _ Hgh).
  destruct (fetch_via_raw_github src infra_repo relpath infra_sha w1)
    as [[text|raw_exc] w2] eqn:Hraw.
  + exists (Ok text), w2, [gh; raw].
    split_and!; [done|by repeat constructor|by intros ?? [=]|].
    intros ???? [= <- <-]. rewrite Hraw. by intros [= <- <-].
  + rewrite (fetch_via_raw_github_raises src _ _ _ _ _ _ Hraw).
    eexists _, w2, [gh; raw].
    split_and!; [done|by repeat constructor|by intros ?? [=]|].
    intros ???? [= <- <-]. rewrite Hraw. by intros [= <- <-].
Qed.

(** X16: a non-empty local root that does not exist, or is no directory,
  is refused with a RuntimeError naming the root: nothing is read, the
  network is not tried, and whether the root is a directory is asked only
  when it exists. *)
Theorem load_canonical_text_invalid_root
  (infra_repo infra_sha relpath root : str) (w : W) :
root <> [] ->
path_exists src root w = false \/ path_is_dir src root w = false ->
load_canonical_text src infra_repo infra_sha relpath (Some root) (w, [])
= (Raise (RuntimeError
            (of_string "INFRA_DOCS_ROOT does not point to a valid directory: "
               ++ root)),
   (w, if path_exists src root w
       then [PathExists root; PathIsDir root] else [PathExists root])).
Proof.
intros Hroot Hbad.
destruct root as [|c root']; [done|].
set (root := c :: root') in *.
cbv [load_canonical_text exists_ is_dir logged
     bind ret raise default from_option id truthy root fst snd].
fold root. cbn [app].
destruct (path_exists src root w) eqn:Hex; [|done].
destruct Hbad as [?|Hdir]; [done|]. by rewrite Hdir.
Qed.

End RetrievalOrder.

(** ** The verifier script *)

Lemma judge_is_mismatch (container_repr : json -> str) (entry : json)
    (outcome : result str) (m : pydict str) :
  judge container_repr entry outcome = Some m ->
  exists relpath expected actual, m = mismatch relpath expected actual.
Proof.
  destruct entry; try done. cbn [judge].
  destruct (res_bind outcome sha256_normalized_text).
  - case_bool_decide; [done|]. intros [= <-]. by eexists _, _, _.
  - intros [= <-]. by eexists _, _, _.
Qed.

Lemma judged_are_mismatches (container_repr : json -> str)
    (entries : list json) (log : calls) :
  Forall (fun m => exists relpath expected actual,
            m = mismatch relpath expected actual)
         (judged container_repr entries log).
Proof.
  apply Forall_forall. intros m Hm. unfold judged in Hm.
  apply list_elem_of_omap in Hm as (p & _ & Hp).
  by eapply judge_is_mismatch.
Qed.

Section ScriptFacts.
Variable container_repr : json -> str.
Context {W : Type} (src : Sources W) (host : VerifyScript.Host W).

Local Abbreviation loader := (VerifyScript.content_loader container_repr src).
Local Abbreviation verify := (VerifyScript.verify container_repr src).
Local Abbreviation main := (VerifyScript.main container_repr src host).
Local Abbreviation resolve_packet_dir := (VerifyScript.resolve_packet_dir src host).
Local Abbreviation printed := (VerifyScript.printed host).




(** Retrieval raises exceptions of [Exception] only. *)
Lemma load_canonical_text_raises (infra_repo infra_sha relpath : str)
  (infra_docs_root : option str) :
raises_exceptions
  (load_canonical_text src infra_repo infra_sha relpath infra_docs_root).
Proof.
intros [w log] e s'.
cbv [load_canonical_text read_local_canonical_text exists_ is_dir logged
     bind ret raise try fst snd].
destruct (truthy (default [] infra_docs_root)).
- destruct (path_exists src _ w); [destruct (path_is_dir src _ w)|];
    cbn [negb]; try (by intros [= <- _]).
  destruct (path_exists src _ w); cbn [negb]; [|by intros [= <- _]].
  destruct (path_read_text src _ w) as [[text|exc] w1] eqn:Hread; [done|].
  intros [= <- _]. by eapply path_read_text_raises.
- destruct (fetch_via_gh_api src _ _ _ w) as [[text|gh_error] w1] eqn:Hgh;
    [done|].
  rewrite (fetch_via_gh_api_raises src _ _ _ _ _ _ Hgh).
  destruct (fetch_via_raw_github src _ _ _ w1) as [[text|raw_exc] w2] eqn:Hraw;
    [done|].
  rewrite (fetch_via_raw_github_raises src _ _ _ _ _ _ Hraw).
  by intros [= <- _].
Qed.

Lemma content_loader_raises (fields : pydict json) (root : option str)
  (relpath : str) :
raises_exceptions (loader fields root relpath).
Proof.
intros s e s'. unfold VerifyScript.content_loader, bind, lift, dict_item.
destruct (dict_lookup (of_string "infra_repo") fields);
  [|by intros [= <- _]].
destruct (dict_lookup (of_string "infra_sha") fields);
  [|by intros [= <- _]].
apply load_canonical_text_raises.
Qed.

Lemma verify_run (fields : pydict json) (entries : list json)
  (root : option str) (s : W * list access) :
dict_get (of_string "canonical_files") (JArr []) fields = JArr entries ->
Forall is_mapping entries ->
exists (s' : W * list access) (log : calls),
  verify (JObj fields) root s
  = (Ok {| ok := bool_decide (length (judged container_repr entries log) = 0%nat);
           mismatches := judged container_repr entries log |}, s')
  /\ Forall2 (genuine_call container_repr (loader fields root)) entries log.
Proof.
intros Hfiles Hentries.
destruct (verify_entries_spec container_repr (loader fields root) entries
            (content_loader_raises fields root) Hentries [] s [])
  as (s' & log & Hrun & Hlog).
exists s', log. split; [|done].
unfold VerifyScript.verify, bind at 1, lift at 1. cbn [as_dict].
unfold verify_spec_lock. rewrite Hfiles.
unfold bind at 1, lift at 1. cbn [py_iter].
unfold bind at 1. rewrite Hrun. cbn [app ret]. reflexivity.
Qed.

(** Printing one line, then more. *)
Lemma printed_cons (line : str) (rest : list str) :
printed (line :: rest)
= match VerifyScript.stdout_refuses host line with
  | Some e => ([], Some e)
  | None => (line :: (printed rest).1, (printed rest).2)
  end.
Proof.
cbn [VerifyScript.printed].
destruct (VerifyScript.stdout_refuses host line); [done|].
by destruct (VerifyScript.printed host rest).
Qed.

Lemma print_mismatches_run (ms : list (pydict str)) :
Forall (fun m => exists relpath expected actual,
          m = mismatch relpath expected actual) ms ->
exists lines : list str,
  Forall2 (fun m line => VerifyScript.mismatch_line m = Ok line) ms lines
  /\ forall (s : W * list access) (out : list str),
       VerifyScript.print_mismatches host ms (s, out)
       = (match (printed lines).2 with
          | None => Ok tt
          | Some e => Raise e
          end,
          (s, out ++ (printed lines).1)).
Proof.
induction 1 as [|m rest (relpath & expected & actual & ->) _ IH].
- exists []. split; [constructor|]. intros s out. cbn. by rewrite app_nil_r.
- destruct IH as (lines & Hlines & Hrun).
  set (line := of_string "- " ++ relpath ++ of_string ": expected " ++ expected
                 ++ of_string " actual " ++ actual).
  assert (Hline : VerifyScript.mismatch_line (mismatch relpath expected actual)
                  = Ok line) by (vm_compute; reflexivity).
  exists (line :: lines). split; [by constructor|].
  intros s out. cbn [VerifyScript.print_mismatches].
  unfold bind at 1, lift at 1. rewrite Hline.
  unfold bind at 1, VerifyScript.print at 1. cbn [fst snd].
  rewrite printed_cons.
  destruct (VerifyScript.stdout_refuses host line) as [e|].
  + cbn [fst snd]. by rewrite app_nil_r.
  + rewrite Hrun. cbn [fst snd]. by rewrite <- (assoc_L (++)).
Qed.


(** X18: when resolution yields no packet directory, or the packet has
  no spec.lock.json, the script prints the skip line and returns 0, or
  ends with the error of print when stdout refuses the line.  After the
  script was located and the packet resolved it runs only the existence
  test of the lock file: nothing is read or fetched. *)
Theorem main_skips_without_lock (args : VerifyScript.Namespace)
  (environ : gmap str str) (w w0 w1 : W) (root : str)
  (packet_dir : option str) (log : list access) :
VerifyScript.script_root host w = (Ok root, w0) ->
resolve_packet_dir root (VerifyScript.packet args) (VerifyScript.pr_num args)
  environ (w0, [ScriptPath]) = (Ok packet_dir, (w1, log)) ->
(forall d, packet_dir = Some d ->
    path_exists src (joinpath src d (of_string "spec.lock.json")) w1 = false) ->
let touched :=
  log ++ match packet_dir with
         | Some d => [PathExists (joinpath src d (of_string "spec.lock.json"))]
         | None => []
         end in
main (Ok args) environ ((w, []), [])
= match VerifyScript.stdout_refuses host VerifyScript.skip_message with
  | None => (Ok 0%Z, ((w1, touched), [VerifyScript.skip_message]))
  | Some e => (Raise e, ((w1, touched), []))
  end.
Proof.
intros Hroot Hresolve Habsent touched. subst touched.
unfold VerifyScript.main.
unfold bind at 1, lift at 1.
unfold bind at 1, VerifyScript.quiet at 1, logged at 1. cbn [fst snd].
rewrite Hroot. cbn [app].
unfold bind at 1, VerifyScript.quiet at 1. cbn [fst snd]. rewrite Hresolve.
destruct packet_dir as [d|].
- unfold bind at 1, VerifyScript.quiet at 1, exists_ at 1, logged at 1.
  cbn [fst snd]. rewrite (Habsent d eq_refl). cbn [negb].
  unfold bind, VerifyScript.print, ret. cbn [fst snd].
  by destruct (VerifyScript.stdout_refuses host VerifyScript.skip_message).
- unfold bind, VerifyScript.print, ret. cbn [fst snd]. rewrite app_nil_r.
  by destruct (VerifyScript.stdout_refuses host VerifyScript.skip_message).
Qed.

(** X19: on a lock file that parses to an object whose entries are
  objects, verification inside the script returns a result.  With no
  mismatch the script prints the PASS line naming the lock file and
  returns 0; otherwise it prints the message of the exit policy and one
  line per mismatch, in order, and returns the status of the exit
  policy.  The first line that stdout refuses ends the run with the
  error of print, after the lines before it. *)
Theorem main_reports_drift (args : VerifyScript.Namespace)
  (environ : gmap str str) (w w0 w1 w2 : W) (root packet_dir text : str)
  (log1 : list access) (fields : pydict json) (entries : list json) :
let lock_path := joinpath src packet_dir (of_string "spec.lock.json") in
let infra_docs_root := environ !! of_string "INFRA_DOCS_ROOT" in
VerifyScript.script_root host w = (Ok root, w0) ->
resolve_packet_dir root (VerifyScript.packet args) (VerifyScript.pr_num args)
  environ (w0, [ScriptPath]) = (Ok (Some packet_dir), (w1, log1)) ->
path_exists src lock_path w1 = true ->
path_read_text src lock_path w1 = (Ok text, w2) ->
VerifyScript.json_loads host text = Ok (JObj fields) ->
dict_get (of_string "canonical_files") (JArr []) fields = JArr entries ->
Forall is_mapping entries ->
exists (log : calls) (final : W * list access) (lines : list str),
  let ms := judged container_repr entries log in
  let result := {| ok := false; mismatches := ms |} in
  let wanted :=
    if bool_decide (ms = [])
    then [of_string "Spec verification PASS for " ++ lock_path]
    else (decide_exit_code environ result).2 :: lines in
  Forall2 (genuine_call container_repr (loader fields infra_docs_root))
    entries log
  /\ Forall2 (fun m line => VerifyScript.mismatch_line m = Ok line) ms lines
  /\ main (Ok args) environ ((w, []), [])
     = (match (printed wanted).2 with
        | Some e => Raise e
        | None =>
            Ok (if bool_decide (ms = []) then 0%Z
                else (decide_exit_code environ result).1)
        end,
        (final, (printed wanted).1)).
Proof.
intros lock_path infra_docs_root Hroot Hresolve Hfound Hread Hjson Hfiles
  Hentries.
destruct (verify_run fields entries infra_docs_root
            (w2, log1 ++ [PathExists lock_path] ++ [PathReadText lock_path])
            Hfiles Hentries) as (final & log & Hrun & Hlog).
destruct (print_mismatches_run (judged container_repr entries log)
            (judged_are_mismatches container_repr entries log))
  as (lines & Hlines & Hprint).
exists log, final, lines. split; [done|]. split; [done|].
unfold VerifyScript.main.
unfold bind at 1, lift at 1.
unfold bind at 1, VerifyScript.quiet at 1, logged at 1. cbn [fst snd].
rewrite Hroot. cbn [app].
unfold bind at 1, VerifyScript.quiet at 1. cbn [fst snd]. rewrite Hresolve.
fold lock_path.
unfold bind at 1, VerifyScript.quiet at 1, exists_ at 1, logged at 1.
cbn [fst snd]. rewrite Hfound. cbn [negb].
unfold bind at 1, VerifyScript.quiet at 1, logged at 1. cbn [fst snd].
rewrite Hread.
unfold bind at 1, lift at 1. rewrite Hjson.
fold infra_docs_root.
unfold bind at 1, VerifyScript.quiet at 1. cbn [fst snd].
rewrite <- (assoc_L (++)), Hrun.
destruct (judged container_repr entries log) as [|m ms] eqn:Hms.
- rewrite !bool_decide_eq_true_2 by done. cbn [ok decide_exit_code].
  rewrite printed_cons. unfold bind, VerifyScript.print, ret. cbn [fst snd].
  destruct (VerifyScript.stdout_refuses host _); [done|].
  cbn [VerifyScript.printed fst snd app]. done.
- rewrite !bool_decide_eq_false_2 by done. cbn [ok mismatches].
  rewrite printed_cons.
  destruct (decide_exit_code environ {| ok := false; mismatches := m :: ms |})
    as [code message]. cbn [fst snd].
  unfold bind at 1, VerifyScript.print at 1. cbn [fst snd].
  destruct (VerifyScript.stdout_refuses host _); [done|].
  unfold bind at 1. rewrite Hprint. cbn [app fst snd].
  destruct ((printed lines).2); done.
Qed.

End ScriptFacts.

(** ** Packet discovery *)

Section SortFacts.
Context {A : Type} (key : A -> Z).

Lemma insert_by_key_perm (x : A) (l : list A) : insert_by_key key x l ≡ₚ x :: l.
Proof.
induction l as [|y l IH]; [done|]. cbn [insert_by_key].
destruct (key x <=? key y)%Z; [done|]. rewrite IH. apply Permutation_swap.
Qed.

Lemma sorted_perm (l : list A) : sorted key l ≡ₚ l.
Proof.
induction l as [|x l IH]; [done|]. cbn [sorted foldr].
fold (sorted key l). by rewrite insert_by_key_perm, IH.
Qed.

Lemma last_insert_by_key (x : A) (l : list A) :
last (insert_by_key key x l)
= if forallb (fun y => (key y <? key x)%Z) l then Some x else last l.
Proof.
induction l as [|y l IH]; [done|]. cbn [insert_by_key forallb].
destruct (Z.leb_spec (key x) (key y)) as [Hle|Hlt].
- rewrite (proj2 (Z.ltb_ge _ _) Hle). reflexivity.
- rewrite (proj2 (Z.ltb_lt _ _) Hlt). cbn [andb].
  rewrite (last_cons y (insert_by_key key x l)), IH.
  destruct (forallb _ l); [done|]. by rewrite last_cons.
Qed.

(** The last item of the sorted list has the greatest key. *)
Lemma last_sorted_greatest (l : list A) :
match last (sorted key l) with
| None => l = []
| Some x => x ∈ l /\ forall y, y ∈ l -> (key y <= key x)%Z
end.
Proof.
induction l as [|x l IH]; [done|]. cbn [sorted foldr]. fold (sorted key l).
rewrite last_insert_by_key.
destruct (forallb _ (sorted key l)) eqn:Hall.
- split; [by left|]. intros y [->|Hy]%elem_of_cons; [lia|].
  rewrite forallb_forall in Hall.
  assert (Hy' : y ∈ sorted key l) by by rewrite sorted_perm.
  apply list_elem_of_In, Hall, Z.ltb_lt in Hy'. lia.
- destruct (last (sorted key l)) as [z|].
  + destruct IH as [Hz Hmax]. split; [by right|].
    intros y [->|Hy]%elem_of_cons; [|by apply Hmax].
    apply not_true_iff_false in Hall. rewrite forallb_forall in Hall.
    destruct (decide (key x <= key z)%Z) as [|Hgt]; [done|].
    destruct Hall. intros u Hu. apply Z.ltb_lt.
    assert (Hu' : u ∈ l) by by rewrite <- sorted_perm; apply list_elem_of_In.
    specialize (Hmax u Hu'). lia.
  + subst l. done.
Qed.

End SortFacts.

Lemma max_list_spec (l : list Z) :
  match foldr (fun k acc => Some (from_option (Z.max k) k acc)) None l with
  | None => l = []
  | Some k => k ∈ l /\ forall k', k' ∈ l -> (k' <= k)%Z
  end.
Proof.
  induction l as [|x l IH]; [done|]. cbn [foldr].
  destruct (foldr _ None l) as [k|]; cbn [from_option].
  - destruct IH as [Hk Hmax]. split.
    + destruct (Z.max_spec x k) as [[_ ->]|[_ ->]]; [by right|by left].
    + intros k' [->|Hk']%elem_of_cons; [lia|]. specialize (Hmax k' Hk'). lia.
  - subst l. split; [by left|]. intros k' ->%list_elem_of_singleton. lia.
Qed.

Lemma elem_of_keys (m : gmap Z str) (k : Z) :
  k ∈ (map_to_list m).*1 <-> is_Some (m !! k).
Proof.
  rewrite list_elem_of_fmap. split.
  - intros ([k' v] & -> & Hkv%elem_of_map_to_list). by exists v.
  - intros [v Hv]. exists (k, v). split; [done|]. by apply elem_of_map_to_list.
Qed.

Section PacketFacts.
Variable decimal : N -> option N.
Variable tree : Checkout.

Local Abbreviation number := (packet_number decimal).
Local Abbreviation base := (packets_base tree).

Local Abbreviation has_agentpack := (has_agentpack tree).
Local Abbreviation listed := (listed_packet decimal tree).

Lemma max_key_spec (m : gmap Z str) :
match max_key m with
| None => m = ∅
| Some k => is_Some (m !! k) /\ forall k', is_Some (m !! k') -> (k' <= k)%Z
end.
Proof.
unfold max_key. pose proof (max_list_spec (map_to_list m).*1) as H.
destruct (foldr _ None _) as [k|].
- destruct H as [Hk Hmax]. split; [by apply elem_of_keys|].
  intros k' Hk'. by apply Hmax, elem_of_keys.
- apply fmap_nil_inv in H. by apply map_to_list_empty_iff.
Qed.

(** X20: the verifier's packet discovery returns nothing exactly when
  docs/pr does not exist or no listed name is PR- followed by a digit;
  otherwise it returns a listed directory whose number, the digits after
  PR- read as an integer, is the greatest of all listed numbers. *)
Theorem discover_latest_packet_greatest (root : str) :
(discover_latest_packet decimal tree root = None
 <-> present tree (base root) = false
     \/ forall name, name ∈ glob_pr tree (base root) -> number name = None)
/\ (forall p, discover_latest_packet decimal tree root = Some p ->
      exists name n,
        name ∈ glob_pr tree (base root)
        /\ number name = Some n
        /\ p = child tree (base root) name
        /\ forall name' n',
             name' ∈ glob_pr tree (base root) ->
             number name' = Some n' -> (n' <= n)%Z).
Proof.
unfold discover_latest_packet.
set (f := fun name => match number name with
                      | Some n => Some (n, child tree (base root) name)
                      | None => None
                      end).
destruct (present tree (base root)); cbn [negb].
2: { split; [by split; [left|]|done]. }
pose proof (last_sorted_greatest fst (omap f (glob_pr tree (base root)))) as Hlast.
assert (Hin : forall n p, (n, p) ∈ omap f (glob_pr tree (base root)) <->
          exists name, name ∈ glob_pr tree (base root)
            /\ number name = Some n /\ p = child tree (base root) name).
{ intros n p. rewrite list_elem_of_omap. unfold f. split.
  - intros (name & Hname & Hf). exists name.
    destruct (number name); [|done]. by injection Hf as <- <-.
  - intros (name & Hname & Hn & ->). exists name. by rewrite Hn. }
destruct (omap f (glob_pr tree (base root))) as [|c cs] eqn:Hcs.
- split; [|done]. split; [|done]. intros _. right. intros name Hname.
  destruct (number name) as [n|] eqn:Hn; [|done].
  assert (Hbad : (n, child tree (base root) name) ∈ @nil (Z * str))
    by (apply Hin; by exists name).
  by apply elem_of_nil in Hbad.
- destruct (last (sorted fst (c :: cs))) as [[n p]|]; [|done].
  destruct Hlast as [Hmem Hmax]. cbn [fmap option_fmap option_map snd].
  split.
  + split; [done|]. intros [?|Hnone]; [done|].
    apply Hin in Hmem as (name & Hname & Hn & _).
    by rewrite (Hnone name Hname) in Hn.
  + intros p' [= <-]. apply Hin in Hmem as (name & Hname & Hn & ->).
    exists name, n. split_and!; try done.
    intros name' n' Hname' Hn'.
    apply (Hmax (n', child tree (base root) name')), Hin. by exists name'.
Qed.

Lemma fold_packets_sound (root : str) (names : list str) :
forall (acc : gmap Z str) (n : Z) (p : str),
foldl (fun packets name =>
         match number name with
         | None => packets
         | Some prn =>
             let p := child tree (base root) name in
             if present tree (child tree p (of_string "AGENTPACK.md"))
             then <[prn := p]> packets
             else packets
         end) acc names !! n = Some p ->
acc !! n = Some p
\/ exists name, name ∈ names /\ number name = Some n
     /\ has_agentpack root name = true /\ p = child tree (base root) name.
Proof.
induction names as [|name names IH]; intros acc n p; [by left|].
cbn [foldl]. intros [Hacc|(name' & Hin & H)]%IH.
- destruct (number name) as [prn|] eqn:Hn; [|by left].
  cbn zeta in Hacc.
  destruct (present tree _) eqn:Hpack; [|by left].
  destruct (decide (prn = n)) as [->|Hne].
  + rewrite lookup_insert_eq in Hacc. injection Hacc as <-.
    right. exists name. split_and!; try done. by left.
  + rewrite lookup_insert_ne in Hacc by done. by left.
- right. exists name'. split; [by right|done].
Qed.

Lemma fold_packets_complete (root : str) (names : list str) :
forall (acc : gmap Z str) (n : Z),
is_Some (acc !! n)
\/ (exists name, name ∈ names /\ number name = Some n
      /\ has_agentpack root name = true) ->
is_Some (foldl (fun packets name =>
         match number name with
         | None => packets
         | Some prn =>
             let p := child tree (base root) name in
             if present tree (child tree p (of_string "AGENTPACK.md"))
             then <[prn := p]> packets
             else packets
         end) acc names !! n).
Proof.
induction names as [|name names IH]; intros acc n.
- intros [?|(name & Hin & _)]; [done|]. by apply elem_of_nil in Hin.
- cbn [foldl]. intros [Hacc|(name' & [->|Hin]%elem_of_cons & Hn & Hpack)].
  + apply IH. left. destruct (number name) as [prn|]; [|done].
    cbn zeta. destruct (present tree _); [|done].
    destruct (decide (prn = n)) as [->|Hne].
    * rewrite lookup_insert_eq. by eexists.
    * by rewrite lookup_insert_ne.
  + apply IH. left. rewrite Hn. cbn zeta.
    unfold has_agentpack in Hpack. rewrite Hpack.
    rewrite lookup_insert_eq. by eexists.
  + apply IH. right. by exists name'.
Qed.

(** What [find_packets] holds: the number of every listed directory with
  an AGENTPACK.md, mapped to one such directory. *)
Lemma find_packets_lookup (root : str) (n : Z) :
(forall p, find_packets decimal tree root !! n = Some p ->
   present tree (base root) = true
   /\ exists name, name ∈ glob_pr tree (base root) /\ number name = Some n
        /\ has_agentpack root name = true /\ p = child tree (base root) name)
/\ (present tree (base root) = true ->
    (exists name, name ∈ glob_pr tree (base root) /\ number name = Some n
       /\ has_agentpack root name = true) ->
    is_Some (find_packets decimal tree root !! n)).
Proof.
unfold find_packets.
destruct (present tree (base root)); cbn [negb].
- split.
  + intros p [Hempty|H]%fold_packets_sound; [|done].
    by rewrite lookup_empty in Hempty.
  + intros _ H. apply fold_packets_complete. by right.
- split; [|done]. intros p. by rewrite lookup_empty.
Qed.

(** X21: without a number given, packet.py picks a listed directory that
  holds an AGENTPACK.md and whose number is the greatest among those; it
  returns one whenever such a directory is listed, and exits with a
  message when none is. *)
Theorem pick_packet_latest (root : str) :
(forall p, pick_packet decimal tree root None = Ok p ->
   exists name n,
     listed root name n /\ p = child tree (base root) name
     /\ forall name' n', listed root name' n' -> (n' <= n)%Z)
/\ ((exists name n, listed root name n) ->
    exists p, pick_packet decimal tree root None = Ok p)
/\ ((forall name n, ~ listed root name n) ->
    exists msg, pick_packet decimal tree root None = Raise (SystemExit msg)).
Proof.
unfold pick_packet, listed_packet.
pose proof (max_key_spec (find_packets decimal tree root)) as Hmax.
destruct (max_key (find_packets decimal tree root)) as [latest|].
- destruct Hmax as [[p Hp] Hmax]. rewrite Hp.
  destruct (proj1 (find_packets_lookup root latest) p Hp)
    as (Hbase & name & Hname & Hn & Hpack & ->).
  split_and!.
  + intros p' [= <-]. exists name, latest. split_and!; try done.
    intros name' n' (_ & Hname' & Hn' & Hpack').
    apply Hmax, (find_packets_lookup root n'); [done|]. by exists name'.
  + intros _. by eexists.
  + intros Hnone. by destruct (Hnone name latest).
- split_and!.
  + done.
  + intros (name & n & Hbase & Hname & Hn & Hpack).
    assert (Hsome : is_Some (find_packets decimal tree root !! n))
      by (apply find_packets_lookup; [done|]; by exists name).
    rewrite Hmax, lookup_empty in Hsome. by destruct Hsome.
  + intros _. by eexists.
Qed.

(** X22: with a number given, packet.py returns a listed directory of
  that number that holds an AGENTPACK.md, whatever the leading zeros of
  its name; it returns one whenever such a directory is listed, and
  otherwise exits with the message that names the number. *)
Theorem pick_packet_numbered (root : str) (n : Z) :
(forall p, pick_packet decimal tree root (Some n) = Ok p ->
   exists name, listed root name n /\ p = child tree (base root) name)
/\ ((exists name, listed root name n) ->
    exists p, pick_packet decimal tree root (Some n) = Ok p)
/\ ((forall name, ~ listed root name n) ->
    pick_packet decimal tree root (Some n)
    = Raise (SystemExit
               (of_string "Packet not found for PR-" ++ int_text n
                  ++ of_string ". Expected docs/pr/PR-" ++ format_03d n
                  ++ of_string "/AGENTPACK.md or PR-" ++ int_text n
                  ++ of_string "."))).
Proof.
unfold pick_packet, listed_packet.
destruct (find_packets decimal tree root !! n) as [p|] eqn:Hp.
- destruct (proj1 (find_packets_lookup root n) p Hp)
    as (Hbase & name & Hname & Hn & Hpack & ->).
  split_and!.
  + intros p' [= <-]. by exists name.
  + intros _. by eexists.
  + intros Hnone. by destruct (Hnone name).
- split_and!; [done| |done].
  intros (name & Hbase & Hname & Hn & Hpack).
  assert (Hsome : is_Some (find_packets decimal tree root !! n))
    by (apply find_packets_lookup; [done|]; by exists name).
  rewrite Hp in Hsome. by destruct Hsome.
Qed.

End PacketFacts.

(** On the sample checkout: the verifier takes the directory with the
    greatest number, packet.py the greatest one that holds an
    AGENTPACK.md; leading zeros do not count. *)
Example discover_latest_packet_sample :
  discover_latest_packet ascii_decimal sample_checkout (of_string "/repo")
  = Some (of_string "/repo/docs/pr/PR-007").
Proof. vm_compute. reflexivity. Qed.

Example pick_packet_sample :
  pick_packet ascii_decimal sample_checkout (of_string "/repo") None
  = Ok (of_string "/repo/docs/pr/PR-5")
  /\ pick_packet ascii_decimal sample_checkout (of_string "/repo") (Some 2%Z)
     = Ok (of_string "/repo/docs/pr/PR-002")
  /\ pick_packet ascii_decimal sample_checkout (of_string "/repo") (Some 7%Z)
     = Raise (SystemExit
                (of_string "Packet not found for PR-7. Expected docs/pr/PR-007/AGENTPACK.md or PR-7.")).
Proof. split_and!; vm_compute; reflexivity. Qed.

(** ** The further theorems at concrete inputs *)

Lemma sample_manifest_plain : plain_manifest no_repr sample_manifest.
Proof.
  split.
  - intros key v [<-|[<-|[<-|[]]]] [= <-]; vm_compute; reflexivity.
  - intros items [= <-]. repeat constructor.
Qed.

Lemma render_canonical_spec_anchor_is_region_witness :
  exists anchor,
    render_canonical_spec_anchor no_repr sample_manifest = Ok anchor
    /\ Pattern.search (begin_sentinel CANONICAL_ANCHOR_TAG)
         (end_sentinel CANONICAL_ANCHOR_TAG) anchor
       = Some (0%nat, length anchor)
    /\ BACKSLASH ∉ anchor.
Proof.
  apply (render_canonical_spec_anchor_is_region no_repr sample_manifest).
  - vm_compute. reflexivity.
  - exact sample_manifest_plain.
Defined.

Lemma upsert_rendered_anchor_idempotent_witness :
  exists anchor once,
    render_canonical_spec_anchor no_repr sample_manifest = Ok anchor
    /\ upsert_generated_block (of_string "# Packet") CANONICAL_ANCHOR_TAG anchor
       = inr once
    /\ upsert_generated_block once CANONICAL_ANCHOR_TAG anchor = inr once.
Proof.
  apply (upsert_rendered_anchor_idempotent no_repr sample_manifest
           (of_string "# Packet")).
  - vm_compute. reflexivity.
  - exact sample_manifest_plain.
  - right. vm_compute. reflexivity.
Defined.

Lemma upsert_replaces_first_region_witness :
  exists pre mid post,
    sample_document
    = pre ++ begin_sentinel (of_string "t") ++ mid
          ++ end_sentinel (of_string "t") ++ post
    /\ find (begin_sentinel (of_string "t")) (pre ++ begin_sentinel (of_string "t"))
       = Some (length pre)
    /\ find (end_sentinel (of_string "t")) (mid ++ end_sentinel (of_string "t"))
       = Some (length mid)
    /\ upsert_generated_block sample_document (of_string "t") (of_string "new")
       = inr (pre ++ of_string "new" ++ post).
Proof.
  apply (upsert_replaces_first_region (of_string "t")
           (of_string "# Packet" ++ [LF]) (of_string "old")
           ([LF] ++ of_string "tail") (of_string "new")).
  intros Hin%list_elem_of_In. vm_compute in Hin. intuition discriminate.
Defined.


Lemma upsert_last_write_wins_witness :
  exists first,
    upsert_generated_block sample_document (of_string "t")
      (begin_sentinel (of_string "t") ++ of_string "one"
         ++ end_sentinel (of_string "t"))
    = inr first
    /\ upsert_generated_block first (of_string "t") (of_string "two")
       = upsert_generated_block sample_document (of_string "t") (of_string "two").
Proof.
  apply (upsert_last_write_wins (of_string "t") sample_document
           (of_string "one") (of_string "two")).
  - vm_compute. reflexivity.
  - intros Hin%list_elem_of_In. vm_compute in Hin. intuition discriminate.
  - intros Hin%list_elem_of_In. vm_compute in Hin. intuition discriminate.
  - left. vm_compute. eexists. reflexivity.
Defined.

Lemma generate_spec_lock_entries_in_order_witness :
  exists (lock : pydict json) (log : calls) (results : list (str * str)),
    generate_spec_lock no_repr sample_now sample_manifest
      (fixed_loader text_at_generation) None
      (of_string "scaffold_pr_packets.py") (of_string "dev") (tt, [])
    = (Ok lock, (tt, log))
    /\ length results = 2%nat
    /\ dict_lookup (of_string "canonical_files") lock
       = Some (JArr (zip_with (written no_repr)
                       [JStr (of_string "spec/a.md"); JStr (of_string "spec/b.md")]
                       results))
    /\ log = zip_with (retrieved no_repr)
               [JStr (of_string "spec/a.md"); JStr (of_string "spec/b.md")]
               results
    /\ Forall (fun td => sha256_normalized_text td.1 = Ok td.2) results.
Proof.
  eassert (Hgen : generate_spec_lock no_repr sample_now sample_manifest
                    (fixed_loader text_at_generation) None
                    (of_string "scaffold_pr_packets.py") (of_string "dev")
                    (tt, [])
                  = (Ok _, (tt, _))) by (vm_compute; reflexivity).
  destruct (generate_spec_lock_entries_in_order no_repr
              (fixed_loader text_at_generation) sample_now sample_manifest None
              (of_string "scaffold_pr_packets.py") (of_string "dev") tt tt _ _
              [JStr (of_string "spec/a.md"); JStr (of_string "spec/b.md")]
              eq_refl Hgen)
    as (results & Hlen & Hfiles & Hlog & Hsha).
  eexists _, _, results. split; [exact Hgen|].
  split; [exact Hlen|]. split; [exact Hfiles|]. split; [exact Hlog|exact Hsha].
Defined.

Lemma generate_spec_lock_all_or_nothing_witness :
  exists (e : py_exn) (log : calls) (items : list json) (k : nat)
         (done_ : calls) (last : str * result str),
    generate_spec_lock no_repr sample_now sample_manifest flaky_loader None
      (of_string "scaffold_pr_packets.py") (of_string "dev") (tt, [])
    = (Raise e, (tt, log))
    /\ dict_lookup (of_string "canonical_files") sample_manifest
       = Some (JArr items)
    /\ (k < length items)%nat
    /\ length done_ = k
    /\ log = done_ ++ [last]
    /\ log.*1 = take (S k) (py_str no_repr <$> items)
    /\ (last.2 = Raise e
        \/ exists text, last.2 = Ok text /\ sha256_normalized_text text = Raise e).
Proof.
  eassert (Hgen : generate_spec_lock no_repr sample_now sample_manifest
                    flaky_loader None
                    (of_string "scaffold_pr_packets.py") (of_string "dev")
                    (tt, [])
                  = (Raise _, (tt, _))) by (vm_compute; reflexivity).
  destruct (generate_spec_lock_all_or_nothing no_repr flaky_loader sample_now
              sample_manifest None
              (of_string "scaffold_pr_packets.py") (of_string "dev") tt tt _ _
              ltac:(vm_compute; reflexivity) Hgen)
    as (items & k & done_ & last & H).
  eexists _, _, items, k, done_, last. split; [exact Hgen|]. exact H.
Defined.

Lemma verify_reports_changed_paths_witness :
  exists (lock : pydict json) (st : unit * calls) (st' : unit * calls),
    generate_spec_lock no_repr sample_now sample_manifest
      (fixed_loader text_at_generation) None
      (of_string "scaffold_pr_packets.py") (of_string "dev") (tt, [])
    = (Ok lock, st)
    /\ verify_spec_lock no_repr lock (fixed_loader text_at_verification) (tt, [])
       = (Ok {| ok := bool_decide
                        (length (omap (drift text_at_generation text_at_verification)
                                   (py_str no_repr
                                      <$> [JStr (of_string "spec/a.md");
                                           JStr (of_string "spec/b.md")]))
                         = 0%nat);
                mismatches :=
                  omap (drift text_at_generation text_at_verification)
                    (py_str no_repr
                       <$> [JStr (of_string "spec/a.md");
                            JStr (of_string "spec/b.md")]) |},
          st').
Proof.
  eassert (Hgen : generate_spec_lock no_repr sample_now sample_manifest
                    (fixed_loader text_at_generation) None
                    (of_string "scaffold_pr_packets.py") (of_string "dev")
                    (tt, [])
                  = (Ok _, _)) by (vm_compute; reflexivity).
  destruct (verify_reports_changed_paths no_repr
              (fixed_loader text_at_generation)
              (fixed_loader text_at_verification)
              text_at_generation text_at_verification
              (fun _ _ => eq_refl) (fun _ _ => eq_refl)
              sample_now sample_manifest None
              (of_string "scaffold_pr_packets.py") (of_string "dev") tt _ _
              [JStr (of_string "spec/a.md"); JStr (of_string "spec/b.md")] tt
              eq_refl Hgen)
    as (st' & Hverify).
  eexists _, _, st'. split; [exact Hgen|]. exact Hverify.
Defined.

Lemma verify_one_changed_file_witness :
  exists (lock : pydict json) (st : unit * calls) (st' : unit * calls)
         (old_digest new_digest : str),
    generate_spec_lock no_repr sample_now sample_manifest
      (fixed_loader text_at_generation) None
      (of_string "scaffold_pr_packets.py") (of_string "dev") (tt, [])
    = (Ok lock, st)
    /\ new_digest <> old_digest
    /\ verify_spec_lock no_repr lock (fixed_loader text_after_edit) (tt, [])
       = (Ok {| ok := false;
                mismatches := [mismatch (of_string "spec/b.md")
                                 old_digest new_digest] |},
          st').
Proof.
  eassert (Hgen : generate_spec_lock no_repr sample_now sample_manifest
                    (fixed_loader text_at_generation) None
                    (of_string "scaffold_pr_packets.py") (of_string "dev")
                    (tt, [])
                  = (Ok _, _)) by (vm_compute; reflexivity).
  eassert (Hold : sha256_normalized_text
                    (text_at_generation (of_string "spec/b.md")) = Ok _)
    by (vm_compute; reflexivity).
  eassert (Hnew : sha256_normalized_text
                    (text_after_edit (of_string "spec/b.md")) = Ok _)
    by (vm_compute; reflexivity).
  match type of Hold with _ = Ok ?o =>
  match type of Hnew with _ = Ok ?n =>
    assert (Hne : n <> o) by discriminate
  end end.
  assert (Hsame : forall p : str,
            p ∈ py_str no_repr <$> ([JStr (of_string "spec/a.md")] ++ []) ->
            text_after_edit p = text_at_generation p).
  { intros p Hp%list_elem_of_In. cbn in Hp. destruct Hp as [<-|[]].
    vm_compute. reflexivity. }
  destruct (verify_one_changed_file no_repr
              (fixed_loader text_at_generation) (fixed_loader text_after_edit)
              text_at_generation text_after_edit
              (fun _ _ => eq_refl) (fun _ _ => eq_refl)
              sample_now sample_manifest None
              (of_string "scaffold_pr_packets.py") (of_string "dev") tt _ _
              [JStr (of_string "spec/a.md")] [] (JStr (of_string "spec/b.md"))
              _ _ tt eq_refl Hsame Hold Hnew Hne Hgen)
    as (st' & Hverify).
  eexists _, _, st', _, _. split; [exact Hgen|]. split; [exact Hne|].
  exact Hverify.
Defined.

Lemma verify_spec_lock_malformed_entry_witness :
  exists (w' : unit) (log : calls),
    verify_spec_lock no_repr sample_bad_lock flaky_loader (tt, [])
    = (Raise (AttributeError "int" "get"), (w', log))
    /\ length log = 1%nat.
Proof.
  destruct (verify_spec_lock_malformed_entry no_repr flaky_loader)
    with (lock_data := sample_bad_lock)
         (before := [ JObj [ (of_string "path", JStr (of_string "spec/a.md"));
                             (of_string "sha256", JStr (of_string "00")) ] ])
         (after := [ JObj [ (of_string "path", JStr (of_string "spec/b.md")) ] ])
         (bad := JInt 5) (w := tt)
    as (w' & log & Hrun & Hlog).
  - intros relpath w e w'. unfold flaky_loader.
    destruct (decide (relpath = of_string "spec/a.md")); [|discriminate].
    intros [= <- _]. reflexivity.
  - reflexivity.
  - repeat constructor. by eexists.
  - intros [fields Hfields]. discriminate.
  - exists w', log. split; [exact Hrun|].
    apply Forall2_length in Hlog. by rewrite <- Hlog.
Defined.

Lemma load_canonical_text_remote_fallback_witness :
  exists (w' : unit) (log : list access),
    load_canonical_text sample_sources (of_string "SolLabsHQ/infra-docs")
      (of_string "0a1b2c3") (of_string "spec/a.md") None (tt, [])
    = (Raise (RuntimeError
                (of_string "gh fetch failed (gh CLI is not available); raw fetch failed (network unreachable)")),
       (w', log))
    /\ Forall (fun a => is_network a = true) log.
Proof.
  destruct (load_canonical_text_remote_fallback sample_sources
              (of_string "SolLabsHQ/infra-docs") (of_string "0a1b2c3")
              (of_string "spec/a.md") None tt eq_refl)
    as (r & w' & log & Hrun & Hnet & _ & Hfall).
  destruct (Hfall _ tt _ tt eq_refl eq_refl) as (_ & _ & Hr).
  exists w', log. cbn in Hr. rewrite Hr in Hrun. split; [exact Hrun|exact Hnet].
Defined.

Lemma load_canonical_text_invalid_root_witness :
  load_canonical_text sample_sources (of_string "SolLabsHQ/infra-docs")
    (of_string "0a1b2c3") (of_string "spec/a.md")
    (Some (of_string "/infra/spec/a.md")) (tt, [])
  = (Raise (RuntimeError
              (of_string "INFRA_DOCS_ROOT does not point to a valid directory: "
                 ++ of_string "/infra/spec/a.md")),
     (tt, [PathExists (of_string "/infra/spec/a.md");
           PathIsDir (of_string "/infra/spec/a.md")])).
Proof.
  apply (load_canonical_text_invalid_root sample_sources
           (of_string "SolLabsHQ/infra-docs") (of_string "0a1b2c3")
           (of_string "spec/a.md") (of_string "/infra/spec/a.md") tt).
  - discriminate.
  - right. reflexivity.
Defined.


Lemma main_skips_without_lock_witness :
  VerifyScript.main no_repr sample_sources sample_host (Ok no_arguments) ∅
    ((tt, []), [])
  = (Ok 0%Z,
     ((tt, [ScriptPath; PathExists (of_string "/repo/docs/pr")]),
      [VerifyScript.skip_message])).
Proof.
  apply (main_skips_without_lock no_repr sample_sources sample_host no_arguments
           ∅ tt tt tt (of_string "/repo") None
           [ScriptPath; PathExists (of_string "/repo/docs/pr")]).
  - reflexivity.
  - reflexivity.
  - intros d [=].
Defined.

Lemma main_reports_drift_witness :
  exists (log : calls) (final : unit * list access) (lines : list str),
    Forall2 (fun m line => VerifyScript.mismatch_line m = Ok line)
      (judged no_repr sample_entries log) lines
    /\ VerifyScript.main no_repr sample_packet_sources sample_host
         (Ok {| VerifyScript.packet := Some (of_string "docs/pr/PR-001");
                VerifyScript.pr_num := None |})
         ∅ ((tt, []), [])
       = (Ok (if bool_decide (judged no_repr sample_entries log = [])
              then 0%Z else 1%Z),
          (final,
           if bool_decide (judged no_repr sample_entries log = [])
           then [of_string "Spec verification PASS for "
                   ++ of_string "/repo/docs/pr/PR-001/spec.lock.json"]
           else of_string "Spec drift detected. Set ALLOW_SPEC_DRIFT=1 to bypass."
                  :: lines)).
Proof.
  destruct (main_reports_drift no_repr sample_packet_sources sample_host
              {| VerifyScript.packet := Some (of_string "docs/pr/PR-001");
                 VerifyScript.pr_num := None |}
              ∅ tt tt tt tt (of_string "/repo") (of_string "/repo/docs/pr/PR-001")
              (of_string "X" ++ [LF]) [ScriptPath] sample_full_lock sample_entries)
    as (log & final & lines & _ & Hlines & Hrun).
  - reflexivity.
  - reflexivity.
  - reflexivity.
  - reflexivity.
  - reflexivity.
  - reflexivity.
  - repeat constructor; by eexists.
  - exists log, final, lines. split; [exact Hlines|].
    rewrite Hrun. clear Hrun.
    assert (Hall : forall wanted : list str,
              VerifyScript.printed sample_host wanted = (wanted, None)).
    { induction wanted as [|line rest IH]; [done|].
      cbn [VerifyScript.printed]. cbn. by rewrite IH. }
    rewrite Hall. cbn [fst snd].
    by destruct (bool_decide (judged no_repr sample_entries log = [])).
Defined.
